(** * gpx-bike-simulator: the physics core of [app.js]

    A shallow embedding of the computational core of [src/app.js]
    ([calculateDistance], [calculateSegmentData], [calculatePowerNeeded],
    [calculateSpeed], [runSimulation], [updateSummaryCards]) and of the
    index computations around it ([selectPointsInBounds],
    [selectChartRange], [findClosestPoint], [downsampleData],
    [highlightChartPoint], [handleChartHover]), with the properties of the
    core that the specification states and further properties of the
    code.

    Number model.  The source computes with JavaScript numbers.  Here a
    number is a real ([R]): rounding, overflow, signed zeros and NaN inputs
    are outside the model.  The one non-finite behaviour the properties
    depend on, division by zero, is modelled explicitly: [js_div] fails
    where JavaScript yields [NaN] or an infinity.  DOM reads and writes
    (parameter inputs, summary cards, map, charts) are not part of the
    model: parameters are arguments, results are returned.  Indices and
    counts are natural numbers.  What belongs to the map library
    ([bounds.contains]) is a parameter.

    Rounding.  The reals do not round.  The module [Binary64] holds the
    core once more, on binary64 numbers, to compute what the code does on
    an input where rounding decides: for two points opposite each other on
    the globe the haversine term exceeds 1 and the distance is [NaN]. *)

From Stdlib Require Import Floats.
From Stdlib Require Import Reals Lra Lia List Arith Bool.
Import ListNotations.

Set Warnings "-inexact-float".

Open Scope R_scope.

(** ** Constants ([app.js], lines 2-4) *)

Definition g : R := 9.81.
Definition rho : R := 1.225.
Definition Crr : R := 0.004.

(** ** JavaScript arithmetic that is not total on the reals *)

(** [x / y]: [None] stands for the non-finite result ([NaN], [Infinity],
    [-Infinity]) of a division by zero. *)
Definition js_div (x y : R) : option R :=
  if Req_dec_T y 0 then None else Some (x / y).

(** [Math.atan2(y, x)] on finite arguments. *)
Definition atan2 (y x : R) : R :=
  if Rlt_dec 0 x then atan (y / x)
  else if Rlt_dec x 0 then
    (if Rle_dec 0 y then atan (y / x) + PI else atan (y / x) - PI)
  else if Rlt_dec 0 y then PI / 2
  else if Rlt_dec y 0 then - (PI / 2)
  else 0.

(** ** Power needed for a speed and a grade ([calculatePowerNeeded]) *)

Definition calculatePowerNeeded (speed_ms grade mass CdA : R) : R :=
  let theta := atan grade in
  let F_gravity := mass * g * sin theta in
  let F_rolling := mass * g * cos theta * Crr in
  let F_air := 0.5 * rho * CdA * speed_ms * speed_ms in
  let totalForce := F_gravity + F_rolling + F_air in
  let power := totalForce * speed_ms in
  power.

(** ** Speed for a power limit ([calculateSpeed]) *)

Definition tolerance : R := 0.001.
Definition maxIterations : nat := 100.

(** The state of the binary search: the bracket and the iteration count. *)
Record Bracket : Type := mkBracket {
  vMin : R;
  vMax : R;
  iterations : nat
}.

(** The loop condition
    [vMax - vMin > tolerance && iterations < maxIterations]. *)
Definition searching (b : Bracket) : bool :=
  (if Rgt_dec (vMax b - vMin b) tolerance then true else false)
  && (iterations b <? maxIterations)%nat.

(** One execution of the loop body. *)
Definition bisect (grade mass CdA Pmax : R) (b : Bracket) : Bracket :=
  let vMid := (vMin b + vMax b) / 2 in
  let powerNeeded := calculatePowerNeeded vMid grade mass CdA in
  if Rlt_dec powerNeeded Pmax
  then mkBracket vMid (vMax b) (S (iterations b))
  else mkBracket (vMin b) vMid (S (iterations b)).

(** The [while] loop.  [fuel] bounds the number of body executions the
    model can follow; [search_loop_fuel] shows that [maxIterations] is
    always enough, so the loop never stops for lack of fuel. *)
Fixpoint search_loop (fuel : nat) (grade mass CdA Pmax : R) (b : Bracket)
  : Bracket :=
  match fuel with
  | O => b
  | S fuel' =>
      if searching b
      then search_loop fuel' grade mass CdA Pmax (bisect grade mass CdA Pmax b)
      else b
  end.

Definition calculateSpeed (grade mass CdA Pmax Vmax_ms : R) : R :=
  let powerAtVmax := calculatePowerNeeded Vmax_ms grade mass CdA in
  if Rle_dec powerAtVmax Pmax then Vmax_ms
  else
    let b := search_loop maxIterations grade mass CdA Pmax
               (mkBracket 0.1 Vmax_ms 0) in
    (vMin b + vMax b) / 2.

(** ** Failure

    What the source does instead of returning a value: the early [return]
    of [runSimulation] without a route, its alert for a route without a
    segment, a number that is not finite, and the [TypeError] raised by
    reading a field of [undefined] (an index outside the array). *)

Inductive failure : Type :=
| NoGpxData
| NotEnoughData
| NonFinite
| OutOfRange.

Inductive result (A : Type) : Type :=
| Ok (a : A)
| Err (e : failure).

Arguments Ok {A} a.
Arguments Err {A} e.

Definition bind {A B : Type} (r : result A) (k : A -> result B) : result B :=
  match r with
  | Ok a => k a
  | Err e => Err e
  end.

Notation "x <- r ;; k" := (bind r (fun x => k))
  (at level 61, r at next level, right associativity).

Definition finite (o : option R) : result R :=
  match o with
  | Some x => Ok x
  | None => Err NonFinite
  end.

(** [data[i]] followed by a field read. *)
Definition lookup {A : Type} (data : list A) (i : nat) : result A :=
  match nth_error data i with
  | Some x => Ok x
  | None => Err OutOfRange
  end.

(** ** Data *)

(** A point of [gpxData.points]: [{ lat, lon, ele }]. *)
Module TrackPoint.
Record t : Type := mk { lat : R; lon : R; ele : R }.
End TrackPoint.

(** An element of [segments]. *)
Module Segment.
Record t : Type := mk {
  distance : R;
  grade : R;
  elevation : R;
  cumulativeDistance : R;
  lat : R;
  lon : R
}.
End Segment.

(** An element of [simulationData]; the starting point has no [lat] and
    no [lon]. *)
Module SimulationPoint.
Record t : Type := mk {
  distance : R;
  elevation : R;
  speed : R;
  power : R;
  time : R;
  grade : R;
  lat : option R;
  lon : option R;
  elevationGain : R
}.
End SimulationPoint.

(** ** Haversine distance ([calculateDistance]) *)

Definition calculateDistance (lat1 lon1 lat2 lon2 : R) : R :=
  let R_earth := 6371000 in
  let phi1 := lat1 * PI / 180 in
  let phi2 := lat2 * PI / 180 in
  let dphi := (lat2 - lat1) * PI / 180 in
  let dlambda := (lon2 - lon1) * PI / 180 in
  let a := sin (dphi / 2) * sin (dphi / 2) +
           cos phi1 * cos phi2 *
           sin (dlambda / 2) * sin (dlambda / 2) in
  let c := 2 * atan2 (sqrt a) (sqrt (1 - a)) in
  R_earth * c.

(** ** Segments ([calculateSegmentData]) *)

(** The segment of the pair [p1], [p2], given the distance accumulated
    before it: the body of the [for] loop. *)
Definition segmentOf (totalDistance : R) (p1 p2 : TrackPoint.t) : Segment.t :=
  let horizontalDist :=
    calculateDistance (TrackPoint.lat p1) (TrackPoint.lon p1)
                      (TrackPoint.lat p2) (TrackPoint.lon p2) in
  let elevationChange := TrackPoint.ele p2 - TrackPoint.ele p1 in
  let distance :=
    sqrt (horizontalDist * horizontalDist + elevationChange * elevationChange) in
  let grade :=
    if Rgt_dec horizontalDist 0 then elevationChange / horizontalDist else 0 in
  Segment.mk distance grade (TrackPoint.ele p2) (totalDistance + distance)
             (TrackPoint.lat p2) (TrackPoint.lon p2).

(** The loop [for (i = 1; i < points.length; i++)], with [p1 = points[i-1]]
    and [rest] the points from index [i] on. *)
Fixpoint segmentsFrom (totalDistance : R) (p1 : TrackPoint.t)
         (rest : list TrackPoint.t) : list Segment.t :=
  match rest with
  | [] => []
  | p2 :: rest' =>
      let s := segmentOf totalDistance p1 p2 in
      s :: segmentsFrom (Segment.cumulativeDistance s) p2 rest'
  end.

Definition calculateSegmentData (points : list TrackPoint.t) : list Segment.t :=
  match points with
  | [] => []
  | p :: rest => segmentsFrom 0 p rest
  end.

(** ** The simulation ([runSimulation]) *)

(** The parameters read from the page. *)
Record Parameters : Type := mkParameters {
  mass : R;
  CdA : R;
  Pmax : R;
  Vmax_kmh : R
}.

Definition Vmax_ms (p : Parameters) : R := Vmax_kmh p / 3.6.

(** The variables the segment loop updates. *)
Record SimState : Type := mkSimState {
  totalTime : R;
  simulationData : list SimulationPoint.t;
  cumulativeElevationGain : R;
  previousElevation : R
}.

(** The power recorded for a segment ridden at [speed_ms]. *)
Definition actualPower (p : Parameters) (segment : Segment.t) (speed_ms : R) : R :=
  if Rge_dec speed_ms (Vmax_ms p - 0.01)
  then
    let powerNeeded :=
      calculatePowerNeeded speed_ms (Segment.grade segment) (mass p) (CdA p) in
    Rmax 0 powerNeeded
  else Pmax p.

(** The body of the segment loop.  With a speed of 0 the source goes on
    with a time that is [Infinity] or [NaN]; the model stops there with
    [NonFinite]. *)
Definition simulateSegment (p : Parameters) (st : SimState) (segment : Segment.t)
  : result SimState :=
  let speed_ms :=
    calculateSpeed (Segment.grade segment) (mass p) (CdA p) (Pmax p) (Vmax_ms p) in
  let speed_kmh := speed_ms * 3.6 in
  time <- finite (js_div (Segment.distance segment) speed_ms) ;;
  let totalTime' := totalTime st + time in
  let elevationChange := Segment.elevation segment - previousElevation st in
  let gain' :=
    if Rgt_dec elevationChange 0
    then cumulativeElevationGain st + elevationChange
    else cumulativeElevationGain st in
  let power := actualPower p segment speed_ms in
  Ok (mkSimState
        totalTime'
        (simulationData st ++
         [SimulationPoint.mk
            (Segment.cumulativeDistance segment)
            (Segment.elevation segment)
            speed_kmh
            power
            totalTime'
            (Segment.grade segment * 100)
            (Some (Segment.lat segment))
            (Some (Segment.lon segment))
            gain'])
        gain'
        (Segment.elevation segment)).

Fixpoint simulateSegments (p : Parameters) (st : SimState)
         (segments : list Segment.t) : result SimState :=
  match segments with
  | [] => Ok st
  | segment :: rest =>
      st' <- simulateSegment p st segment ;;
      simulateSegments p st' rest
  end.

(** The loop [for (i = from; ...; i++)] that sums [power * timeDiff],
    run [count] times from index [i]. *)
Fixpoint powerLoop (data : list SimulationPoint.t) (i count : nat)
         (totalPower : R) : result R :=
  match count with
  | O => Ok totalPower
  | S count' =>
      cur <- lookup data i ;;
      prev <- lookup data (i - 1) ;;
      let timeDiff := SimulationPoint.time cur - SimulationPoint.time prev in
      powerLoop data (S i) count'
                (totalPower + SimulationPoint.power cur * timeDiff)
  end.

(** What [runSimulation] hands to [displayResults].  An average is [None]
    when it is not a finite number. *)
Record Simulation : Type := mkSimulation {
  sim_data : list SimulationPoint.t;
  sim_totalTime : R;
  sim_totalDistance : R;
  sim_avgSpeed : option R;
  sim_avgPower : option R
}.

Definition startingPoint (first : TrackPoint.t) : SimulationPoint.t :=
  SimulationPoint.mk 0 (TrackPoint.ele first) 0 0 0 0 None None 0.

(** The variables as they are when the segment loop starts:
    [totalTime = 0], the starting point pushed, no elevation gain,
    [previousElevation] the elevation of the first point. *)
Definition initialState (first : TrackPoint.t) : SimState :=
  mkSimState 0 [startingPoint first] 0 (TrackPoint.ele first).

Definition runSimulation (gpxData : option (list TrackPoint.t)) (p : Parameters)
  : result Simulation :=
  match gpxData with
  | None => Err NoGpxData
  | Some points =>
      let segments := calculateSegmentData points in
      if (length segments =? 0)%nat then Err NotEnoughData
      else
        first <- lookup points 0 ;;
        st <- simulateSegments p (initialState first) segments ;;
        lastSegment <- lookup segments (length segments - 1) ;;
        let totalDistance := Segment.cumulativeDistance lastSegment in
        let avgSpeed :=
          option_map (fun q => q * 3.6) (js_div totalDistance (totalTime st)) in
        totalPower <- powerLoop (simulationData st) 1
                        (length (simulationData st) - 1) 0 ;;
        let avgPower := js_div totalPower (totalTime st) in
        Ok (mkSimulation (simulationData st) (totalTime st) totalDistance
                         avgSpeed avgPower)
  end.

(** ** Totals of a range ([updateSummaryCards]) *)

(** The numbers [updateSummaryCards] writes to the summary cards. *)
Record Summary : Type := mkSummary {
  sum_totalTime : R;
  sum_totalDistance : R;
  sum_avgSpeed : R;
  sum_avgPower : R
}.

(** [startIdx] and [endIdx] are [None] where the call leaves them out.
    [!endIdx] holds for a missing [endIdx] and for [0].  On an empty
    [data] the source reads [data[-1]]; here the index is [0]: both reads
    fail. *)
Definition updateSummaryCards (data : list SimulationPoint.t)
           (startIdx endIdx : option nat) : result Summary :=
  let startIdx := match startIdx with Some s => s | None => O end in
  let endIdx :=
    match endIdx with
    | None | Some O => (length data - 1)%nat
    | Some e => e
    end in
  first <- lookup data startIdx ;;
  last <- lookup data endIdx ;;
  let totalTime := SimulationPoint.time last - SimulationPoint.time first in
  let totalDistance :=
    SimulationPoint.distance last - SimulationPoint.distance first in
  let avgSpeed :=
    if Rgt_dec totalTime 0 then (totalDistance / totalTime) * 3.6 else 0 in
  totalPower <- powerLoop data (startIdx + 1) (endIdx - startIdx) 0 ;;
  let avgPower := if Rgt_dec totalTime 0 then totalPower / totalTime else 0 in
  Ok (mkSummary totalTime totalDistance avgSpeed avgPower).

(** ** Loops over the simulation data

    The [for] loops below the simulation run an index over an array and
    update a few local variables. *)

(** [for (let i = from; i < data.length; i++) body(i, data[i])], where
    [l] holds the elements from index [i] on and [st] the variables. *)
Fixpoint forIndexed {A V : Type} (body : nat -> A -> V -> V) (i : nat)
         (l : list A) (st : V) : V :=
  match l with
  | [] => st
  | x :: rest => forIndexed body (S i) rest (body i x st)
  end.

(** A number as a condition: [0] is falsy, a missing field too. *)
Definition truthy (x : option R) : bool :=
  match x with
  | Some v => if Req_dec_T v 0 then false else true
  | None => false
  end.

(** ** Selection on the map ([selectPointsInBounds])

    [bounds.contains] is Leaflet's; it is a parameter here. *)

(** [point.lat && point.lon] and [bounds.contains([point.lat, point.lon])]. *)
Definition inBounds (contains : R -> R -> bool) (point : SimulationPoint.t)
  : bool :=
  match SimulationPoint.lat point, SimulationPoint.lon point with
  | Some lat, Some lon =>
      truthy (Some lat) && truthy (Some lon) && contains lat lon
  | _, _ => false
  end.

(** The body of the loop: [startIdx] and [endIdx] are [None] for [null]. *)
Definition boundsBody (contains : R -> R -> bool) (i : nat)
           (point : SimulationPoint.t) (st : option nat * option nat)
  : option nat * option nat :=
  let '(startIdx, endIdx) := st in
  if inBounds contains point
  then ((match startIdx with None => Some i | Some _ => startIdx end), Some i)
  else (startIdx, endIdx).

(** The selected range and what [updateSummaryCards] makes of it; [None]
    when nothing is selected (the highlighting calls are left out). *)
Definition selectPointsInBounds
           (simulationDataGlobal : option (list SimulationPoint.t))
           (contains : R -> R -> bool)
  : option (nat * nat * result Summary) :=
  match simulationDataGlobal with
  | None => None
  | Some data =>
      match forIndexed (boundsBody contains) 1 (tl data) (None, None) with
      | (Some startIdx, Some endIdx) =>
          Some (startIdx, endIdx,
                updateSummaryCards data (Some startIdx) (Some endIdx))
      | _ => None
      end
  end.

(** ** Selection on a chart ([selectChartRange]) *)

Definition chartBody (startDistM endDistM : R) (i : nat)
           (point : SimulationPoint.t) (st : nat * nat) : nat * nat :=
  let '(startIdx, endIdx) := st in
  let startIdx' :=
    if (if Rge_dec (SimulationPoint.distance point) startDistM
        then true else false) && (startIdx =? 0)%nat
    then i else startIdx in
  let endIdx' :=
    if Rle_dec (SimulationPoint.distance point) endDistM then i else endIdx in
  (startIdx', endIdx').

(** On empty data the source starts [endIdx] at [-1], here at [0]: in
    both cases [startIdx < endIdx] fails and nothing is selected. *)
Definition selectChartRange
           (simulationDataGlobal : option (list SimulationPoint.t))
           (startDistKm endDistKm : R)
  : option (nat * nat * result Summary) :=
  match simulationDataGlobal with
  | None => None
  | Some data =>
      let startDistM := startDistKm * 1000 in
      let endDistM := endDistKm * 1000 in
      let '(startIdx, endIdx) :=
        forIndexed (chartBody startDistM endDistM) 0 data
                   (O, (length data - 1)%nat) in
      if (startIdx <? endIdx)%nat
      then Some (startIdx, endIdx,
                 updateSummaryCards data (Some startIdx) (Some endIdx))
      else None
  end.

(** ** The point closest to a position ([findClosestPoint]) *)

(** [minDist] is [None] for [Infinity], [closestIdx] is [None] for [-1]. *)
Definition closestBody (lat lng : R) (i : nat) (point : SimulationPoint.t)
           (st : option R * option nat) : option R * option nat :=
  let '(minDist, closestIdx) := st in
  match SimulationPoint.lat point, SimulationPoint.lon point with
  | Some plat, Some plon =>
      if truthy (Some plat) && truthy (Some plon)
      then
        let dist := sqrt ((plat - lat) ^ 2 + (plon - lng) ^ 2) in
        if (match minDist with
            | None => true
            | Some m => if Rlt_dec dist m then true else false
            end)
        then (Some dist, Some i)
        else (minDist, closestIdx)
      else (minDist, closestIdx)
  | _, _ => (minDist, closestIdx)
  end.

(** [{ index: closestIdx, data: data[closestIdx] }], or [None] for
    [null]. *)
Definition findClosestPoint (data : list SimulationPoint.t) (lat lng : R)
  : option (nat * option SimulationPoint.t) :=
  match snd (forIndexed (closestBody lat lng) 1 (tl data) (None, None)) with
  | Some closestIdx => Some (closestIdx, nth_error data closestIdx)
  | None => None
  end.

(** ** Fewer points for the charts ([downsampleData]) *)

(** [Math.ceil(a / b)] for a length [a] and a count [b >= 1]. *)
Definition ceilDiv (a b : nat) : nat := ((a + b - 1) / b)%nat.

(** [x || 0]: [0] is falsy. *)
Definition orZero (x : R) : R := if Req_dec_T x 0 then 0 else x.

(** [data.slice(from, to)] for [from <= to <= data.length]. *)
Definition slice {A : Type} (data : list A) (from to : nat) : list A :=
  firstn (to - from) (skipn from data).

(** [window.reduce((sum, p) => sum + f(p), 0) / window.length]. *)
Definition windowMean (f : SimulationPoint.t -> R)
           (window : list SimulationPoint.t) : R :=
  fold_left (fun sum p => sum + f p) window 0 / INR (length window).

(** The object [avg] of a window: the means of the seven fields; it has
    no [lat] and no [lon].  A window is never empty: it holds [data[i]]. *)
Definition windowAverage (window : list SimulationPoint.t) : SimulationPoint.t :=
  SimulationPoint.mk
    (windowMean SimulationPoint.distance window)
    (windowMean SimulationPoint.elevation window)
    (windowMean SimulationPoint.speed window)
    (windowMean SimulationPoint.power window)
    (windowMean (fun p => orZero (SimulationPoint.time p)) window)
    (windowMean (fun p => orZero (SimulationPoint.grade p)) window)
    None None
    (windowMean (fun p => orZero (SimulationPoint.elevationGain p)) window).

(** The loop [for (let i = 0; i < data.length; i += step)]; the averages
    are produced in the order they are pushed.  [fuel] bounds the number
    of windows the model can follow; [downsampleLoop_fuel] shows that
    [data.length] is enough for every [step >= 1]. *)
Fixpoint downsampleLoop (fuel : nat) (data : list SimulationPoint.t)
         (step i : nat) : list SimulationPoint.t :=
  match fuel with
  | O => []
  | S fuel' =>
      if (i <? length data)%nat
      then
        let windowEnd := Nat.min (i + step) (length data) in
        let window := slice data i windowEnd in
        windowAverage window :: downsampleLoop fuel' data step (i + step)
      else []
  end.

(** [maxPoints] is a count.  With [maxPoints = 0] the step of the source
    is [Infinity]: the loop takes all of a non-empty [data] as its one
    window. *)
Definition downsampleData (data : list SimulationPoint.t) (maxPoints : nat)
  : list SimulationPoint.t :=
  if (length data <=? maxPoints)%nat then data
  else
    match maxPoints with
    | O => [windowAverage (slice data 0 (length data))]
    | S _ =>
        let step := ceilDiv (length data) maxPoints in
        downsampleLoop (length data) data step 0
    end.

(** The default of [maxPoints]. *)
Definition defaultMaxPoints : nat := 150.

(** ** Hovering ([highlightChartPoint], [handleChartHover]) *)

(** The body of the loops that look for the point whose distance is
    nearest to [target]: [minDiff] is [None] for [Infinity]. *)
Definition nearestBody (target : R) (i : nat) (point : SimulationPoint.t)
           (st : option R * nat) : option R * nat :=
  let '(minDiff, idx) := st in
  let diff := Rabs (SimulationPoint.distance point - target) in
  if (match minDiff with
      | None => true
      | Some m => if Rlt_dec diff m then true else false
      end)
  then (Some diff, i)
  else (minDiff, idx).

Definition nearestIndex (data : list SimulationPoint.t) (target : R) : nat :=
  snd (forIndexed (nearestBody target) 0 data (None, O)).


(** The position [handleChartHover] moves the hover marker to, [None]
    when it leaves the marker where it is; [hoverMarker] tells whether
    the marker exists. *)
Definition handleChartHover
           (simulationDataGlobal : option (list SimulationPoint.t))
           (hoverMarker : bool) (downsampledIndex : nat) : option (R * R) :=
  match simulationDataGlobal with
  | None => None
  | Some data =>
      let downsampledData := downsampleData data defaultMaxPoints in
      if (length downsampledData <=? downsampledIndex)%nat then None
      else
        match nth_error downsampledData downsampledIndex with
        | None => None
        | Some hovered =>
            let hoveredDistance := SimulationPoint.distance hovered in
            let closestIdx := nearestIndex data hoveredDistance in
            match nth_error data closestIdx with
            | None => None
            | Some point =>
                match SimulationPoint.lat point, SimulationPoint.lon point with
                | Some lat, Some lon =>
                    if truthy (Some lat) && truthy (Some lon) && hoverMarker
                    then Some (lat, lon)
                    else None
                | _, _ => None
                end
            end
        end
  end.

(** ** Notions the properties are stated with *)

(** The force that does not depend on the speed: gravity and rolling
    resistance, with the sine and cosine of [atan grade] written out. *)
Definition slopeForce (grade mass : R) : R :=
  mass * g * (grade + Crr) / sqrt (1 + grade * grade).

(** The speed [runSimulation] solves for a segment. *)
Definition segmentSpeed (p : Parameters) (segment : Segment.t) : R :=
  calculateSpeed (Segment.grade segment) (mass p) (CdA p) (Pmax p) (Vmax_ms p).

(** Neighbours in a list are related by [Rel]. *)
Definition adjacent {A : Type} (Rel : A -> A -> Prop) (l : list A) : Prop :=
  forall i a b,
    nth_error l i = Some a -> nth_error l (S i) = Some b -> Rel a b.

(** No cumulative field of [b] is below that of [a]. *)
Definition notBefore (a b : SimulationPoint.t) : Prop :=
  SimulationPoint.distance a <= SimulationPoint.distance b /\
  SimulationPoint.time a <= SimulationPoint.time b /\
  SimulationPoint.elevationGain a <= SimulationPoint.elevationGain b.

(** The cumulative distances of the segments grow from [d] on. *)
Fixpoint growingFrom (d : R) (segments : list Segment.t) : Prop :=
  match segments with
  | [] => True
  | s :: rest =>
      d <= Segment.cumulativeDistance s /\
      growingFrom (Segment.cumulativeDistance s) rest
  end.

(** The last point of the data of [st] is at distance [d], and the running
    totals of [st] are the ones recorded in it. *)
Definition endsAt (d : R) (st : SimState) : Prop :=
  exists init lastPoint,
    simulationData st = init ++ [lastPoint] /\
    SimulationPoint.distance lastPoint = d /\
    SimulationPoint.time lastPoint = totalTime st /\
    SimulationPoint.elevationGain lastPoint = cumulativeElevationGain st.

(** The cumulative distance of the last segment, [d] without segments. *)
Definition lastCumulative (d : R) (segments : list Segment.t) : R :=
  fold_left (fun _ s => Segment.cumulativeDistance s) segments d.

(** ** The range totals as the specification words them

    [totalTime = data[end].time - data[start].time], the same for the
    distance; [avgSpeed = totalDistance / totalTime * 3.6], or 0 if
    [totalTime] is 0; [avgPower]: the sum of
    [power[i] * (time[i] - time[i-1])] over the indices of [(start, end]],
    divided by [totalTime], or 0 if [totalTime] is 0. *)

Definition fieldAt (f : SimulationPoint.t -> R) (data : list SimulationPoint.t)
           (i : nat) : R :=
  match nth_error data i with
  | Some x => f x
  | None => 0
  end.

Definition weightedPower_spec (data : list SimulationPoint.t)
           (startIdx endIdx : nat) : R :=
  fold_right Rplus 0
    (map (fun i =>
            fieldAt SimulationPoint.power data i *
            (fieldAt SimulationPoint.time data i -
             fieldAt SimulationPoint.time data (i - 1)))
         (seq (S startIdx) (endIdx - startIdx))).

Definition aggregate_spec (data : list SimulationPoint.t)
           (startIdx endIdx : nat) : Summary :=
  let totalTime :=
    fieldAt SimulationPoint.time data endIdx -
    fieldAt SimulationPoint.time data startIdx in
  let totalDistance :=
    fieldAt SimulationPoint.distance data endIdx -
    fieldAt SimulationPoint.distance data startIdx in
  let avgSpeed :=
    if Req_dec_T totalTime 0 then 0 else totalDistance / totalTime * 3.6 in
  let avgPower :=
    if Req_dec_T totalTime 0 then 0
    else weightedPower_spec data startIdx endIdx / totalTime in
  mkSummary totalTime totalDistance avgSpeed avgPower.

(** ** Inputs the properties are tried on *)

(** Two points on top of each other, 12 m apart in elevation. *)
Definition stackedRoute : list TrackPoint.t :=
  [TrackPoint.mk 45 6 1000; TrackPoint.mk 45 6 1012].

(** The same point twice. *)
Definition standingRoute : list TrackPoint.t :=
  [TrackPoint.mk 45 6 1000; TrackPoint.mk 45 6 1000].

(** 80 kg, 0.3 m2, 250 W, 40 km/h. *)
Definition rider : Parameters := mkParameters 80 0.3 250 40.

(** The starting point and one point after 100 m and 10 s at 200 W. *)
Definition shortData : list SimulationPoint.t :=
  [SimulationPoint.mk 0 1000 0 0 0 0 None None 0;
   SimulationPoint.mk 100 1000 36 200 10 0 (Some 45) (Some 6) 0].

(** ** Further notions *)

(** The [a] of [calculateDistance]: the haversine of the central angle. *)
Definition haversine (lat1 lon1 lat2 lon2 : R) : R :=
  sin ((lat2 - lat1) * PI / 180 / 2) * sin ((lat2 - lat1) * PI / 180 / 2) +
  cos (lat1 * PI / 180) * cos (lat2 * PI / 180) *
  sin ((lon2 - lon1) * PI / 180 / 2) * sin ((lon2 - lon1) * PI / 180 / 2).

(** Every cumulative distance is the one before plus the distance of the
    segment, from [d] on. *)
Fixpoint linkedFrom (d : R) (segments : list Segment.t) : Prop :=
  match segments with
  | [] => True
  | s :: rest =>
      Segment.cumulativeDistance s = d + Segment.distance s /\
      linkedFrom (Segment.cumulativeDistance s) rest
  end.

(** The last point of the data of [st] is at distance [d] and carries the
    running values of [st]. *)
Definition recordedAt (d : R) (st : SimState) : Prop :=
  exists init lastPoint,
    simulationData st = init ++ [lastPoint] /\
    SimulationPoint.distance lastPoint = d /\
    SimulationPoint.time lastPoint = totalTime st /\
    SimulationPoint.elevationGain lastPoint = cumulativeElevationGain st /\
    SimulationPoint.elevation lastPoint = previousElevation st.

(** The point [b] is the point of segment [s] ridden from the point [a]. *)
Definition follows (p : Parameters) (s : Segment.t) (a b : SimulationPoint.t)
  : Prop :=
  segmentSpeed p s <> 0 /\
  SimulationPoint.distance b = SimulationPoint.distance a + Segment.distance s /\
  SimulationPoint.time b =
    SimulationPoint.time a + Segment.distance s / segmentSpeed p s /\
  SimulationPoint.speed b = segmentSpeed p s * 3.6 /\
  SimulationPoint.power b = actualPower p s (segmentSpeed p s) /\
  SimulationPoint.elevation b = Segment.elevation s /\
  SimulationPoint.grade b = Segment.grade s * 100 /\
  SimulationPoint.lat b = Some (Segment.lat s) /\
  SimulationPoint.lon b = Some (Segment.lon s) /\
  SimulationPoint.elevationGain b =
    (if Rgt_dec (SimulationPoint.elevation b - SimulationPoint.elevation a) 0
     then SimulationPoint.elevationGain a +
          (SimulationPoint.elevation b - SimulationPoint.elevation a)
     else SimulationPoint.elevationGain a).

(** The time of [b] is not before the time of [a]. *)
Definition notEarlier (a b : SimulationPoint.t) : Prop :=
  SimulationPoint.time a <= SimulationPoint.time b.

(** What the loop of [selectPointsInBounds] has found in the elements
    [pre] it has visited, index 0 skipped: nothing, or the first and the
    last index of a point in the bounds. *)
Definition boundsFound (contains : R -> R -> bool)
           (pre : list SimulationPoint.t) (st : option nat * option nat)
  : Prop :=
  (1 <= length pre)%nat /\
  match st with
  | (None, None) =>
      forall k pt, (1 <= k)%nat -> nth_error pre k = Some pt ->
                   inBounds contains pt = false
  | (Some s, Some e) =>
      (1 <= s)%nat /\ (s <= e)%nat /\ (e < length pre)%nat /\
      (exists pt, nth_error pre s = Some pt /\ inBounds contains pt = true) /\
      (exists pt, nth_error pre e = Some pt /\ inBounds contains pt = true) /\
      (forall k pt, (1 <= k)%nat -> nth_error pre k = Some pt ->
                    inBounds contains pt = true -> (s <= k <= e)%nat)
  | _ => False
  end.

(** The starting point and one point on the equator. *)
Definition equatorData : list SimulationPoint.t :=
  [SimulationPoint.mk 0 10 0 0 0 0 None None 0;
   SimulationPoint.mk 100 10 36 200 10 0 (Some 0) (Some 6) 0].

(** Bounds that contain every position. *)
Definition everywhere (lat lon : R) : bool := true.

(** What the loop of [selectChartRange] has found in the elements [pre] it
    has visited: [startIdx] is 0 while no point after index 0 reaches
    [startDistM], and then the index of the first that does; [endIdx] is
    [e0] while every point is beyond [endDistM], and then the index of the
    last that is not. *)
Definition chartFound (startDistM endDistM : R) (e0 : nat)
           (pre : list SimulationPoint.t) (st : nat * nat) : Prop :=
  ((fst st = O /\
    forall k pt, (1 <= k)%nat -> nth_error pre k = Some pt ->
                 SimulationPoint.distance pt < startDistM) \/
   ((1 <= fst st)%nat /\ (fst st < length pre)%nat /\
    (exists pt, nth_error pre (fst st) = Some pt /\
                startDistM <= SimulationPoint.distance pt) /\
    forall k pt, (1 <= k)%nat -> (k < fst st)%nat ->
                 nth_error pre k = Some pt ->
                 SimulationPoint.distance pt < startDistM)) /\
  ((snd st = e0 /\
    forall k pt, nth_error pre k = Some pt ->
                 endDistM < SimulationPoint.distance pt) \/
   ((snd st < length pre)%nat /\
    (exists pt, nth_error pre (snd st) = Some pt /\
                SimulationPoint.distance pt <= endDistM) /\
    forall k pt, (snd st < k)%nat -> nth_error pre k = Some pt ->
                 endDistM < SimulationPoint.distance pt)).

(** The starting point and two points, after 100 m and 10 s at 200 W and
    after 250 m and 30 s at 150 W. *)
Definition longData : list SimulationPoint.t :=
  [SimulationPoint.mk 0 1000 0 0 0 0 None None 0;
   SimulationPoint.mk 100 1000 36 200 10 0 (Some 45) (Some 6) 0;
   SimulationPoint.mk 250 1000 27 150 30 0 (Some 45.001) (Some 6) 0].

(** [point.lat && point.lon]. *)
Definition hasPosition (point : SimulationPoint.t) : bool :=
  truthy (SimulationPoint.lat point) && truthy (SimulationPoint.lon point).

(** The distance [findClosestPoint] compares: the Euclidean distance in
    degrees between the position of [point] and [(lat, lng)]. *)
Definition degreesTo (lat lng : R) (point : SimulationPoint.t) : R :=
  match SimulationPoint.lat point, SimulationPoint.lon point with
  | Some plat, Some plon => sqrt ((plat - lat) ^ 2 + (plon - lng) ^ 2)
  | _, _ => 0
  end.

(** What the loop of [findClosestPoint] has found in the elements [pre] it
    has visited, index 0 skipped: nothing, or the first index of a point
    with a position at the least distance, and that distance. *)
Definition closestFound (lat lng : R) (pre : list SimulationPoint.t)
           (st : option R * option nat) : Prop :=
  (1 <= length pre)%nat /\
  match st with
  | (None, None) =>
      forall k pt, (1 <= k)%nat -> nth_error pre k = Some pt ->
                   hasPosition pt = false
  | (Some minDist, Some closestIdx) =>
      (1 <= closestIdx)%nat /\ (closestIdx < length pre)%nat /\
      exists closest,
        nth_error pre closestIdx = Some closest /\
        hasPosition closest = true /\
        minDist = degreesTo lat lng closest /\
        (forall k pt, (1 <= k)%nat -> nth_error pre k = Some pt ->
                      hasPosition pt = true ->
                      minDist <= degreesTo lat lng pt) /\
        (forall k pt, (1 <= k)%nat -> (k < closestIdx)%nat ->
                      nth_error pre k = Some pt ->
                      hasPosition pt = true ->
                      minDist < degreesTo lat lng pt)
  | _ => False
  end.

(** The seven fields of a point that the charts use. *)
Definition chartField (f : SimulationPoint.t -> R) : Prop :=
  f = SimulationPoint.distance \/ f = SimulationPoint.elevation \/
  f = SimulationPoint.speed \/ f = SimulationPoint.power \/
  f = SimulationPoint.time \/ f = SimulationPoint.grade \/
  f = SimulationPoint.elevationGain.

(** What a loop for the nearest distance has found in the elements [pre]
    it has visited: the first index at the least difference, and that
    difference. *)
Definition nearestFound (target : R) (pre : list SimulationPoint.t)
           (st : option R * nat) : Prop :=
  match fst st with
  | None => pre = [] /\ snd st = O
  | Some minDiff =>
      (snd st < length pre)%nat /\
      exists nearest,
        nth_error pre (snd st) = Some nearest /\
        minDiff = Rabs (SimulationPoint.distance nearest - target) /\
        (forall k pt, nth_error pre k = Some pt ->
                      minDiff <= Rabs (SimulationPoint.distance pt - target)) /\
        (forall k pt, (k < snd st)%nat -> nth_error pre k = Some pt ->
                      minDiff < Rabs (SimulationPoint.distance pt - target))
  end.

(** ** The core on binary64 numbers

    The definitions above compute with real numbers.  The module
    [Binary64] is the same code, [calculateDistance] to [runSimulation],
    on the numbers the source computes with: IEEE 754 binary64, with
    rounding to nearest, signed zeros, infinities and [NaN].  A comparison
    with [NaN] is false, as in JavaScript; a division by zero is an
    infinity or [NaN] and the code goes on.

    [Math.sqrt] is the correctly rounded square root.  [Math.sin],
    [Math.cos], [Math.atan] and [Math.atan2] are approximations that
    ECMAScript leaves to the runtime: they are the parameter
    [MathLibrary]. *)

Module Binary64.

Local Open Scope float_scope.

Record MathLibrary : Type := mkMathLibrary {
  Math_sin : float -> float;
  Math_cos : float -> float;
  Math_atan : float -> float;
  Math_atan2 : float -> float -> float
}.

Definition Math_PI : float := 3.141592653589793.

(** [Math.max(x, y)]: [NaN] if an argument is, and [+0] above [-0]. *)
Definition Math_max (x y : float) : float :=
  if is_nan x || is_nan y then nan
  else if x <? y then y
  else if y <? x then x
  else if get_sign x then y else x.

Definition g : float := 9.81.
Definition rho : float := 1.225.
Definition Crr : float := 0.004.

Module TrackPoint.
Record t : Type := mk { lat : float; lon : float; ele : float }.
End TrackPoint.

Module Segment.
Record t : Type := mk {
  distance : float;
  grade : float;
  elevation : float;
  cumulativeDistance : float;
  lat : float;
  lon : float
}.
End Segment.

Module SimulationPoint.
Record t : Type := mk {
  distance : float;
  elevation : float;
  speed : float;
  power : float;
  time : float;
  grade : float;
  lat : option float;
  lon : option float;
  elevationGain : float
}.
End SimulationPoint.

Record Parameters : Type := mkParameters {
  mass : float;
  CdA : float;
  Pmax : float;
  Vmax_kmh : float
}.

Record Bracket : Type := mkBracket {
  vMin : float;
  vMax : float;
  iterations : nat
}.

Record SimState : Type := mkSimState {
  totalTime : float;
  simulationData : list SimulationPoint.t;
  cumulativeElevationGain : float;
  previousElevation : float
}.

Record Simulation : Type := mkSimulation {
  sim_data : list SimulationPoint.t;
  sim_totalTime : float;
  sim_totalDistance : float;
  sim_avgSpeed : float;
  sim_avgPower : float
}.

Section Code.

Variable Math : MathLibrary.

(** The [a] of [calculateDistance] (lines 211-213). *)
Definition haversine (lat1 lon1 lat2 lon2 : float) : float :=
  let phi1 := lat1 * Math_PI / 180 in
  let phi2 := lat2 * Math_PI / 180 in
  let dphi := (lat2 - lat1) * Math_PI / 180 in
  let dlambda := (lon2 - lon1) * Math_PI / 180 in
  Math_sin Math (dphi / 2) * Math_sin Math (dphi / 2) +
  Math_cos Math phi1 * Math_cos Math phi2 *
  Math_sin Math (dlambda / 2) * Math_sin Math (dlambda / 2).

Definition calculateDistance (lat1 lon1 lat2 lon2 : float) : float :=
  let R_earth := 6371000 in
  let a := haversine lat1 lon1 lat2 lon2 in
  let c := 2 * Math_atan2 Math (PrimFloat.sqrt a) (PrimFloat.sqrt (1 - a)) in
  R_earth * c.

Definition segmentOf (totalDistance : float) (p1 p2 : TrackPoint.t)
  : Segment.t :=
  let horizontalDist :=
    calculateDistance (TrackPoint.lat p1) (TrackPoint.lon p1)
                      (TrackPoint.lat p2) (TrackPoint.lon p2) in
  let elevationChange := TrackPoint.ele p2 - TrackPoint.ele p1 in
  let distance :=
    PrimFloat.sqrt
      (horizontalDist * horizontalDist + elevationChange * elevationChange) in
  let grade :=
    if 0 <? horizontalDist then elevationChange / horizontalDist else 0 in
  Segment.mk distance grade (TrackPoint.ele p2) (totalDistance + distance)
             (TrackPoint.lat p2) (TrackPoint.lon p2).

Fixpoint segmentsFrom (totalDistance : float) (p1 : TrackPoint.t)
         (rest : list TrackPoint.t) : list Segment.t :=
  match rest with
  | [] => []
  | p2 :: rest' =>
      let s := segmentOf totalDistance p1 p2 in
      s :: segmentsFrom (Segment.cumulativeDistance s) p2 rest'
  end.

Definition calculateSegmentData (points : list TrackPoint.t) : list Segment.t :=
  match points with
  | [] => []
  | p :: rest => segmentsFrom 0 p rest
  end.

Definition calculatePowerNeeded (speed_ms grade mass CdA : float) : float :=
  let theta := Math_atan Math grade in
  let F_gravity := mass * g * Math_sin Math theta in
  let F_rolling := mass * g * Math_cos Math theta * Crr in
  let F_air := 0.5 * rho * CdA * speed_ms * speed_ms in
  let totalForce := F_gravity + F_rolling + F_air in
  let power := totalForce * speed_ms in
  power.

Definition tolerance : float := 0.001.
Definition maxIterations : nat := 100.

Definition searching (b : Bracket) : bool :=
  (tolerance <? vMax b - vMin b) && (iterations b <? maxIterations)%nat.

Definition bisect (grade mass CdA Pmax : float) (b : Bracket) : Bracket :=
  let vMid := (vMin b + vMax b) / 2 in
  let powerNeeded := calculatePowerNeeded vMid grade mass CdA in
  if powerNeeded <? Pmax
  then mkBracket vMid (vMax b) (S (iterations b))
  else mkBracket (vMin b) vMid (S (iterations b)).

(** The [while] loop; the counter stops it after [maxIterations] rounds,
    so [maxIterations] is fuel enough. *)
Fixpoint search_loop (fuel : nat) (grade mass CdA Pmax : float) (b : Bracket)
  : Bracket :=
  match fuel with
  | O => b
  | S fuel' =>
      if searching b
      then search_loop fuel' grade mass CdA Pmax (bisect grade mass CdA Pmax b)
      else b
  end.

Definition calculateSpeed (grade mass CdA Pmax Vmax_ms : float) : float :=
  let powerAtVmax := calculatePowerNeeded Vmax_ms grade mass CdA in
  if powerAtVmax <=? Pmax then Vmax_ms
  else
    let b := search_loop maxIterations grade mass CdA Pmax
               (mkBracket 0.1 Vmax_ms 0) in
    (vMin b + vMax b) / 2.

Definition Vmax_ms (p : Parameters) : float := Vmax_kmh p / 3.6.

Definition actualPower (p : Parameters) (segment : Segment.t)
           (speed_ms : float) : float :=
  if Vmax_ms p - 0.01 <=? speed_ms
  then
    let powerNeeded :=
      calculatePowerNeeded speed_ms (Segment.grade segment) (mass p) (CdA p) in
    Math_max 0 powerNeeded
  else Pmax p.

(** The body of the segment loop (lines 332-370). *)
Definition simulateSegment (p : Parameters) (st : SimState)
           (segment : Segment.t) : SimState :=
  let speed_ms :=
    calculateSpeed (Segment.grade segment) (mass p) (CdA p) (Pmax p)
                   (Vmax_ms p) in
  let speed_kmh := speed_ms * 3.6 in
  let time := Segment.distance segment / speed_ms in
  let totalTime' := totalTime st + time in
  let elevationChange := Segment.elevation segment - previousElevation st in
  let gain' :=
    if 0 <? elevationChange
    then cumulativeElevationGain st + elevationChange
    else cumulativeElevationGain st in
  let power := actualPower p segment speed_ms in
  mkSimState
    totalTime'
    (simulationData st ++
     [SimulationPoint.mk
        (Segment.cumulativeDistance segment)
        (Segment.elevation segment)
        speed_kmh
        power
        totalTime'
        (Segment.grade segment * 100)
        (Some (Segment.lat segment))
        (Some (Segment.lon segment))
        gain'])
    gain'
    (Segment.elevation segment).

Fixpoint simulateSegments (p : Parameters) (st : SimState)
         (segments : list Segment.t) : SimState :=
  match segments with
  | [] => st
  | segment :: rest => simulateSegments p (simulateSegment p st segment) rest
  end.

(** The loop that sums [power * timeDiff] (lines 379-382), run [count]
    times from index [i]. *)
Fixpoint powerLoop (data : list SimulationPoint.t) (i count : nat)
         (totalPower : float) : result float :=
  match count with
  | O => Ok totalPower
  | S count' =>
      cur <- lookup data i ;;
      prev <- lookup data (i - 1) ;;
      let timeDiff := SimulationPoint.time cur - SimulationPoint.time prev in
      powerLoop data (S i) count'
                (totalPower + SimulationPoint.power cur * timeDiff)
  end.

Definition startingPoint (first : TrackPoint.t) : SimulationPoint.t :=
  SimulationPoint.mk 0 (TrackPoint.ele first) 0 0 0 0 None None 0.

Definition initialState (first : TrackPoint.t) : SimState :=
  mkSimState 0 [startingPoint first] 0 (TrackPoint.ele first).

Definition runSimulation (gpxData : option (list TrackPoint.t))
           (p : Parameters) : result Simulation :=
  match gpxData with
  | None => Err NoGpxData
  | Some points =>
      let segments := calculateSegmentData points in
      if (length segments =? 0)%nat then Err NotEnoughData
      else
        first <- lookup points 0 ;;
        let st := simulateSegments p (initialState first) segments in
        lastSegment <- lookup segments (length segments - 1) ;;
        let totalDistance := Segment.cumulativeDistance lastSegment in
        let avgSpeed := totalDistance / totalTime st * 3.6 in
        totalPower <- powerLoop (simulationData st) 1
                        (length (simulationData st) - 1) 0 ;;
        let avgPower := totalPower / totalTime st in
        Ok (mkSimulation (simulationData st) (totalTime st) totalDistance
                         avgSpeed avgPower)
  end.

End Code.

(** The values of the four functions at the arguments that the route
    [antipodalRoute] below meets.  At [0] and at [NaN] they are the ones
    ECMAScript prescribes; at the angles of 58 and 90 degrees they are the
    ones of fdlibm, the library behind [Math.sin] and [Math.cos] in V8.
    At any other argument the value is [0] and is not the runtime's. *)
Definition fdlibmValues : MathLibrary :=
  mkMathLibrary
    (fun x =>
       if x =? 0 then x
       else if x =? -1.0122909661567112 then -0.8480480961564261
       else if x =? 1.5707963267948966 then 1
       else 0)
    (fun x =>
       if x =? 0 then 1
       else if x =? 1.0122909661567112 then 0.5299192642332049
       else if x =? -1.0122909661567112 then 0.5299192642332049
       else 0)
    (fun x => if x =? 0 then x else 0)
    (fun y x => if is_nan y || is_nan x then nan else 0).

(** Two points opposite each other on the globe, at sea level. *)
Definition antipodalRoute : list TrackPoint.t :=
  [TrackPoint.mk 58 0 0; TrackPoint.mk (-58) 180 0].

(** 80 kg, 0.3 m2, 250 W, 40 km/h. *)
Definition rider : Parameters := mkParameters 80 0.3 250 40.

End Binary64.

(** ** Distance alone *)

(** The distance of [b] is not below that of [a]. *)
Definition notNearer (a b : SimulationPoint.t) : Prop :=
  SimulationPoint.distance a <= SimulationPoint.distance b.

(** * Properties *)

(** ** The power curve *)

Lemma sqrt_slope_pos (grade : R) : 0 < sqrt (1 + grade * grade).
Proof. apply sqrt_lt_R0. nra. Qed.

Lemma calculatePowerNeeded_cubic (v grade mass CdA : R) :
  calculatePowerNeeded v grade mass CdA =
  (slopeForce grade mass + 0.5 * rho * CdA * v * v) * v.
Proof.
  unfold calculatePowerNeeded, slopeForce.
  rewrite sin_atan, cos_atan. unfold Rsqr.
  pose proof (sqrt_slope_pos grade) as Hs.
  field. lra.
Qed.

Lemma slopeForce_nonneg (grade mass : R) :
  - Crr <= grade -> 0 < mass -> 0 <= slopeForce grade mass.
Proof.
  intros Hg Hm. unfold slopeForce.
  pose proof (sqrt_slope_pos grade) as Hs.
  apply Rmult_le_pos.
  - unfold g in *. unfold Crr in *. nra.
  - left. now apply Rinv_0_lt_compat.
Qed.

Lemma calculatePowerNeeded_at_0 (grade mass CdA : R) :
  calculatePowerNeeded 0 grade mass CdA = 0.
Proof. unfold calculatePowerNeeded. ring. Qed.

(** On the flat the slope force is the rolling resistance. *)
Lemma calculatePowerNeeded_flat (v mass CdA : R) :
  calculatePowerNeeded v 0 mass CdA =
  (mass * g * Crr + 0.5 * rho * CdA * v * v) * v.
Proof.
  unfold calculatePowerNeeded. rewrite atan_0, sin_0, cos_0. ring.
Qed.

(** C1, as stated, fails on a descent: at grade -0.1 with 80 kg and
    0.3 m2 the power needed at 1 m/s is below the power needed at 0 m/s. *)
Lemma powerNeeded_not_increasing_downhill :
  0 <= 0 /\ 0 < 1 /\ 80 > 0 /\ 0.3 > 0 /\
  calculatePowerNeeded 1 (-0.1) 80 0.3 < calculatePowerNeeded 0 (-0.1) 80 0.3.
Proof.
  repeat split; try lra.
  rewrite calculatePowerNeeded_at_0, calculatePowerNeeded_cubic.
  unfold slopeForce, g, rho, Crr.
  pose proof (sqrt_slope_pos (-0.1)) as Hs.
  assert (Hle : sqrt (1 + -0.1 * -0.1) <= 2).
  { rewrite <- (sqrt_square 2) by lra. apply sqrt_le_1_alt. lra. }
  assert (Hinv : / 2 <= / sqrt (1 + -0.1 * -0.1)).
  { apply Rinv_le_contravar; assumption. }
  unfold Rdiv. set (t := / sqrt (1 + -0.1 * -0.1)) in *.
  nra.
Qed.

(** C1 (amended): for every grade not below [-Crr] = -0.004, every mass > 0
    and dragArea > 0, [calculatePowerNeeded] is strictly increasing in the
    speed over the speeds >= 0. *)
Theorem powerNeeded_strictly_increasing (grade mass CdA v1 v2 : R) :
  - Crr <= grade -> 0 < mass -> 0 < CdA ->
  0 <= v1 -> v1 < v2 ->
  calculatePowerNeeded v1 grade mass CdA < calculatePowerNeeded v2 grade mass CdA.
Proof.
  intros Hg Hm Hc Hv1 Hlt.
  rewrite !calculatePowerNeeded_cubic.
  pose proof (slopeForce_nonneg grade mass Hg Hm) as Hf.
  set (f := slopeForce grade mass) in *.
  assert (Hk : 0 < 0.5 * rho * CdA) by (unfold rho; nra).
  set (k := 0.5 * rho * CdA) in *.
  replace ((f + k * v1 * v1) * v1) with (f * v1 + k * (v1 * v1 * v1)) by ring.
  replace ((f + k * v2 * v2) * v2) with (f * v2 + k * (v2 * v2 * v2)) by ring.
  assert (Hcube : v1 * v1 * v1 < v2 * v2 * v2).
  { assert (Hq : 0 < v2 * v2 + v1 * v2 + v1 * v1) by nra.
    assert (Hp : 0 < (v2 - v1) * (v2 * v2 + v1 * v2 + v1 * v1))
      by (apply Rmult_lt_0_compat; lra).
    lra. }
  assert (Hlin : f * v1 <= f * v2) by (apply Rmult_le_compat_l; lra).
  assert (Hcub : k * (v1 * v1 * v1) < k * (v2 * v2 * v2))
    by (apply Rmult_lt_compat_l; assumption).
  lra.
Qed.

Lemma powerNeeded_strictly_increasing_witness :
  - Crr <= 0 /\ 0 < 80 /\ 0 < 0.3 /\ 0 <= 1 /\ 1 < 2 /\
  calculatePowerNeeded 1 0 80 0.3 < calculatePowerNeeded 2 0 80 0.3.
Proof.
  assert (H1 : - Crr <= 0) by (unfold Crr; lra).
  assert (H2 : 0 < 80) by lra.
  assert (H3 : 0 < 0.3) by lra.
  assert (H4 : 0 <= 1) by lra.
  assert (H5 : 1 < 2) by lra.
  repeat split; try assumption.
  exact (powerNeeded_strictly_increasing 0 80 0.3 1 2 H1 H2 H3 H4 H5).
Defined.

(** Below [-Crr] the restriction cannot be dropped: on every steeper
    descent some positive speed needs less power than speed 0. *)
Lemma powerNeeded_dips_on_descent (grade mass CdA : R) :
  grade < - Crr -> 0 < mass -> 0 < CdA ->
  exists v,
    0 < v /\
    calculatePowerNeeded v grade mass CdA < calculatePowerNeeded 0 grade mass CdA.
Proof.
  intros Hg Hm Hc.
  assert (Hf : slopeForce grade mass < 0).
  { unfold slopeForce, Rdiv.
    pose proof (Rinv_0_lt_compat _ (sqrt_slope_pos grade)) as Hi.
    set (t := / sqrt (1 + grade * grade)) in *.
    assert (Hn : mass * g * (grade + Crr) < 0) by (unfold g, Crr in *; nra).
    nra. }
  set (f := slopeForce grade mass) in *.
  assert (Hk : 0 < 0.5 * rho * CdA) by (unfold rho; nra).
  set (k := 0.5 * rho * CdA) in *.
  assert (Hq : 0 < - f / (2 * k)).
  { apply Rmult_lt_0_compat; [lra |]. apply Rinv_0_lt_compat. lra. }
  exists (sqrt (- f / (2 * k))).
  pose proof (sqrt_lt_R0 _ Hq) as Hv.
  split; [exact Hv |].
  rewrite calculatePowerNeeded_at_0, calculatePowerNeeded_cubic.
  fold f. fold k.
  replace (k * sqrt (- f / (2 * k)) * sqrt (- f / (2 * k)))
    with (k * (sqrt (- f / (2 * k)) * sqrt (- f / (2 * k)))) by ring.
  rewrite sqrt_sqrt by lra.
  replace (f + k * (- f / (2 * k))) with (f / 2) by (field; lra).
  set (v := sqrt (- f / (2 * k))) in *. nra.
Qed.

(** ** The binary search *)

Section Search.

Variables grade mass CdA Pmax : R.

Lemma bisect_iterations (b : Bracket) :
  iterations (bisect grade mass CdA Pmax b) = S (iterations b).
Proof.
  unfold bisect. destruct (Rlt_dec _ _); reflexivity.
Qed.

Lemma searching_count (b : Bracket) :
  searching b = true -> (iterations b < maxIterations)%nat.
Proof.
  unfold searching. intros H. apply andb_prop in H as [_ H].
  now apply Nat.ltb_lt.
Qed.

Lemma searching_false (b : Bracket) :
  searching b = false ->
  vMax b - vMin b <= tolerance \/ (maxIterations <= iterations b)%nat.
Proof.
  unfold searching. destruct (Rgt_dec _ _) as [Hw | Hw]; simpl.
  - intros H. right. now apply Nat.ltb_ge.
  - intros _. left. lra.
Qed.

(** A property that the body keeps while the loop runs holds when the
    loop stops. *)
Lemma search_loop_invariant (Inv : Bracket -> Prop) :
  (forall b, Inv b -> searching b = true ->
             Inv (bisect grade mass CdA Pmax b)) ->
  forall fuel b, Inv b -> Inv (search_loop fuel grade mass CdA Pmax b).
Proof.
  intros Hstep fuel. induction fuel as [| fuel IH]; intros b Hb; simpl.
  - exact Hb.
  - destruct (searching b) eqn:Hs.
    + apply IH. now apply Hstep.
    + exact Hb.
Qed.

Lemma search_loop_iterations (fuel : nat) (b : Bracket) :
  (iterations b <= maxIterations)%nat ->
  (iterations (search_loop fuel grade mass CdA Pmax b) <= maxIterations)%nat.
Proof.
  apply (search_loop_invariant
           (fun b => (iterations b <= maxIterations)%nat)).
  intros b' _ Hs. rewrite bisect_iterations.
  now apply searching_count.
Qed.

(** With the fuel that is left up to the cap, the loop stops by its own
    condition. *)
Lemma search_loop_exit (fuel : nat) :
  forall b, (maxIterations - iterations b <= fuel)%nat ->
            searching (search_loop fuel grade mass CdA Pmax b) = false.
Proof.
  induction fuel as [| fuel IH]; intros b Hf; simpl.
  - unfold searching. replace (iterations b <? maxIterations)%nat with false.
    + apply andb_false_r.
    + symmetry. apply Nat.ltb_ge. lia.
  - destruct (searching b) eqn:Hs; [| exact Hs].
    apply IH. rewrite bisect_iterations. lia.
Qed.

(** Fuel beyond the point where the loop stops is not used. *)
Lemma search_loop_more_fuel (fuel : nat) :
  forall b extra,
    searching (search_loop fuel grade mass CdA Pmax b) = false ->
    search_loop (fuel + extra) grade mass CdA Pmax b =
    search_loop fuel grade mass CdA Pmax b.
Proof.
  induction fuel as [| fuel IH]; intros b extra Hstop; simpl in *.
  - destruct extra as [| extra]; simpl; [reflexivity |].
    now rewrite Hstop.
  - destruct (searching b) eqn:Hs; [| reflexivity].
    now apply IH.
Qed.

Lemma search_loop_fuel (extra : nat) (b : Bracket) :
  iterations b = O ->
  search_loop (maxIterations + extra) grade mass CdA Pmax b =
  search_loop maxIterations grade mass CdA Pmax b.
Proof.
  intros H0. apply search_loop_more_fuel, search_loop_exit. lia.
Qed.

(** The bracket stays inside the interval it starts from. *)
Lemma search_loop_bracket (lo hi : R) (fuel : nat) (b : Bracket) :
  lo <= vMin b -> vMin b <= vMax b -> vMax b <= hi ->
  let final := search_loop fuel grade mass CdA Pmax b in
  lo <= vMin final /\ vMin final <= vMax final /\ vMax final <= hi.
Proof.
  intros H1 H2 H3.
  apply (search_loop_invariant
           (fun b => lo <= vMin b /\ vMin b <= vMax b /\ vMax b <= hi));
    [| tauto].
  intros b' (L1 & L2 & L3) _. unfold bisect.
  destruct (Rlt_dec _ _); simpl; lra.
Qed.

(** Both ends of the bracket stay positive. *)
Lemma search_loop_positive (fuel : nat) (b : Bracket) :
  0 < vMin b -> 0 < vMax b ->
  let final := search_loop fuel grade mass CdA Pmax b in
  0 < vMin final /\ 0 < vMax final.
Proof.
  intros H1 H2.
  apply (search_loop_invariant (fun b => 0 < vMin b /\ 0 < vMax b));
    [| tauto].
  intros b' (L1 & L2) _. unfold bisect.
  destruct (Rlt_dec _ _); simpl; lra.
Qed.

End Search.

Lemma calculateSpeed_gt_0 (grade mass CdA Pmax Vmax_ms : R) :
  0 < Vmax_ms -> 0 < calculateSpeed grade mass CdA Pmax Vmax_ms.
Proof.
  intros HV. unfold calculateSpeed.
  destruct (Rle_dec _ _); [exact HV |].
  destruct (search_loop_positive grade mass CdA Pmax maxIterations
              (mkBracket 0.1 Vmax_ms 0)) as [L1 L2];
    cbn [vMin vMax] in *; lra.
Qed.

(** The flat, 80 kg, 0.3 m2, 250 W: 5 m/s needs less than 39 W. *)
Lemma powerNeeded_flat_5 : calculatePowerNeeded 5 0 80 0.3 <= 250.
Proof. rewrite calculatePowerNeeded_flat. unfold g, rho, Crr. lra. Qed.

(** C2, as stated, fails below the floor of the search: with a maximal
    speed of 0.05 m/s on the flat that speed is returned, under 0.1. *)
Lemma calculateSpeed_below_floor :
  80 > 0 /\ 0.3 > 0 /\ 250 > 0 /\ 0.05 > 0 /\
  calculateSpeed 0 80 0.3 250 0.05 = 0.05 /\
  ~ (0.1 <= calculateSpeed 0 80 0.3 250 0.05 <= 0.05).
Proof.
  assert (E : calculateSpeed 0 80 0.3 250 0.05 = 0.05).
  { unfold calculateSpeed. destruct (Rle_dec _ _) as [_ | Hn]; [reflexivity |].
    exfalso. apply Hn. rewrite calculatePowerNeeded_flat.
    unfold g, rho, Crr. lra. }
  rewrite E. repeat split; lra.
Qed.

(** C2 (amended): for every grade, mass, dragArea and maxPower (positive
    or not) and every maxSpeedMs >= 0.1, the value [calculateSpeed] returns
    lies in the closed interval [0.1, maxSpeedMs]. *)
Theorem calculateSpeed_in_range (grade mass CdA Pmax Vmax_ms : R) :
  0.1 <= Vmax_ms ->
  0.1 <= calculateSpeed grade mass CdA Pmax Vmax_ms <= Vmax_ms.
Proof.
  intros HV. unfold calculateSpeed.
  destruct (Rle_dec _ _); [lra |].
  destruct (search_loop_bracket grade mass CdA Pmax 0.1 Vmax_ms maxIterations
              (mkBracket 0.1 Vmax_ms 0)) as (L1 & L2 & L3);
    cbn [vMin vMax] in *; lra.
Qed.

Lemma calculateSpeed_in_range_witness :
  0.1 <= 5 /\ 0.1 <= calculateSpeed 0 80 0.3 250 5 <= 5.
Proof.
  assert (H : 0.1 <= 5) by lra.
  split; [exact H | exact (calculateSpeed_in_range 0 80 0.3 250 5 H)].
Defined.

(** Below the floor the restriction cannot be dropped: a maximal speed
    under 0.1 m/s always gives a speed under 0.1 m/s. *)
Lemma calculateSpeed_under_floor (grade mass CdA Pmax Vmax_ms : R) :
  Vmax_ms < 0.1 -> calculateSpeed grade mass CdA Pmax Vmax_ms < 0.1.
Proof.
  intros HV. unfold calculateSpeed.
  destruct (Rle_dec _ _); [exact HV |].
  assert (Hstop : searching (mkBracket 0.1 Vmax_ms 0) = false).
  { unfold searching. cbn [vMin vMax].
    destruct (Rgt_dec (Vmax_ms - 0.1) tolerance) as [H | _];
      [unfold tolerance in H; lra | reflexivity]. }
  pose proof (search_loop_more_fuel grade mass CdA Pmax 0 _ maxIterations Hstop)
    as Hloop.
  change (0 + maxIterations)%nat with maxIterations in Hloop.
  rewrite Hloop. cbn [search_loop vMin vMax]. lra.
Qed.

(** C3: when the power needed at maxSpeedMs is at most maxPower,
    [calculateSpeed] returns exactly maxSpeedMs. *)
Theorem calculateSpeed_speed_limited (grade mass CdA Pmax Vmax_ms : R) :
  calculatePowerNeeded Vmax_ms grade mass CdA <= Pmax ->
  calculateSpeed grade mass CdA Pmax Vmax_ms = Vmax_ms.
Proof.
  intros H. unfold calculateSpeed.
  destruct (Rle_dec _ _) as [_ | Hn]; [reflexivity | contradiction].
Qed.

Lemma calculateSpeed_speed_limited_witness :
  calculatePowerNeeded 5 0 80 0.3 <= 250 /\
  calculateSpeed 0 80 0.3 250 5 = 5.
Proof.
  split; [exact powerNeeded_flat_5 |].
  exact (calculateSpeed_speed_limited 0 80 0.3 250 5 powerNeeded_flat_5).
Defined.

(** C9: the search loop runs its body at most 100 times and stops by its
    own condition (bracket no wider than the tolerance, or 100 iterations
    done), whatever the inputs: fuel beyond 100 changes nothing.  When the
    loop is reached, [calculateSpeed] returns the midpoint of the bracket
    the loop stops at. *)
Theorem calculateSpeed_bounded_search (grade mass CdA Pmax Vmax_ms : R) :
  let final := search_loop maxIterations grade mass CdA Pmax
                 (mkBracket 0.1 Vmax_ms 0) in
  (forall extra : nat,
      search_loop (maxIterations + extra) grade mass CdA Pmax
        (mkBracket 0.1 Vmax_ms 0) = final) /\
  (iterations final <= 100)%nat /\
  (vMax final - vMin final <= tolerance \/ iterations final = 100%nat) /\
  calculateSpeed grade mass CdA Pmax Vmax_ms =
    if Rle_dec (calculatePowerNeeded Vmax_ms grade mass CdA) Pmax
    then Vmax_ms
    else (vMin final + vMax final) / 2.
Proof.
  intros final.
  assert (Hle : (iterations final <= maxIterations)%nat).
  { apply search_loop_iterations. cbn [iterations]. lia. }
  assert (Hstop : searching final = false).
  { apply search_loop_exit. cbn [iterations]. lia. }
  split; [| split; [| split]].
  - intros extra. now apply search_loop_fuel.
  - exact Hle.
  - destruct (searching_false _ Hstop) as [Hw | Hc]; [now left | right].
    unfold maxIterations in *. lia.
  - reflexivity.
Qed.

(** C10: for every maxSpeedMs > 0, whatever the other arguments,
    [calculateSpeed] returns a strictly positive speed, so the division
    [segment.distance / speed_ms] of the segment loop is never a division
    by zero. *)
Theorem calculateSpeed_positive (grade mass CdA Pmax Vmax_ms : R) :
  0 < Vmax_ms ->
  0 < calculateSpeed grade mass CdA Pmax Vmax_ms /\
  forall distance : R,
    js_div distance (calculateSpeed grade mass CdA Pmax Vmax_ms) =
    Some (distance / calculateSpeed grade mass CdA Pmax Vmax_ms).
Proof.
  intros HV. pose proof (calculateSpeed_gt_0 grade mass CdA Pmax _ HV) as Hp.
  split; [exact Hp |].
  intros distance. unfold js_div.
  destruct (Req_dec_T _ _) as [E | _]; [lra | reflexivity].
Qed.

Lemma calculateSpeed_positive_witness :
  0 < 5 /\
  0 < calculateSpeed 0 80 0.3 250 5 /\
  forall distance : R,
    js_div distance (calculateSpeed 0 80 0.3 250 5) =
    Some (distance / calculateSpeed 0 80 0.3 250 5).
Proof.
  assert (H : 0 < 5) by lra.
  split; [exact H | exact (calculateSpeed_positive 0 80 0.3 250 5 H)].
Defined.

(** ** Segments *)

Lemma atan2_0_1 : atan2 0 1 = 0.
Proof.
  unfold atan2. destruct (Rlt_dec 0 1) as [_ | H]; [| lra].
  replace (0 / 1) with 0 by field. apply atan_0.
Qed.

(** Two points with the same latitude and longitude are at distance 0. *)
Lemma calculateDistance_same (lat lon : R) :
  calculateDistance lat lon lat lon = 0.
Proof.
  unfold calculateDistance.
  replace ((lat - lat) * PI / 180 / 2) with 0 by (unfold Rdiv; ring).
  replace ((lon - lon) * PI / 180 / 2) with 0 by (unfold Rdiv; ring).
  rewrite sin_0.
  replace (0 * 0 + cos (lat * PI / 180) * cos (lat * PI / 180) * 0 * 0)
    with 0 by ring.
  replace (1 - 0) with 1 by ring.
  rewrite sqrt_0, sqrt_1, atan2_0_1. ring.
Qed.

Lemma segmentOf_distance_nonneg (total : R) (p1 p2 : TrackPoint.t) :
  0 <= Segment.distance (segmentOf total p1 p2).
Proof. unfold segmentOf; simpl. apply sqrt_pos. Qed.

Lemma segmentOf_cumulative (total : R) (p1 p2 : TrackPoint.t) :
  Segment.cumulativeDistance (segmentOf total p1 p2) =
  total + Segment.distance (segmentOf total p1 p2).
Proof. reflexivity. Qed.

Lemma segmentsFrom_length (rest : list TrackPoint.t) :
  forall total p1, length (segmentsFrom total p1 rest) = length rest.
Proof.
  induction rest as [| p2 rest IH]; intros total p1; simpl;
    [reflexivity | now rewrite IH].
Qed.

Lemma calculateSegmentData_length (points : list TrackPoint.t) :
  length (calculateSegmentData points) = (length points - 1)%nat.
Proof.
  destruct points as [| p rest]; simpl; [reflexivity |].
  rewrite segmentsFrom_length. lia.
Qed.

(** Segment [i] is the segment of the points [i] and [i + 1]. *)
Lemma segmentsFrom_nth (rest : list TrackPoint.t) :
  forall total p i p1 p2,
    nth_error (p :: rest) i = Some p1 ->
    nth_error (p :: rest) (S i) = Some p2 ->
    exists t, nth_error (segmentsFrom total p rest) i = Some (segmentOf t p1 p2).
Proof.
  induction rest as [| q rest IH]; intros total p i p1 p2 H1 H2.
  - destruct i; simpl in H2; discriminate.
  - destruct i as [| i].
    + simpl in H1, H2. injection H1 as <-. injection H2 as <-.
      exists total. reflexivity.
    + simpl in H1. simpl segmentsFrom. simpl nth_error at 1.
      apply IH; assumption.
Qed.

(** A segment between two points with the same latitude and longitude. *)
Lemma segmentOf_stacked (total : R) (p1 p2 : TrackPoint.t) :
  TrackPoint.lat p1 = TrackPoint.lat p2 ->
  TrackPoint.lon p1 = TrackPoint.lon p2 ->
  Segment.grade (segmentOf total p1 p2) = 0 /\
  Segment.distance (segmentOf total p1 p2) =
    Rabs (TrackPoint.ele p2 - TrackPoint.ele p1).
Proof.
  intros Hlat Hlon. unfold segmentOf; simpl.
  rewrite Hlat, Hlon, calculateDistance_same.
  split.
  - destruct (Rgt_dec 0 0) as [H | _]; [lra | reflexivity].
  - replace (0 * 0 + (TrackPoint.ele p2 - TrackPoint.ele p1) *
                     (TrackPoint.ele p2 - TrackPoint.ele p1))
      with (Rsqr (TrackPoint.ele p2 - TrackPoint.ele p1))
      by (unfold Rsqr; ring).
    apply sqrt_Rsqr_abs.
Qed.

(** C8: a pair of consecutive track points with the same latitude and
    longitude and the elevations e1, e2 gives a segment of grade 0 and of
    distance |e2 - e1|. *)
Theorem stacked_points_segment (points : list TrackPoint.t) (i : nat)
        (p1 p2 : TrackPoint.t) :
  nth_error points i = Some p1 ->
  nth_error points (S i) = Some p2 ->
  TrackPoint.lat p1 = TrackPoint.lat p2 ->
  TrackPoint.lon p1 = TrackPoint.lon p2 ->
  exists segment,
    nth_error (calculateSegmentData points) i = Some segment /\
    Segment.grade segment = 0 /\
    Segment.distance segment = Rabs (TrackPoint.ele p2 - TrackPoint.ele p1).
Proof.
  intros H1 H2 Hlat Hlon.
  destruct points as [| p rest]; [destruct i; discriminate |].
  destruct (segmentsFrom_nth rest 0 p i p1 p2 H1 H2) as [t Ht].
  exists (segmentOf t p1 p2). split; [exact Ht |].
  now apply segmentOf_stacked.
Qed.

Lemma stacked_points_segment_witness :
  exists segment,
    nth_error (calculateSegmentData stackedRoute) 0 = Some segment /\
    Segment.grade segment = 0 /\
    Segment.distance segment = Rabs (1012 - 1000).
Proof.
  exact (stacked_points_segment stackedRoute 0
           (TrackPoint.mk 45 6 1000) (TrackPoint.mk 45 6 1012)
           eq_refl eq_refl eq_refl eq_refl).
Defined.

(** ** The segment loop *)

Lemma js_div_nonzero (x y : R) : y <> 0 -> js_div x y = Some (x / y).
Proof.
  intros H. unfold js_div. destruct (Req_dec_T y 0); [contradiction | reflexivity].
Qed.

Lemma js_div_some (x y q : R) : js_div x y = Some q -> y <> 0 /\ q = x / y.
Proof.
  unfold js_div. destruct (Req_dec_T y 0) as [E | N]; [discriminate |].
  intros H. injection H as <-. split; [exact N | reflexivity].
Qed.

Lemma lookup_ok {A : Type} (l : list A) (i : nat) (x : A) :
  lookup l i = Ok x <-> nth_error l i = Some x.
Proof.
  unfold lookup. destruct (nth_error l i); split; intros H;
    try discriminate; injection H as ->; reflexivity.
Qed.

(** What one run of the loop body leaves behind. *)
Lemma simulateSegment_inv (p : Parameters) (st st' : SimState)
      (segment : Segment.t) :
  simulateSegment p st segment = Ok st' ->
  exists pt,
    segmentSpeed p segment <> 0 /\
    simulationData st' = simulationData st ++ [pt] /\
    totalTime st' =
      totalTime st + Segment.distance segment / segmentSpeed p segment /\
    cumulativeElevationGain st <= cumulativeElevationGain st' /\
    SimulationPoint.time pt = totalTime st' /\
    SimulationPoint.elevationGain pt = cumulativeElevationGain st' /\
    SimulationPoint.distance pt = Segment.cumulativeDistance segment /\
    SimulationPoint.power pt = actualPower p segment (segmentSpeed p segment).
Proof.
  unfold simulateSegment. fold (segmentSpeed p segment).
  destruct (js_div _ _) as [time |] eqn:Hd; simpl; [| discriminate].
  apply js_div_some in Hd as [Hn ->].
  intros H. injection H as <-. simpl.
  eexists. split; [exact Hn |]. split; [reflexivity |]. simpl.
  repeat split.
  destruct (Rgt_dec _ _); lra.
Qed.

(** With a positive maximal speed the loop body does not fail. *)
Lemma simulateSegment_ok (p : Parameters) (st : SimState) (segment : Segment.t) :
  0 < Vmax_kmh p -> exists st', simulateSegment p st segment = Ok st'.
Proof.
  intros HV. unfold simulateSegment. fold (segmentSpeed p segment).
  assert (Hs : 0 < segmentSpeed p segment).
  { apply calculateSpeed_gt_0. unfold Vmax_ms. lra. }
  rewrite js_div_nonzero by lra. simpl. eexists. reflexivity.
Qed.

(** The loop appends one point per segment. *)
Lemma simulateSegments_data (p : Parameters) (segments : list Segment.t) :
  forall st st',
    simulateSegments p st segments = Ok st' ->
    exists pts, simulationData st' = simulationData st ++ pts /\
                length pts = length segments.
Proof.
  induction segments as [| segment rest IH]; intros st st' H; simpl in H.
  - injection H as <-. exists []. now rewrite app_nil_r.
  - destruct (simulateSegment p st segment) as [st1 | e] eqn:H1;
      simpl in H; [| discriminate].
    apply simulateSegment_inv in H1 as (pt & _ & Hdata & _).
    apply IH in H as (pts & Hpts & Hlen).
    exists (pt :: pts). rewrite Hpts, Hdata, <- app_assoc. simpl.
    split; [reflexivity | now rewrite Hlen].
Qed.

(** The point appended for segment [i] records the power of that segment. *)
Lemma simulateSegments_power (p : Parameters) (segments : list Segment.t) :
  forall st st' i segment,
    simulateSegments p st segments = Ok st' ->
    nth_error segments i = Some segment ->
    exists pt,
      nth_error (simulationData st') (length (simulationData st) + i) = Some pt /\
      SimulationPoint.power pt = actualPower p segment (segmentSpeed p segment).
Proof.
  induction segments as [| s rest IH]; intros st st' i segment H Hi.
  - destruct i; discriminate.
  - simpl in H.
    destruct (simulateSegment p st s) as [st1 | e] eqn:H1;
      simpl in H; [| discriminate].
    apply simulateSegment_inv in H1
      as (pt & _ & Hdata & _ & _ & _ & _ & _ & Hpower).
    destruct i as [| i]; simpl in Hi.
    + injection Hi as <-.
      apply simulateSegments_data in H as (pts & Hpts & _).
      exists pt. split; [| exact Hpower].
      rewrite Hpts, Hdata, <- app_assoc, Nat.add_0_r.
      rewrite nth_error_app2 by lia. now rewrite Nat.sub_diag.
    + destruct (IH st1 st' i segment H Hi) as (pt' & Hnth & Hp').
      exists pt'. split; [| exact Hp'].
      rewrite Hdata, length_app in Hnth. simpl in Hnth.
      now replace (length (simulationData st) + S i)%nat
        with (length (simulationData st) + 1 + i)%nat by lia.
Qed.

(** What a successful run of [runSimulation] went through. *)
Lemma runSimulation_inv (points : list TrackPoint.t) (p : Parameters)
      (sim : Simulation) :
  runSimulation (Some points) p = Ok sim ->
  exists first st lastSegment totalPower,
    nth_error points 0 = Some first /\
    simulateSegments p (initialState first) (calculateSegmentData points)
      = Ok st /\
    nth_error (calculateSegmentData points)
              (length (calculateSegmentData points) - 1) = Some lastSegment /\
    powerLoop (simulationData st) 1 (length (simulationData st) - 1) 0
      = Ok totalPower /\
    sim = mkSimulation
            (simulationData st) (totalTime st)
            (Segment.cumulativeDistance lastSegment)
            (option_map (fun q => q * 3.6)
               (js_div (Segment.cumulativeDistance lastSegment) (totalTime st)))
            (js_div totalPower (totalTime st)).
Proof.
  unfold runSimulation.
  destruct (length (calculateSegmentData points) =? 0)%nat; [discriminate |].
  destruct (lookup points 0) as [first | e] eqn:Hf; simpl; [| discriminate].
  destruct (simulateSegments _ _ _) as [st | e] eqn:Hst; simpl; [| discriminate].
  destruct (lookup (calculateSegmentData points) _) as [lastSegment | e] eqn:Hl;
    simpl; [| discriminate].
  destruct (powerLoop _ _ _ _) as [totalPower | e] eqn:Hp; simpl;
    [| discriminate].
  intros H. injection H as <-.
  exists first, st, lastSegment, totalPower.
  apply lookup_ok in Hf. apply lookup_ok in Hl.
  repeat split; assumption.
Qed.

(** C4: for every segment of the route, the power recorded in the
    simulation point of the segment is max(0, power needed at the solved
    speed) when the solved speed is at least maxSpeedMs - 0.01, and
    maxPower otherwise. *)
Theorem recorded_power (points : list TrackPoint.t) (p : Parameters)
        (sim : Simulation) (i : nat) (segment : Segment.t) :
  runSimulation (Some points) p = Ok sim ->
  nth_error (calculateSegmentData points) i = Some segment ->
  exists pt,
    nth_error (sim_data sim) (S i) = Some pt /\
    let speedMs :=
      calculateSpeed (Segment.grade segment) (mass p) (CdA p) (Pmax p)
                     (Vmax_ms p) in
    SimulationPoint.power pt =
      if Rge_dec speedMs (Vmax_ms p - 0.01)
      then Rmax 0 (calculatePowerNeeded speedMs (Segment.grade segment)
                     (mass p) (CdA p))
      else Pmax p.
Proof.
  intros Hrun Hseg.
  apply runSimulation_inv in Hrun
    as (first & st & lastSegment & totalPower & _ & Hst & _ & _ & ->).
  destruct (simulateSegments_power p _ _ _ i segment Hst Hseg)
    as (pt & Hnth & Hpower).
  exists pt. split; [exact Hnth |]. exact Hpower.
Qed.

(** ** Order of the simulation points *)

Lemma notBefore_refl (a : SimulationPoint.t) : notBefore a a.
Proof. unfold notBefore. lra. Qed.

Lemma notBefore_trans (a b c : SimulationPoint.t) :
  notBefore a b -> notBefore b c -> notBefore a c.
Proof. unfold notBefore. intros (? & ? & ?) (? & ? & ?). lra. Qed.

Lemma adjacent_snoc {A : Type} (Rel : A -> A -> Prop) (init : list A) (y x : A) :
  adjacent Rel (init ++ [y]) -> Rel y x -> adjacent Rel ((init ++ [y]) ++ [x]).
Proof.
  intros Hadj Hyx i a b Ha Hb.
  assert (Hlen : length (init ++ [y]) = S (length init))
    by (rewrite length_app; simpl; lia).
  destruct (Nat.lt_ge_cases (S i) (length (init ++ [y]))) as [Hin | Hout].
  - rewrite nth_error_app1 in Ha, Hb by lia. exact (Hadj i a b Ha Hb).
  - destruct (Nat.eq_dec i (length init)) as [-> | Hne].
    + rewrite nth_error_app1 in Ha by lia.
      rewrite nth_error_app2, Nat.sub_diag in Ha by lia.
      rewrite nth_error_app2 in Hb by lia.
      rewrite Hlen, Nat.sub_diag in Hb.
      simpl in Ha, Hb. injection Ha as <-. injection Hb as <-. exact Hyx.
    + rewrite nth_error_app2 in Hb by lia.
      destruct (S i - length (init ++ [y]))%nat as [| k] eqn:Hk; [lia |].
      destruct k; discriminate.
Qed.

(** Related neighbours give related elements at any two ordered indices. *)
Lemma adjacent_ordered (l : list SimulationPoint.t) :
  adjacent notBefore l ->
  forall i j a b,
    (i <= j)%nat -> nth_error l i = Some a -> nth_error l j = Some b ->
    notBefore a b.
Proof.
  intros Hadj i j a b Hij. revert b.
  induction Hij as [| m Hm IH]; intros b Ha Hb.
  - rewrite Ha in Hb. injection Hb as <-. apply notBefore_refl.
  - destruct (nth_error l m) as [c |] eqn:Hc.
    + apply notBefore_trans with c; [now apply IH | exact (Hadj m c b Hc Hb)].
    + apply nth_error_None in Hc.
      assert (Hn : nth_error l (S m) = None) by (apply nth_error_None; lia).
      congruence.
Qed.

Lemma segmentsFrom_growing (rest : list TrackPoint.t) :
  forall total p1,
    growingFrom total (segmentsFrom total p1 rest) /\
    Forall (fun s => 0 <= Segment.distance s) (segmentsFrom total p1 rest).
Proof.
  induction rest as [| p2 rest IH]; intros total p1.
  - split; [exact I | constructor].
  - destruct (IH (Segment.cumulativeDistance (segmentOf total p1 p2)) p2)
      as [Hg Hf].
    pose proof (segmentOf_distance_nonneg total p1 p2) as Hd.
    cbn [segmentsFrom growingFrom]. cbv zeta.
    split; [split; [| exact Hg] | constructor; assumption].
    rewrite segmentOf_cumulative. lra.
Qed.

Lemma lastCumulative_nth (segments : list Segment.t) :
  forall d lastSegment,
    nth_error segments (length segments - 1) = Some lastSegment ->
    lastCumulative d segments = Segment.cumulativeDistance lastSegment.
Proof.
  unfold lastCumulative.
  induction segments as [| s rest IH]; intros d lastSegment H.
  - discriminate.
  - destruct rest as [| s' rest'].
    + simpl in H. injection H as <-. reflexivity.
    + cbn [fold_left]. cbn [fold_left] in IH. apply (IH d).
      simpl in H. simpl. now rewrite Nat.sub_0_r.
Qed.

(** With a positive maximal speed the segment loop runs to its end and
    keeps the points in order. *)
Lemma simulateSegments_ordered (p : Parameters) (segments : list Segment.t) :
  0 < Vmax_kmh p ->
  forall st d,
    Forall (fun s => 0 <= Segment.distance s) segments ->
    growingFrom d segments ->
    endsAt d st ->
    adjacent notBefore (simulationData st) ->
    exists st',
      simulateSegments p st segments = Ok st' /\
      adjacent notBefore (simulationData st') /\
      endsAt (lastCumulative d segments) st'.
Proof.
  intros HV.
  induction segments as [| s rest IH]; intros st d Hpos Hgrow Hend Hadj.
  - exists st. split; [reflexivity | split; [exact Hadj | exact Hend]].
  - simpl in Hgrow. destruct Hgrow as [Hd Hgrow].
    inversion Hpos as [| s0 rest0 Hs Hrest]; subst.
    destruct (simulateSegment_ok p st s HV) as [st1 H1].
    pose proof (simulateSegment_inv p st st1 s H1)
      as (pt & Hne & Hdata & Htime & Hgain & Hpt & Hpg & Hpd & _).
    assert (Hspeed : 0 < segmentSpeed p s).
    { apply calculateSpeed_gt_0. unfold Vmax_ms. lra. }
    assert (Hq : 0 <= Segment.distance s / segmentSpeed p s).
    { apply Rmult_le_pos; [exact Hs |].
      left. now apply Rinv_0_lt_compat. }
    destruct Hend as (init & lastPoint & Hinit & Hld & Hlt & Hlg).
    destruct (IH st1 (Segment.cumulativeDistance s)) as (st' & Hrun & Hadj' & Hend').
    + exact Hrest.
    + exact Hgrow.
    + exists (simulationData st), pt. tauto.
    + rewrite Hdata, Hinit. apply adjacent_snoc.
      * now rewrite <- Hinit.
      * unfold notBefore. rewrite Hld, Hlt, Hlg, Hpd, Hpt, Hpg. lra.
    + exists st'. split; [simpl; now rewrite H1 |]. split; [exact Hadj' |].
      exact Hend'.
Qed.

Lemma powerLoop_ok (data : list SimulationPoint.t) (count : nat) :
  forall i totalPower,
    (i + count <= length data)%nat ->
    exists total, powerLoop data i count totalPower = Ok total.
Proof.
  induction count as [| count IH]; intros i totalPower Hlen; simpl.
  - eexists. reflexivity.
  - destruct (nth_error data i) as [cur |] eqn:Hcur;
      [| apply nth_error_None in Hcur; lia].
    destruct (nth_error data (i - 1)) as [prev |] eqn:Hprev;
      [| apply nth_error_None in Hprev; lia].
    apply lookup_ok in Hcur. apply lookup_ok in Hprev.
    rewrite Hcur, Hprev. simpl. apply IH. lia.
Qed.

Lemma initialState_endsAt (first : TrackPoint.t) :
  endsAt 0 (initialState first) /\
  adjacent notBefore (simulationData (initialState first)).
Proof.
  split.
  - exists [], (startingPoint first). simpl. tauto.
  - intros i a b _ Hb. simpl in Hb. destruct i; discriminate.
Qed.

(** A route of two points or more with a positive maximal speed is
    simulated to the end, and the points come out in order. *)
Lemma runSimulation_run (points : list TrackPoint.t) (p : Parameters) :
  (2 <= length points)%nat ->
  0 < Vmax_kmh p ->
  exists first st lastSegment totalPower,
    nth_error points 0 = Some first /\
    nth_error (calculateSegmentData points)
              (length (calculateSegmentData points) - 1) = Some lastSegment /\
    powerLoop (simulationData st) 1 (length (simulationData st) - 1) 0
      = Ok totalPower /\
    adjacent notBefore (simulationData st) /\
    endsAt (Segment.cumulativeDistance lastSegment) st /\
    nth_error (simulationData st) 0 = Some (startingPoint first) /\
    runSimulation (Some points) p
    = Ok (mkSimulation
            (simulationData st) (totalTime st)
            (Segment.cumulativeDistance lastSegment)
            (option_map (fun q => q * 3.6)
               (js_div (Segment.cumulativeDistance lastSegment) (totalTime st)))
            (js_div totalPower (totalTime st))).
Proof.
  intros Hlen HV.
  destruct points as [| first rest]; [simpl in Hlen; lia |].
  pose proof (calculateSegmentData_length (first :: rest)) as Hsegs.
  set (segments := calculateSegmentData (first :: rest)) in *.
  simpl length in Hsegs, Hlen.
  destruct (segmentsFrom_growing rest 0 first) as [Hgrow Hpos].
  destruct (initialState_endsAt first) as [Hend0 Hadj0].
  destruct (simulateSegments_ordered p segments HV (initialState first) 0
              Hpos Hgrow Hend0 Hadj0) as (st & Hst & Hadj & Hend).
  destruct (nth_error segments (length segments - 1)) as [lastSegment |] eqn:Hl;
    [| apply nth_error_None in Hl; lia].
  rewrite (lastCumulative_nth segments 0 lastSegment Hl) in Hend.
  destruct (simulateSegments_data p segments _ _ Hst) as (pts & Hpts & Hn).
  destruct (powerLoop_ok (simulationData st)
              (length (simulationData st) - 1) 1 0) as [totalPower Hpow].
  { rewrite Hpts, length_app. simpl. lia. }
  exists first, st, lastSegment, totalPower.
  repeat (split; [first [reflexivity | assumption] |]).
  split; [now rewrite Hpts |].
  unfold runSimulation. fold segments.
  destruct (length segments =? 0)%nat eqn:E; [apply Nat.eqb_eq in E; lia |].
  change (lookup (first :: rest) 0) with (Ok first).
  apply lookup_ok in Hl. cbn [bind]. rewrite Hst. cbn [bind].
  rewrite Hl. cbn [bind]. rewrite Hpow. reflexivity.
Qed.

(** In exact arithmetic the points are in order: over the reals, for every
    route of at least two points (at least one segment) and every positive
    maximal speed, the simulation produces its sequence of points, and in
    it distance, time and elevationGain are non-decreasing in the index,
    the starting point at index 0 included. *)
Lemma simulation_nondecreasing (points : list TrackPoint.t) (p : Parameters) :
  (2 <= length points)%nat ->
  0 < Vmax_kmh p ->
  exists sim,
    runSimulation (Some points) p = Ok sim /\
    length (sim_data sim) = length points /\
    forall i j a b,
      (i <= j)%nat ->
      nth_error (sim_data sim) i = Some a ->
      nth_error (sim_data sim) j = Some b ->
      SimulationPoint.distance a <= SimulationPoint.distance b /\
      SimulationPoint.time a <= SimulationPoint.time b /\
      SimulationPoint.elevationGain a <= SimulationPoint.elevationGain b.
Proof.
  intros Hlen HV.
  destruct (runSimulation_run points p Hlen HV)
    as (first & st & lastSegment & totalPower & _ & _ & _ & Hadj & _ & _ & Hrun).
  eexists. split; [exact Hrun |]. simpl.
  split.
  - apply runSimulation_inv in Hrun
      as (first' & st' & l' & t' & _ & Hst & _ & _ & E).
    injection E as E _ _ _ _. rewrite E.
    apply simulateSegments_data in Hst as (pts & -> & Hn).
    rewrite length_app, Hn, calculateSegmentData_length. simpl. lia.
  - intros i j a b Hij Ha Hb.
    exact (adjacent_ordered _ Hadj i j a b Hij Ha Hb).
Qed.

(** *** The order on binary64 numbers *)

(** With the sine and the cosine that fdlibm returns at 58 and 90 degrees,
    the haversine term of the points (58, 0) and (-58, 180), opposite each
    other on the globe, rounds to the number after 1. *)
Lemma antipodal_haversine (Math : Binary64.MathLibrary) :
  Binary64.Math_sin Math (-1.0122909661567112)%float
    = (-0.8480480961564261)%float ->
  Binary64.Math_sin Math 1.5707963267948966%float = 1%float ->
  Binary64.Math_cos Math 1.0122909661567112%float
    = 0.5299192642332049%float ->
  Binary64.Math_cos Math (-1.0122909661567112)%float
    = 0.5299192642332049%float ->
  Binary64.haversine Math 58 0 (-58) 180 = 1.0000000000000002%float.
Proof.
  destruct Math as [msin mcos matan matan2].
  cbn [Binary64.Math_sin Binary64.Math_cos]. intros Hs58 Hs90 Hc58 Hc58'.
  unfold Binary64.haversine. cbn [Binary64.Math_sin Binary64.Math_cos].
  vm_compute. rewrite Hs58, Hs90, Hc58, Hc58'. vm_compute. reflexivity.
Qed.

(** Then [1 - a] is negative and its square root is [NaN]; with an
    [atan2] that returns [NaN] for a [NaN] argument, as ECMAScript
    prescribes, the distance is [NaN]. *)
Lemma antipodal_distance (Math : Binary64.MathLibrary) :
  Binary64.haversine Math 58 0 (-58) 180 = 1.0000000000000002%float ->
  (forall y, Binary64.Math_atan2 Math y nan = nan) ->
  Binary64.calculateDistance Math 58 0 (-58) 180 = nan.
Proof.
  intros Ha Hnan. unfold Binary64.calculateDistance. cbv zeta. rewrite Ha.
  change (PrimFloat.sqrt (1 - 1.0000000000000002))%float with nan.
  rewrite Hnan. reflexivity.
Qed.

(** On a level segment the power needed reads the library at 0 only. *)
Lemma calculatePowerNeeded_level (Math : Binary64.MathLibrary)
      (speed_ms mass CdA : float) :
  Binary64.Math_atan Math 0 = 0%float ->
  Binary64.Math_sin Math 0 = 0%float ->
  Binary64.Math_cos Math 0 = 1%float ->
  Binary64.calculatePowerNeeded Math speed_ms 0 mass CdA =
  Binary64.calculatePowerNeeded Binary64.fdlibmValues speed_ms 0 mass CdA.
Proof.
  intros Hatan Hsin Hcos. unfold Binary64.calculatePowerNeeded. cbv zeta.
  rewrite Hatan, Hsin, Hcos. reflexivity.
Qed.

(** Two libraries that give the same power needed on a grade give the
    same search on it, and the same speed. *)
Lemma search_loop_same (M1 M2 : Binary64.MathLibrary)
      (grade mass CdA Pmax : float) :
  (forall v, Binary64.calculatePowerNeeded M1 v grade mass CdA =
             Binary64.calculatePowerNeeded M2 v grade mass CdA) ->
  forall fuel b,
    Binary64.search_loop M1 fuel grade mass CdA Pmax b =
    Binary64.search_loop M2 fuel grade mass CdA Pmax b.
Proof.
  intros Hsame. induction fuel as [| fuel IH]; intros b; [reflexivity |].
  cbn [Binary64.search_loop]. destruct (Binary64.searching b); [| reflexivity].
  unfold Binary64.bisect. cbv zeta. rewrite Hsame. apply IH.
Qed.

Lemma calculateSpeed_same (M1 M2 : Binary64.MathLibrary)
      (grade mass CdA Pmax Vmax_ms : float) :
  (forall v, Binary64.calculatePowerNeeded M1 v grade mass CdA =
             Binary64.calculatePowerNeeded M2 v grade mass CdA) ->
  Binary64.calculateSpeed M1 grade mass CdA Pmax Vmax_ms =
  Binary64.calculateSpeed M2 grade mass CdA Pmax Vmax_ms.
Proof.
  intros Hsame. unfold Binary64.calculateSpeed. cbv zeta.
  rewrite Hsame, (search_loop_same M1 M2 grade mass CdA Pmax Hsame).
  reflexivity.
Qed.

Lemma simulateSegment_same (M1 M2 : Binary64.MathLibrary)
      (p : Binary64.Parameters) (st : Binary64.SimState)
      (segment : Binary64.Segment.t) :
  (forall v mass CdA,
     Binary64.calculatePowerNeeded M1 v (Binary64.Segment.grade segment)
                                   mass CdA =
     Binary64.calculatePowerNeeded M2 v (Binary64.Segment.grade segment)
                                   mass CdA) ->
  Binary64.simulateSegment M1 p st segment =
  Binary64.simulateSegment M2 p st segment.
Proof.
  intros Hsame. unfold Binary64.simulateSegment, Binary64.actualPower.
  cbv zeta.
  rewrite (calculateSpeed_same M1 M2 _ _ _ _ _ (fun v => Hsame v _ _)).
  rewrite Hsame. reflexivity.
Qed.

(** C7: the order fails on binary64 numbers.  Take the route of the two
    points (58, 0) and (-58, 180), at sea level, with 80 kg, 0.3 m2, 250 W
    and 40 km/h, and any [Math] library that has the values ECMAScript
    prescribes at 0 and at [NaN] and for which the haversine term of the
    two points is 1.0000000000000002.  The simulation returns its two
    points; the distance and the time of the second are [NaN], so that
    neither the distance nor the time of the point at index 0 is less than
    or equal to that of the point at index 1. *)
Theorem antipodal_route_not_ordered (Math : Binary64.MathLibrary) :
  Binary64.haversine Math 58 0 (-58) 180 = 1.0000000000000002%float ->
  (forall y, Binary64.Math_atan2 Math y nan = nan) ->
  Binary64.Math_atan Math 0 = 0%float ->
  Binary64.Math_sin Math 0 = 0%float ->
  Binary64.Math_cos Math 0 = 1%float ->
  exists sim a b,
    Binary64.runSimulation Math (Some Binary64.antipodalRoute) Binary64.rider
      = Ok sim /\
    nth_error (Binary64.sim_data sim) 0 = Some a /\
    nth_error (Binary64.sim_data sim) 1 = Some b /\
    is_nan (Binary64.SimulationPoint.distance b) = true /\
    is_nan (Binary64.SimulationPoint.time b) = true /\
    PrimFloat.leb (Binary64.SimulationPoint.distance a)
                  (Binary64.SimulationPoint.distance b) = false /\
    PrimFloat.leb (Binary64.SimulationPoint.time a)
                  (Binary64.SimulationPoint.time b) = false.
Proof.
  intros Ha Hnan Hatan Hsin Hcos.
  assert (Hsegments :
            Binary64.calculateSegmentData Math Binary64.antipodalRoute =
            [Binary64.Segment.mk nan 0 0 nan (-58) 180]).
  { unfold Binary64.calculateSegmentData, Binary64.antipodalRoute.
    cbn [Binary64.segmentsFrom]. cbv zeta. f_equal.
    unfold Binary64.segmentOf.
    cbn [Binary64.TrackPoint.lat Binary64.TrackPoint.lon Binary64.TrackPoint.ele].
    cbv zeta. rewrite (antipodal_distance Math Ha Hnan). reflexivity. }
  unfold Binary64.runSimulation. cbv zeta. rewrite Hsegments.
  cbn [length Nat.eqb lookup nth_error Binary64.antipodalRoute bind Nat.sub
       Binary64.simulateSegments].
  rewrite (simulateSegment_same Math Binary64.fdlibmValues).
  - eexists. eexists. eexists.
    split; [vm_compute; reflexivity |].
    split; [reflexivity |]. split; [reflexivity |].
    repeat split; vm_compute; reflexivity.
  - intros v mass CdA. cbn [Binary64.Segment.grade].
    apply calculatePowerNeeded_level; assumption.
Qed.

Lemma antipodal_route_not_ordered_witness :
  Binary64.haversine Binary64.fdlibmValues 58 0 (-58) 180
    = 1.0000000000000002%float /\
  (forall y, Binary64.Math_atan2 Binary64.fdlibmValues y nan = nan) /\
  Binary64.Math_atan Binary64.fdlibmValues 0 = 0%float /\
  Binary64.Math_sin Binary64.fdlibmValues 0 = 0%float /\
  Binary64.Math_cos Binary64.fdlibmValues 0 = 1%float /\
  exists sim a b,
    Binary64.runSimulation Binary64.fdlibmValues
      (Some Binary64.antipodalRoute) Binary64.rider = Ok sim /\
    nth_error (Binary64.sim_data sim) 0 = Some a /\
    nth_error (Binary64.sim_data sim) 1 = Some b /\
    is_nan (Binary64.SimulationPoint.distance b) = true /\
    is_nan (Binary64.SimulationPoint.time b) = true /\
    PrimFloat.leb (Binary64.SimulationPoint.distance a)
                  (Binary64.SimulationPoint.distance b) = false /\
    PrimFloat.leb (Binary64.SimulationPoint.time a)
                  (Binary64.SimulationPoint.time b) = false.
Proof.
  assert (Ha : Binary64.haversine Binary64.fdlibmValues 58 0 (-58) 180
               = 1.0000000000000002%float)
    by (apply antipodal_haversine; reflexivity).
  assert (Hnan : forall y, Binary64.Math_atan2 Binary64.fdlibmValues y nan = nan).
  { intros y. cbn [Binary64.Math_atan2 Binary64.fdlibmValues].
    rewrite orb_true_r. reflexivity. }
  split; [exact Ha |]. split; [exact Hnan |].
  split; [reflexivity |]. split; [reflexivity |]. split; [reflexivity |].
  exact (antipodal_route_not_ordered Binary64.fdlibmValues Ha Hnan
           eq_refl eq_refl eq_refl).
Defined.

Lemma recorded_power_witness :
  exists sim segment pt,
    runSimulation (Some stackedRoute) rider = Ok sim /\
    nth_error (calculateSegmentData stackedRoute) 0 = Some segment /\
    nth_error (sim_data sim) 1 = Some pt /\
    let speedMs :=
      calculateSpeed (Segment.grade segment) (mass rider) (CdA rider)
                     (Pmax rider) (Vmax_ms rider) in
    SimulationPoint.power pt =
      if Rge_dec speedMs (Vmax_ms rider - 0.01)
      then Rmax 0 (calculatePowerNeeded speedMs (Segment.grade segment)
                     (mass rider) (CdA rider))
      else Pmax rider.
Proof.
  assert (H1 : (2 <= length stackedRoute)%nat) by (simpl; lia).
  assert (H2 : 0 < Vmax_kmh rider) by (simpl; lra).
  destruct (runSimulation_run stackedRoute rider H1 H2)
    as (first & st & lastSegment & totalPower & _ & _ & _ & _ & _ & _ & Hrun).
  pose (segment := segmentOf 0 (TrackPoint.mk 45 6 1000) (TrackPoint.mk 45 6 1012)).
  assert (Hseg : nth_error (calculateSegmentData stackedRoute) 0 = Some segment)
    by reflexivity.
  destruct (recorded_power stackedRoute rider _ 0 segment Hrun Hseg)
    as (pt & Hpt & Hpower).
  eexists. exists segment, pt.
  split; [exact Hrun |]. split; [exact Hseg |]. split; [exact Hpt | exact Hpower].
Defined.

(** ** Totals of a range *)

Lemma nth_error_snoc_last {A : Type} (init : list A) (x : A) :
  nth_error (init ++ [x]) (length (init ++ [x]) - 1) = Some x.
Proof.
  rewrite length_app. simpl.
  rewrite nth_error_app2 by lia.
  now replace (length init + 1 - 1 - length init)%nat with O by lia.
Qed.

(** The sum loop adds, to what it starts from, the spec's sum over the
    indices it visits. *)
Lemma powerLoop_sum (data : list SimulationPoint.t) (count : nat) :
  forall i totalPower,
    (i + count <= length data)%nat ->
    exists total,
      powerLoop data i count totalPower = Ok total /\
      total = totalPower +
              fold_right Rplus 0
                (map (fun i =>
                        fieldAt SimulationPoint.power data i *
                        (fieldAt SimulationPoint.time data i -
                         fieldAt SimulationPoint.time data (i - 1)))
                     (seq i count)).
Proof.
  induction count as [| count IH]; intros i totalPower Hlen.
  - exists totalPower. simpl. split; [reflexivity | ring].
  - destruct (nth_error data i) as [cur |] eqn:Hcur;
      [| apply nth_error_None in Hcur; lia].
    destruct (nth_error data (i - 1)) as [prev |] eqn:Hprev;
      [| apply nth_error_None in Hprev; lia].
    destruct (IH (S i)
                 (totalPower + SimulationPoint.power cur *
                    (SimulationPoint.time cur - SimulationPoint.time prev)))
      as (total & Hrun & Htotal); [lia |].
    exists total. split.
    + cbn [powerLoop]. unfold lookup. rewrite Hcur, Hprev. exact Hrun.
    + rewrite Htotal. cbn [seq map fold_right]. unfold fieldAt at 4 5 6.
      rewrite Hcur, Hprev. ring.
Qed.

(** The totals of the whole range, in terms of the first point, the last
    point and the sum of the loop. *)
Lemma updateSummaryCards_whole (data : list SimulationPoint.t)
      (first last : SimulationPoint.t) (totalPower : R) :
  nth_error data 0 = Some first ->
  nth_error data (length data - 1) = Some last ->
  powerLoop data 1 (length data - 1) 0 = Ok totalPower ->
  updateSummaryCards data None None =
  let totalTime := SimulationPoint.time last - SimulationPoint.time first in
  let totalDistance :=
    SimulationPoint.distance last - SimulationPoint.distance first in
  Ok (mkSummary totalTime totalDistance
        (if Rgt_dec totalTime 0 then totalDistance / totalTime * 3.6 else 0)
        (if Rgt_dec totalTime 0 then totalPower / totalTime else 0)).
Proof.
  intros Hfirst Hlast Hpow. unfold updateSummaryCards.
  apply lookup_ok in Hfirst. apply lookup_ok in Hlast.
  rewrite Hfirst, Hlast. cbn [bind]. simpl Nat.add.
  rewrite Nat.sub_0_r, Hpow. reflexivity.
Qed.

(** The totals [runSimulation] computes in its pass and the totals
    [updateSummaryCards] computes over the whole range: the same times and
    distances; the same averages when the total time is positive; when it
    is 0 the averages of [runSimulation] are not finite and those of
    [updateSummaryCards] are 0. *)
Lemma whole_range_totals (points : list TrackPoint.t) (p : Parameters) :
  (2 <= length points)%nat ->
  0 < Vmax_kmh p ->
  exists sim s,
    runSimulation (Some points) p = Ok sim /\
    updateSummaryCards (sim_data sim) None None = Ok s /\
    0 <= sim_totalTime sim /\
    sum_totalTime s = sim_totalTime sim /\
    sum_totalDistance s = sim_totalDistance sim /\
    (0 < sim_totalTime sim ->
     sim_avgSpeed sim = Some (sum_avgSpeed s) /\
     sim_avgPower sim = Some (sum_avgPower s)) /\
    (sim_totalTime sim = 0 ->
     sim_avgSpeed sim = None /\ sim_avgPower sim = None /\
     sum_avgSpeed s = 0 /\ sum_avgPower s = 0).
Proof.
  intros Hlen HV.
  destruct (runSimulation_run points p Hlen HV)
    as (first & st & lastSegment & totalPower
        & _ & _ & Hpow & Hadj & Hend & Hstart & Hrun).
  destruct Hend as (init & lastPoint & Hdata & Hld & Hlt & _).
  assert (Hlast : nth_error (simulationData st)
                            (length (simulationData st) - 1) = Some lastPoint).
  { rewrite Hdata. apply nth_error_snoc_last. }
  pose proof (updateSummaryCards_whole _ _ _ _ Hstart Hlast Hpow) as Hsum.
  pose proof (adjacent_ordered _ Hadj 0 _ _ _ (Nat.le_0_l _) Hstart Hlast)
    as (_ & Htime & _).
  simpl in Hsum, Htime. rewrite Hld, Hlt in Hsum. rewrite Hlt in Htime.
  set (T := totalTime st) in *.
  set (D := Segment.cumulativeDistance lastSegment) in *.
  replace (T - 0) with T in Hsum by ring.
  replace (D - 0) with D in Hsum by ring.
  eexists. eexists. split; [exact Hrun |]. split; [exact Hsum |]. simpl.
  split; [exact Htime |]. split; [reflexivity |]. split; [reflexivity |].
  split.
  - intros HT. destruct (Rgt_dec T 0) as [_ | Hn]; [| lra].
    rewrite !js_div_nonzero by lra. split; reflexivity.
  - intros HT. destruct (Rgt_dec T 0) as [Hp | _]; [lra |].
    unfold js_div. destruct (Req_dec_T T 0) as [_ | Hn]; [| contradiction].
    repeat split.
Qed.

(** C5 at the route made of the same point twice (with 80 kg, 0.3 m2,
    250 W, 40 km/h): the simulation succeeds with a total time of 0; the
    average speed and the average power of [runSimulation] are not finite
    numbers (0/0), those of [updateSummaryCards] over the whole range
    are 0. *)
Theorem standing_route_averages_differ :
  exists sim s,
    runSimulation (Some standingRoute) rider = Ok sim /\
    updateSummaryCards (sim_data sim) None None = Ok s /\
    sim_totalTime sim = 0 /\
    sim_avgSpeed sim = None /\ sum_avgSpeed s = 0 /\
    sim_avgPower sim = None /\ sum_avgPower s = 0.
Proof.
  assert (H1 : (2 <= length standingRoute)%nat) by (simpl; lia).
  assert (H2 : 0 < Vmax_kmh rider) by (simpl; lra).
  destruct (whole_range_totals standingRoute rider H1 H2)
    as (sim & s & Hrun & Hsum & _ & _ & _ & _ & Hzero).
  assert (HT : sim_totalTime sim = 0).
  { apply runSimulation_inv in Hrun
      as (first & st & lastSegment & totalPower & Hfirst & Hst & _ & _ & ->).
    simpl in Hfirst. injection Hfirst as <-.
    cbn [sim_totalTime].
    change (calculateSegmentData standingRoute)
      with [segmentOf 0 (TrackPoint.mk 45 6 1000) (TrackPoint.mk 45 6 1000)]
      in Hst.
    cbn [simulateSegments] in Hst.
    destruct (simulateSegment _ _ _) as [st1 | e] eqn:Hseg;
      cbn [bind] in Hst; [| discriminate].
    injection Hst as <-.
    apply simulateSegment_inv in Hseg as (pt & _ & _ & Htime & _).
    rewrite Htime.
    destruct (segmentOf_stacked 0 (TrackPoint.mk 45 6 1000)
                (TrackPoint.mk 45 6 1000) eq_refl eq_refl) as [_ Hd].
    rewrite Hd. cbn [TrackPoint.ele initialState totalTime].
    replace (1000 - 1000) with 0 by ring. rewrite Rabs_R0.
    unfold Rdiv. ring. }
  destruct (Hzero HT) as (A1 & A2 & A3 & A4).
  exists sim, s. repeat split; assumption.
Qed.

Lemma fieldAt_nth (f : SimulationPoint.t -> R) (data : list SimulationPoint.t)
      (i : nat) (x : SimulationPoint.t) :
  nth_error data i = Some x -> fieldAt f data i = f x.
Proof. intros H. unfold fieldAt. now rewrite H. Qed.

(** On every range [start <= end <= length - 1] whose end index is not 0
    (or is the last index), over data whose time does not decrease from
    [start] to [end], [updateSummaryCards] computes the totals the
    specification words. *)
Lemma updateSummaryCards_range (data : list SimulationPoint.t)
      (startIdx endIdx : nat) :
  (startIdx <= endIdx)%nat ->
  (endIdx < length data)%nat ->
  (1 <= endIdx \/ endIdx = length data - 1)%nat ->
  fieldAt SimulationPoint.time data startIdx <=
  fieldAt SimulationPoint.time data endIdx ->
  updateSummaryCards data (Some startIdx) (Some endIdx) =
  Ok (aggregate_spec data startIdx endIdx).
Proof.
  intros Hse Hlen Hend Htime.
  unfold updateSummaryCards.
  replace (match endIdx with O => (length data - 1)%nat | S _ => endIdx end)
    with endIdx by (destruct endIdx; [lia | reflexivity]).
  destruct (nth_error data startIdx) as [first |] eqn:Hfirst;
    [| apply nth_error_None in Hfirst; lia].
  destruct (nth_error data endIdx) as [last |] eqn:Hlast;
    [| apply nth_error_None in Hlast; lia].
  destruct (powerLoop_sum data (endIdx - startIdx) (startIdx + 1) 0)
    as (total & Hrun & Htotal); [lia |].
  unfold lookup at 1 2. rewrite Hfirst, Hlast. cbn [bind].
  rewrite Hrun. cbn [bind].
  unfold aggregate_spec, weightedPower_spec.
  rewrite (fieldAt_nth _ _ _ _ Hfirst) in Htime |- *.
  rewrite (fieldAt_nth _ _ _ _ Hlast) in Htime |- *.
  rewrite (fieldAt_nth SimulationPoint.distance _ _ _ Hfirst).
  rewrite (fieldAt_nth SimulationPoint.distance _ _ _ Hlast).
  replace (S startIdx) with (startIdx + 1)%nat by lia.
  rewrite Rplus_0_l in Htotal. rewrite <- Htotal.
  set (T := SimulationPoint.time last - SimulationPoint.time first).
  assert (HT : 0 <= T) by (unfold T; lra).
  destruct (Rgt_dec T 0) as [Hp | Hn];
    destruct (Req_dec_T T 0) as [Hz | Hnz]; try lra; reflexivity.
Qed.


(** * Further properties of the code *)

(** ** The haversine distance *)

Lemma calculateDistance_haversine (lat1 lon1 lat2 lon2 : R) :
  calculateDistance lat1 lon1 lat2 lon2 =
  6371000 * (2 * atan2 (sqrt (haversine lat1 lon1 lat2 lon2))
                       (sqrt (1 - haversine lat1 lon1 lat2 lon2))).
Proof. reflexivity. Qed.

Lemma haversine_sym (lat1 lon1 lat2 lon2 : R) :
  haversine lat1 lon1 lat2 lon2 = haversine lat2 lon2 lat1 lon1.
Proof.
  unfold haversine.
  replace ((lat1 - lat2) * PI / 180 / 2) with (- ((lat2 - lat1) * PI / 180 / 2))
    by (unfold Rdiv; ring).
  replace ((lon1 - lon2) * PI / 180 / 2) with (- ((lon2 - lon1) * PI / 180 / 2))
    by (unfold Rdiv; ring).
  rewrite !sin_neg. ring.
Qed.

(** X1: the distance from A to B is the distance from B to A. *)
Theorem calculateDistance_sym (lat1 lon1 lat2 lon2 : R) :
  calculateDistance lat1 lon1 lat2 lon2 = calculateDistance lat2 lon2 lat1 lon1.
Proof.
  rewrite !calculateDistance_haversine.
  now rewrite (haversine_sym lat1 lon1 lat2 lon2).
Qed.

(** ** Accuracy of the binary search *)

(** The power curve grows with the speed on grades of [-Crr] at least. *)
Lemma calculatePowerNeeded_increasing (grade mass CdA v1 v2 : R) :
  - Crr <= grade -> 0 < mass -> 0 < CdA ->
  0 <= v1 -> v1 < v2 ->
  calculatePowerNeeded v1 grade mass CdA < calculatePowerNeeded v2 grade mass CdA.
Proof.
  intros Hg Hm Hc Hv1 Hlt.
  rewrite !calculatePowerNeeded_cubic.
  pose proof (slopeForce_nonneg grade mass Hg Hm) as Hf.
  set (f := slopeForce grade mass) in *.
  assert (Hk : 0 < 0.5 * rho * CdA) by (unfold rho; nra).
  set (k := 0.5 * rho * CdA) in *.
  assert (Hsq : v1 * v1 < v2 * v2) by nra.
  assert (Hforce : 0 < f + k * v2 * v2) by nra.
  assert (Hle : f + k * v1 * v1 <= f + k * v2 * v2) by nra.
  apply Rle_lt_trans with ((f + k * v2 * v2) * v1).
  - apply Rmult_le_compat_r; assumption.
  - apply Rmult_lt_compat_l; assumption.
Qed.

Lemma two_pow_100 : 1000000 <= 2 ^ 100.
Proof.
  apply Rle_trans with (2 ^ 20).
  - simpl. lra.
  - apply Rle_pow; [lra | lia].
Qed.

Section Accuracy.

Variables grade mass CdA Pmax : R.

(** The bracket is halved at every iteration. *)
Lemma search_loop_width (width : R) (fuel : nat) (b : Bracket) :
  (vMax b - vMin b) * 2 ^ iterations b = width ->
  let final := search_loop fuel grade mass CdA Pmax b in
  (vMax final - vMin final) * 2 ^ iterations final = width.
Proof.
  intros H.
  apply (search_loop_invariant grade mass CdA Pmax
           (fun b => (vMax b - vMin b) * 2 ^ iterations b = width));
    [| exact H].
  intros b' Hb' _. unfold bisect.
  destruct (Rlt_dec _ _); cbn [vMin vMax iterations pow]; rewrite <- Hb'; field.
Qed.

(** The power needed is below [Pmax] at the lower end and not below it at
    the upper end. *)
Lemma search_loop_crossing (fuel : nat) (b : Bracket) :
  calculatePowerNeeded (vMin b) grade mass CdA < Pmax ->
  Pmax <= calculatePowerNeeded (vMax b) grade mass CdA ->
  let final := search_loop fuel grade mass CdA Pmax b in
  calculatePowerNeeded (vMin final) grade mass CdA < Pmax /\
  Pmax <= calculatePowerNeeded (vMax final) grade mass CdA.
Proof.
  intros H1 H2.
  apply (search_loop_invariant grade mass CdA Pmax
           (fun b => calculatePowerNeeded (vMin b) grade mass CdA < Pmax /\
                     Pmax <= calculatePowerNeeded (vMax b) grade mass CdA));
    [| tauto].
  intros b' [L1 L2] _. unfold bisect.
  destruct (Rlt_dec _ _) as [Hlt | Hge]; cbn [vMin vMax]; split; lra.
Qed.

(** From a bracket [[0.1, Vmax_ms]] with [Vmax_ms <= 1000] the loop ends
    with a bracket of width 0.001 at most. *)
Lemma search_loop_final_width (Vmax_ms : R) :
  0.1 <= Vmax_ms <= 1000 ->
  let final := search_loop maxIterations grade mass CdA Pmax
                 (mkBracket 0.1 Vmax_ms 0) in
  0 <= vMax final - vMin final <= 0.001.
Proof.
  intros HV final.
  destruct (search_loop_bracket grade mass CdA Pmax 0.1 Vmax_ms maxIterations
              (mkBracket 0.1 Vmax_ms 0)) as (L1 & L2 & L3);
    cbn [vMin vMax]; try lra.
  fold final in L1, L2, L3.
  split; [lra |].
  assert (Hstop : searching final = false).
  { apply search_loop_exit. cbn [iterations]. lia. }
  destruct (searching_false _ Hstop) as [Hw | Hc];
    [unfold tolerance in Hw; exact Hw |].
  assert (Hle : (iterations final <= maxIterations)%nat).
  { apply search_loop_iterations. cbn [iterations]. lia. }
  assert (Hn : iterations final = 100%nat) by (unfold maxIterations in *; lia).
  pose proof (search_loop_width (Vmax_ms - 0.1) maxIterations
                (mkBracket 0.1 Vmax_ms 0)) as Hwidth.
  cbn [vMin vMax iterations pow] in Hwidth.
  specialize (Hwidth (Rmult_1_r _)). fold final in Hwidth.
  rewrite Hn in Hwidth.
  pose proof two_pow_100 as Hpow.
  set (w := vMax final - vMin final) in *.
  set (P := 2 ^ 100) in *.
  nra.
Qed.

End Accuracy.

(** X3: on a grade of [-Crr] at least, when the rider is power-limited
    (0.1 m/s needs less than [Pmax], [Vmax_ms] more) and [Vmax_ms] is at
    most 1000 m/s, [calculateSpeed] is within 0.0005 m/s of any speed at
    which the power needed is [Pmax]. *)
Theorem calculateSpeed_accuracy (grade mass CdA Pmax Vmax_ms v : R) :
  - Crr <= grade -> 0 < mass -> 0 < CdA ->
  0.1 <= Vmax_ms <= 1000 ->
  calculatePowerNeeded 0.1 grade mass CdA < Pmax ->
  Pmax < calculatePowerNeeded Vmax_ms grade mass CdA ->
  0 <= v ->
  calculatePowerNeeded v grade mass CdA = Pmax ->
  Rabs (calculateSpeed grade mass CdA Pmax Vmax_ms - v) <= 0.0005.
Proof.
  intros Hg Hm Hc HV Hlo Hhi Hv Hroot.
  unfold calculateSpeed.
  destruct (Rle_dec _ _) as [Hle | _]; [lra |].
  pose proof (search_loop_final_width grade mass CdA Pmax Vmax_ms HV) as Hw.
  destruct (search_loop_crossing grade mass CdA Pmax maxIterations
              (mkBracket 0.1 Vmax_ms 0)) as [C1 C2]; cbn [vMin vMax]; try lra.
  destruct (search_loop_bracket grade mass CdA Pmax 0.1 Vmax_ms maxIterations
              (mkBracket 0.1 Vmax_ms 0)) as (L1 & L2 & L3);
    cbn [vMin vMax]; try lra.
  cbv zeta in Hw.
  set (final := search_loop maxIterations grade mass CdA Pmax
                  (mkBracket 0.1 Vmax_ms 0)) in *.
  assert (Hmin : vMin final < v).
  { destruct (Rlt_le_dec (vMin final) v) as [H | H]; [exact H |].
    destruct H as [H | H].
    - pose proof (calculatePowerNeeded_increasing grade mass CdA v (vMin final)
                    Hg Hm Hc Hv H). lra.
    - subst v. lra. }
  assert (Hmax : v <= vMax final).
  { destruct (Rle_lt_dec v (vMax final)) as [H | H]; [exact H |].
    pose proof (calculatePowerNeeded_increasing grade mass CdA (vMax final) v
                  Hg Hm Hc) as Hinc.
    assert (0 <= vMax final) by lra. specialize (Hinc H0 H). lra. }
  apply Rabs_le. lra.
Qed.

Lemma calculateSpeed_accuracy_witness :
  - Crr <= 0 /\ 0 < 80 /\ 0 < 0.3 /\ 0.1 <= 10 <= 1000 /\
  calculatePowerNeeded 0.1 0 80 0.3 < 38.66475 /\
  38.66475 < calculatePowerNeeded 10 0 80 0.3 /\
  0 <= 5 /\
  calculatePowerNeeded 5 0 80 0.3 = 38.66475 /\
  Rabs (calculateSpeed 0 80 0.3 38.66475 10 - 5) <= 0.0005.
Proof.
  assert (H1 : - Crr <= 0) by (unfold Crr; lra).
  assert (H2 : 0 < 80) by lra.
  assert (H3 : 0 < 0.3) by lra.
  assert (H4 : 0.1 <= 10 <= 1000) by lra.
  assert (H5 : calculatePowerNeeded 0.1 0 80 0.3 < 38.66475)
    by (rewrite calculatePowerNeeded_flat; unfold g, rho, Crr; lra).
  assert (H6 : 38.66475 < calculatePowerNeeded 10 0 80 0.3)
    by (rewrite calculatePowerNeeded_flat; unfold g, rho, Crr; lra).
  assert (H7 : 0 <= 5) by lra.
  assert (H8 : calculatePowerNeeded 5 0 80 0.3 = 38.66475)
    by (rewrite calculatePowerNeeded_flat; unfold g, rho, Crr; lra).
  repeat (split; [assumption |]).
  exact (calculateSpeed_accuracy 0 80 0.3 38.66475 10 5
           H1 H2 H3 H4 H5 H6 H7 H8).
Defined.

(** X4: on a grade of [-Crr] at least, when even 0.1 m/s needs [Pmax] or more,
    the search closes in on its floor: [calculateSpeed] returns a speed
    between 0.1 and 0.1005 m/s. *)
Theorem calculateSpeed_floor (grade mass CdA Pmax Vmax_ms : R) :
  - Crr <= grade -> 0 < mass -> 0 < CdA ->
  0.1 <= Vmax_ms <= 1000 ->
  Pmax <= calculatePowerNeeded 0.1 grade mass CdA ->
  0.1 <= calculateSpeed grade mass CdA Pmax Vmax_ms <= 0.1005.
Proof.
  intros Hg Hm Hc HV Hsteep.
  assert (Hmono : forall v, 0.1 <= v ->
            Pmax <= calculatePowerNeeded v grade mass CdA).
  { intros v [Hv | <-]; [| exact Hsteep].
    pose proof (calculatePowerNeeded_increasing grade mass CdA 0.1 v
                  Hg Hm Hc) as Hinc.
    assert (H0 : 0 <= 0.1) by lra. specialize (Hinc H0 Hv). lra. }
  unfold calculateSpeed.
  destruct (Rle_dec _ _) as [Hle | _].
  - destruct (proj1 HV) as [Hlt | <-]; [| lra].
    pose proof (calculatePowerNeeded_increasing grade mass CdA 0.1 Vmax_ms
                  Hg Hm Hc) as Hinc.
    assert (H0 : 0 <= 0.1) by lra. specialize (Hinc H0 Hlt). lra.
  - pose proof (search_loop_final_width grade mass CdA Pmax Vmax_ms HV) as Hw.
    cbv zeta in Hw.
    assert (Hfix : vMin (search_loop maxIterations grade mass CdA Pmax
                           (mkBracket 0.1 Vmax_ms 0)) = 0.1 /\
                   0.1 <= vMax (search_loop maxIterations grade mass CdA Pmax
                                  (mkBracket 0.1 Vmax_ms 0))).
    { apply (search_loop_invariant grade mass CdA Pmax
               (fun b => vMin b = 0.1 /\ 0.1 <= vMax b));
        [| cbn [vMin vMax]; lra].
      intros b [E L] _. unfold bisect.
      destruct (Rlt_dec _ _) as [Hlt | _]; cbn [vMin vMax].
      - assert (Hmid : 0.1 <= (vMin b + vMax b) / 2) by lra.
        pose proof (Hmono _ Hmid). lra.
      - lra. }
    destruct Hfix as [E L]. lra.
Qed.

Lemma calculateSpeed_floor_witness :
  - Crr <= 0 /\ 0 < 80 /\ 0 < 0.3 /\ 0.1 <= 10 <= 1000 /\
  0.3 <= calculatePowerNeeded 0.1 0 80 0.3 /\
  0.1 <= calculateSpeed 0 80 0.3 0.3 10 <= 0.1005.
Proof.
  assert (H1 : - Crr <= 0) by (unfold Crr; lra).
  assert (H2 : 0 < 80) by lra.
  assert (H3 : 0 < 0.3) by lra.
  assert (H4 : 0.1 <= 10 <= 1000) by lra.
  assert (H5 : 0.3 <= calculatePowerNeeded 0.1 0 80 0.3)
    by (rewrite calculatePowerNeeded_flat; unfold g, rho, Crr; lra).
  repeat (split; [assumption |]).
  exact (calculateSpeed_floor 0 80 0.3 0.3 10 H1 H2 H3 H4 H5).
Defined.

(** ** The points of the simulation, one by one *)

Lemma segmentsFrom_linked (rest : list TrackPoint.t) :
  forall total p1, linkedFrom total (segmentsFrom total p1 rest).
Proof.
  induction rest as [| p2 rest IH]; intros total p1.
  - exact I.
  - cbn [segmentsFrom linkedFrom]. cbv zeta. split; [reflexivity | apply IH].
Qed.

Lemma simulateSegment_follows (p : Parameters) (st st' : SimState)
      (s : Segment.t) (d : R) :
  simulateSegment p st s = Ok st' ->
  recordedAt d st ->
  Segment.cumulativeDistance s = d + Segment.distance s ->
  exists init a b,
    simulationData st = init ++ [a] /\
    simulationData st' = (init ++ [a]) ++ [b] /\
    follows p s a b /\
    recordedAt (Segment.cumulativeDistance s) st'.
Proof.
  intros Hrun (init & a & Hdata & Hd & Ht & Hg & He) Hcum.
  unfold simulateSegment in Hrun. fold (segmentSpeed p s) in Hrun.
  destruct (js_div _ _) as [time |] eqn:Hdiv; cbn [finite bind] in Hrun;
    [| discriminate].
  apply js_div_some in Hdiv as [Hne ->].
  injection Hrun as <-.
  eexists init, a, _. split; [exact Hdata |].
  split; [cbn [simulationData]; rewrite Hdata; reflexivity |].
  split.
  - unfold follows. cbn. rewrite Ht, Hg, He, Hd, Hcum.
    repeat split; try reflexivity; try assumption.
  - eexists. eexists. cbn. split; [reflexivity |]. repeat split.
Qed.

(** In the data the loop leaves, the point of every segment follows the
    point before it. *)
Lemma simulateSegments_follow (p : Parameters) (segments : list Segment.t) :
  forall st st' d,
    simulateSegments p st segments = Ok st' ->
    recordedAt d st ->
    linkedFrom d segments ->
    forall i s,
      nth_error segments i = Some s ->
      exists a b,
        nth_error (simulationData st') (length (simulationData st) - 1 + i)
        = Some a /\
        nth_error (simulationData st') (length (simulationData st) + i)
        = Some b /\
        follows p s a b.
Proof.
  induction segments as [| s0 rest IH]; intros st st' d Hrun Hrec Hlink i s Hi.
  - destruct i; discriminate.
  - cbn [simulateSegments] in Hrun.
    destruct (simulateSegment p st s0) as [st1 | e] eqn:H1;
      cbn [bind] in Hrun; [| discriminate].
    destruct Hlink as [Hcum Hlink].
    destruct (simulateSegment_follows p st st1 s0 d H1 Hrec Hcum)
      as (init & a & b & Hdata & Hdata1 & Hfol & Hrec1).
    destruct (simulateSegments_data p rest st1 st' Hrun) as (pts & Hpts & _).
    assert (Hlen : length (simulationData st) = S (length init))
      by (rewrite Hdata, length_app; simpl; lia).
    assert (Hlen1 : length (simulationData st1) = S (S (length init)))
      by (rewrite Hdata1, !length_app; simpl; lia).
    destruct i as [| i].
    + cbn [nth_error] in Hi. injection Hi as <-.
      exists a, b. rewrite Hpts, Hdata1, Hlen.
      split; [| split; [| exact Hfol]].
      * replace (S (length init) - 1 + 0)%nat with (length init) by lia.
        rewrite <- !app_assoc.
        rewrite nth_error_app2 by lia. now rewrite Nat.sub_diag.
      * replace (S (length init) + 0)%nat with (length (init ++ [a]))
          by (rewrite length_app; simpl; lia).
        rewrite <- app_assoc.
        rewrite nth_error_app2 by lia. now rewrite Nat.sub_diag.
    + cbn [nth_error] in Hi.
      destruct (IH st1 st' _ Hrun Hrec1 Hlink i s Hi) as (a' & b' & Ha & Hb & Hf).
      exists a', b'. rewrite Hlen1 in Ha, Hb. rewrite Hlen.
      split; [| split; [| exact Hf]].
      * now replace (S (length init) - 1 + S i)%nat
          with (S (S (length init)) - 1 + i)%nat by lia.
      * now replace (S (length init) + S i)%nat
          with (S (S (length init)) + i)%nat by lia.
Qed.

Lemma initialState_recordedAt (first : TrackPoint.t) :
  recordedAt 0 (initialState first).
Proof.
  exists [], (startingPoint first). cbn. repeat split.
Qed.

(** In the data of a successful run, point [i + 1] follows point [i] by
    segment [i]. *)
Lemma runSimulation_follow (points : list TrackPoint.t) (p : Parameters)
      (sim : Simulation) (i : nat) (s : Segment.t) :
  runSimulation (Some points) p = Ok sim ->
  nth_error (calculateSegmentData points) i = Some s ->
  exists a b,
    nth_error (sim_data sim) i = Some a /\
    nth_error (sim_data sim) (S i) = Some b /\
    follows p s a b.
Proof.
  intros Hrun Hs.
  apply runSimulation_inv in Hrun
    as (first & st & lastSegment & totalPower & Hfirst & Hst & _ & _ & ->).
  destruct points as [| first' rest]; [discriminate |].
  cbn [nth_error] in Hfirst. injection Hfirst as ->.
  pose proof (segmentsFrom_linked rest 0 first) as Hlink.
  exact (simulateSegments_follow p _ _ _ 0 Hst
           (initialState_recordedAt first) Hlink i s Hs).
Qed.

(** The first point of the data of a successful run is the starting
    point, and there is one point per track point. *)
Lemma runSimulation_shape (points : list TrackPoint.t) (p : Parameters)
      (sim : Simulation) :
  runSimulation (Some points) p = Ok sim ->
  length (sim_data sim) = length points /\
  (2 <= length points)%nat /\
  exists first,
    nth_error points 0 = Some first /\
    nth_error (sim_data sim) 0 = Some (startingPoint first).
Proof.
  intros Hrun.
  apply runSimulation_inv in Hrun
    as (first & st & lastSegment & totalPower & Hfirst & Hst & Hlast & _ & ->).
  cbn [sim_data].
  destruct (simulateSegments_data p _ _ _ Hst) as (pts & Hpts & Hn).
  pose proof (calculateSegmentData_length points) as Hlen.
  assert (Hsome : (length (calculateSegmentData points) - 1
                   < length (calculateSegmentData points))%nat).
  { apply nth_error_Some. congruence. }
  split; [| split].
  - rewrite Hpts, length_app, Hn, Hlen. cbn. lia.
  - lia.
  - exists first. split; [exact Hfirst |]. now rewrite Hpts.
Qed.

Lemma calculateSpeed_between (grade mass CdA Pmax Vmax_ms : R) :
  0.1 <= Vmax_ms ->
  0.1 <= calculateSpeed grade mass CdA Pmax Vmax_ms <= Vmax_ms.
Proof.
  intros HV. unfold calculateSpeed.
  destruct (Rle_dec _ _); [lra |].
  destruct (search_loop_bracket grade mass CdA Pmax 0.1 Vmax_ms maxIterations
              (mkBracket 0.1 Vmax_ms 0)) as (L1 & L2 & L3);
    cbn [vMin vMax] in *; lra.
Qed.

(** Every pair of neighbours in the data of a successful run comes from a
    segment. *)
Lemma runSimulation_neighbours (points : list TrackPoint.t) (p : Parameters)
      (sim : Simulation) (i : nat) (a b : SimulationPoint.t) :
  runSimulation (Some points) p = Ok sim ->
  nth_error (sim_data sim) i = Some a ->
  nth_error (sim_data sim) (S i) = Some b ->
  exists s,
    nth_error (calculateSegmentData points) i = Some s /\ follows p s a b.
Proof.
  intros Hrun Ha Hb.
  destruct (runSimulation_shape points p sim Hrun) as (Hlen & _ & _).
  assert (Hi : (S i < length (sim_data sim))%nat)
    by (apply nth_error_Some; congruence).
  destruct (nth_error (calculateSegmentData points) i) as [s |] eqn:Hs.
  - destruct (runSimulation_follow points p sim i s Hrun Hs)
      as (a' & b' & Ha' & Hb' & Hf).
    exists s. split; [reflexivity |]. congruence.
  - apply nth_error_None in Hs. rewrite calculateSegmentData_length in Hs. lia.
Qed.

Lemma stackedRoute_points :
  exists sim a b,
    runSimulation (Some stackedRoute) rider = Ok sim /\
    nth_error (sim_data sim) 0 = Some a /\
    nth_error (sim_data sim) 1 = Some b.
Proof.
  assert (H1 : (2 <= length stackedRoute)%nat) by (simpl; lia).
  assert (H2 : 0 < Vmax_kmh rider) by (simpl; lra).
  destruct (runSimulation_run stackedRoute rider H1 H2)
    as (first & st & lastSegment & totalPower & _ & _ & _ & _ & _ & _ & Hrun).
  assert (Hs : nth_error (calculateSegmentData stackedRoute) 0
               = Some (segmentOf 0 (TrackPoint.mk 45 6 1000)
                                   (TrackPoint.mk 45 6 1012)))
    by reflexivity.
  destruct (runSimulation_follow _ _ _ 0 _ Hrun Hs) as (a & b & Ha & Hb & _).
  eexists. exists a, b. split; [exact Hrun |]. split; assumption.
Qed.

(** X6: with a maximal speed of 0.36 km/h (0.1 m/s) at least, every point of
    the simulation after the starting point records a speed of 0.36 km/h
    at least. *)
Theorem recorded_speed_at_least (points : list TrackPoint.t) (p : Parameters)
        (sim : Simulation) (i : nat) (b : SimulationPoint.t) :
  0.36 <= Vmax_kmh p ->
  runSimulation (Some points) p = Ok sim ->
  nth_error (sim_data sim) (S i) = Some b ->
  0.36 <= SimulationPoint.speed b.
Proof.
  intros HV Hrun Hb.
  assert (Hi : (i < length (sim_data sim))%nat).
  { assert (S i < length (sim_data sim))%nat
      by (apply nth_error_Some; congruence). lia. }
  destruct (nth_error (sim_data sim) i) as [a |] eqn:Ha;
    [| apply nth_error_None in Ha; lia].
  destruct (runSimulation_neighbours points p sim i a b Hrun Ha Hb)
    as (s & _ & _ & _ & _ & Hv & _).
  assert (Hms : 0.1 <= Vmax_ms p) by (unfold Vmax_ms; lra).
  pose proof (calculateSpeed_between (Segment.grade s) (mass p) (CdA p)
                (Pmax p) (Vmax_ms p) Hms) as [Hlo _].
  fold (segmentSpeed p s) in Hlo. rewrite Hv. lra.
Qed.

Lemma recorded_speed_at_least_witness :
  exists sim b,
    0.36 <= Vmax_kmh rider /\
    runSimulation (Some stackedRoute) rider = Ok sim /\
    nth_error (sim_data sim) 1 = Some b /\
    0.36 <= SimulationPoint.speed b.
Proof.
  destruct stackedRoute_points as (sim & a & b & Hrun & Ha & Hb).
  assert (HV : 0.36 <= Vmax_kmh rider) by (simpl; lra).
  exists sim, b. split; [exact HV |]. split; [exact Hrun |].
  split; [exact Hb |].
  exact (recorded_speed_at_least stackedRoute rider sim 0 b HV Hrun Hb).
Defined.

(** X7: with a maximal power that is not negative, no point of the simulation
    records a negative power. *)
Theorem recorded_power_nonneg (points : list TrackPoint.t) (p : Parameters)
        (sim : Simulation) (i : nat) (b : SimulationPoint.t) :
  0 <= Pmax p ->
  runSimulation (Some points) p = Ok sim ->
  nth_error (sim_data sim) i = Some b ->
  0 <= SimulationPoint.power b.
Proof.
  intros HP Hrun Hb.
  destruct i as [| i].
  - destruct (runSimulation_shape points p sim Hrun)
      as (_ & _ & first & _ & Hstart).
    rewrite Hstart in Hb. injection Hb as <-. cbn. lra.
  - assert (Hi : (i < length (sim_data sim))%nat).
    { assert (S i < length (sim_data sim))%nat
        by (apply nth_error_Some; congruence). lia. }
    destruct (nth_error (sim_data sim) i) as [a |] eqn:Ha;
      [| apply nth_error_None in Ha; lia].
    destruct (runSimulation_neighbours points p sim i a b Hrun Ha Hb)
      as (s & _ & _ & _ & _ & _ & Hpow & _).
    rewrite Hpow. unfold actualPower.
    destruct (Rge_dec _ _); [apply Rmax_l | exact HP].
Qed.

Lemma recorded_power_nonneg_witness :
  exists sim b,
    0 <= Pmax rider /\
    runSimulation (Some stackedRoute) rider = Ok sim /\
    nth_error (sim_data sim) 1 = Some b /\
    0 <= SimulationPoint.power b.
Proof.
  destruct stackedRoute_points as (sim & a & b & Hrun & Ha & Hb).
  assert (HP : 0 <= Pmax rider) by (simpl; lra).
  exists sim, b. split; [exact HP |]. split; [exact Hrun |].
  split; [exact Hb |].
  exact (recorded_power_nonneg stackedRoute rider sim 1 b HP Hrun Hb).
Defined.

Lemma calculateSegmentData_nth (points : list TrackPoint.t) (i : nat)
      (p1 p2 : TrackPoint.t) :
  nth_error points i = Some p1 ->
  nth_error points (S i) = Some p2 ->
  exists t,
    nth_error (calculateSegmentData points) i = Some (segmentOf t p1 p2).
Proof.
  intros H1 H2. destruct points as [| p rest]; [destruct i; discriminate |].
  exact (segmentsFrom_nth rest 0 p i p1 p2 H1 H2).
Qed.

(** X8: point [i + 1] of the simulation is at track point [i + 1]: it carries
    its elevation, latitude and longitude, its distance is the distance of
    point [i] plus the 3D distance of the two track points, and it records
    their grade in percent. *)
Theorem simulation_follows_track (points : list TrackPoint.t) (p : Parameters)
        (sim : Simulation) (i : nat) (p1 p2 : TrackPoint.t) :
  runSimulation (Some points) p = Ok sim ->
  nth_error points i = Some p1 ->
  nth_error points (S i) = Some p2 ->
  exists a b,
    nth_error (sim_data sim) i = Some a /\
    nth_error (sim_data sim) (S i) = Some b /\
    SimulationPoint.elevation b = TrackPoint.ele p2 /\
    SimulationPoint.lat b = Some (TrackPoint.lat p2) /\
    SimulationPoint.lon b = Some (TrackPoint.lon p2) /\
    let horizontal :=
      calculateDistance (TrackPoint.lat p1) (TrackPoint.lon p1)
                        (TrackPoint.lat p2) (TrackPoint.lon p2) in
    let climb := TrackPoint.ele p2 - TrackPoint.ele p1 in
    SimulationPoint.distance b =
      SimulationPoint.distance a +
      sqrt (horizontal * horizontal + climb * climb) /\
    SimulationPoint.grade b =
      (if Rgt_dec horizontal 0 then climb / horizontal else 0) * 100.
Proof.
  intros Hrun H1 H2.
  destruct (calculateSegmentData_nth points i p1 p2 H1 H2) as [t Hs].
  destruct (runSimulation_follow points p sim i _ Hrun Hs)
    as (a & b & Ha & Hb & _ & Hd & _ & _ & _ & He & Hg & Hlat & Hlon & _).
  exists a, b. split; [exact Ha |]. split; [exact Hb |].
  split; [exact He |]. split; [exact Hlat |]. split; [exact Hlon |].
  cbv zeta. split.
  - rewrite Hd. reflexivity.
  - rewrite Hg. reflexivity.
Qed.

Lemma simulation_follows_track_witness :
  exists sim a b,
    runSimulation (Some stackedRoute) rider = Ok sim /\
    nth_error stackedRoute 0 = Some (TrackPoint.mk 45 6 1000) /\
    nth_error stackedRoute 1 = Some (TrackPoint.mk 45 6 1012) /\
    nth_error (sim_data sim) 0 = Some a /\
    nth_error (sim_data sim) 1 = Some b /\
    SimulationPoint.elevation b = 1012 /\
    SimulationPoint.lat b = Some 45 /\
    SimulationPoint.lon b = Some 6 /\
    let horizontal := calculateDistance 45 6 45 6 in
    let climb := 1012 - 1000 in
    SimulationPoint.distance b =
      SimulationPoint.distance a +
      sqrt (horizontal * horizontal + climb * climb) /\
    SimulationPoint.grade b =
      (if Rgt_dec horizontal 0 then climb / horizontal else 0) * 100.
Proof.
  destruct stackedRoute_points as (sim & a0 & b0 & Hrun & _ & _).
  destruct (simulation_follows_track stackedRoute rider sim 0
              (TrackPoint.mk 45 6 1000) (TrackPoint.mk 45 6 1012)
              Hrun eq_refl eq_refl) as (a & b & Ha & Hb & Hrest).
  exists sim, a, b. split; [exact Hrun |]. split; [reflexivity |].
  split; [reflexivity |]. split; [exact Ha |]. split; [exact Hb |].
  exact Hrest.
Defined.

(** X9: the elevation gain counts the climbs only: at every point of the
    simulation it is at least 0, and it is 0 exactly when no point up to
    there lies higher than the point before it. *)
Theorem elevationGain_counts_climbs (points : list TrackPoint.t)
        (p : Parameters) (sim : Simulation) (j : nat) (c : SimulationPoint.t) :
  runSimulation (Some points) p = Ok sim ->
  nth_error (sim_data sim) j = Some c ->
  0 <= SimulationPoint.elevationGain c /\
  (SimulationPoint.elevationGain c = 0 <->
   forall i a b,
     (i < j)%nat ->
     nth_error (sim_data sim) i = Some a ->
     nth_error (sim_data sim) (S i) = Some b ->
     SimulationPoint.elevation b <= SimulationPoint.elevation a).
Proof.
  intros Hrun. revert c.
  induction j as [| j IH]; intros c Hc.
  - destruct (runSimulation_shape points p sim Hrun)
      as (_ & _ & first & _ & Hfirst).
    rewrite Hfirst in Hc. injection Hc as <-. cbn [SimulationPoint.elevationGain
      startingPoint]. split; [lra |]. split; [intros _ i a b Hi; lia |].
    reflexivity.
  - assert (Hj : (j < length (sim_data sim))%nat).
    { assert (S j < length (sim_data sim))%nat
        by (apply nth_error_Some; congruence). lia. }
    destruct (nth_error (sim_data sim) j) as [a |] eqn:Ha;
      [| apply nth_error_None in Ha; lia].
    destruct (IH a eq_refl) as [G0 Hiff].
    destruct (runSimulation_neighbours points p sim j a c Hrun Ha Hc)
      as (s & _ & _ & _ & _ & _ & _ & _ & _ & _ & _ & Hgain).
    rewrite Hgain.
    destruct (Rgt_dec (SimulationPoint.elevation c -
                       SimulationPoint.elevation a) 0) as [Hup | Hflat].
    + split; [lra |]. split; [intros H0; lra |].
      intros Hall. specialize (Hall j a c (Nat.lt_succ_diag_r j) Ha Hc). lra.
    + split; [exact G0 |]. split.
      * intros H0 i a' b' Hi Ha' Hb'.
        destruct (Nat.eq_dec i j) as [-> | Hne].
        -- rewrite Ha in Ha'. injection Ha' as <-.
           rewrite Hc in Hb'. injection Hb' as <-. lra.
        -- apply (proj1 Hiff H0 i a' b'); [lia | exact Ha' | exact Hb'].
      * intros Hall. apply (proj2 Hiff).
        intros i a' b' Hi. apply Hall. lia.
Qed.

Lemma elevationGain_counts_climbs_witness :
  exists sim c,
    runSimulation (Some stackedRoute) rider = Ok sim /\
    nth_error (sim_data sim) 1 = Some c /\
    0 <= SimulationPoint.elevationGain c /\
    (SimulationPoint.elevationGain c = 0 <->
     forall i a b,
       (i < 1)%nat ->
       nth_error (sim_data sim) i = Some a ->
       nth_error (sim_data sim) (S i) = Some b ->
       SimulationPoint.elevation b <= SimulationPoint.elevation a).
Proof.
  destruct stackedRoute_points as (sim & a & b & Hrun & Ha & Hb).
  exists sim, b. split; [exact Hrun |]. split; [exact Hb |].
  exact (elevationGain_counts_climbs stackedRoute rider sim 1 b Hrun Hb).
Defined.

(** ** Ranges of the simulation data *)

(** In the data of a successful run with a positive maximal speed, no
    cumulative field decreases from a point to the next. *)
Lemma runSimulation_ordered (points : list TrackPoint.t) (p : Parameters)
      (sim : Simulation) :
  0 < Vmax_kmh p ->
  runSimulation (Some points) p = Ok sim ->
  adjacent notBefore (sim_data sim).
Proof.
  intros HV Hrun.
  destruct (runSimulation_shape points p sim Hrun) as (_ & Hlen & _).
  destruct (runSimulation_run points p Hlen HV)
    as (first & st & lastSegment & totalPower
        & _ & _ & _ & Hadj & _ & _ & Hrun').
  rewrite Hrun in Hrun'. injection Hrun' as ->. exact Hadj.
Qed.

(** ** Failures of the simulation *)

Lemma simulateSegments_failure (p : Parameters) (segments : list Segment.t) :
  forall st e, simulateSegments p st segments = Err e -> e = NonFinite.
Proof.
  induction segments as [| s rest IH]; intros st e H; [discriminate |].
  cbn [simulateSegments] in H.
  destruct (simulateSegment p st s) as [st1 | e1] eqn:H1; cbn [bind] in H.
  - exact (IH st1 e H).
  - injection H as <-. unfold simulateSegment in H1.
    destruct (js_div _ _); cbn [finite bind] in H1; [discriminate |].
    now injection H1 as <-.
Qed.

Lemma lookup_failure {A : Type} (l : list A) (i : nat) (e : failure) :
  lookup l i = Err e -> e = OutOfRange /\ (length l <= i)%nat.
Proof.
  unfold lookup. destruct (nth_error l i) eqn:H; [discriminate |].
  intros E. injection E as <-. split; [reflexivity |].
  now apply nth_error_None.
Qed.

Lemma powerLoop_failure (data : list SimulationPoint.t) (count : nat) :
  forall i totalPower e,
    powerLoop data i count totalPower = Err e -> e = OutOfRange.
Proof.
  induction count as [| count IH]; intros i totalPower e H; [discriminate |].
  cbn [powerLoop] in H.
  destruct (lookup data i) as [cur | e1] eqn:H1; cbn [bind] in H.
  - destruct (lookup data (i - 1)) as [prev | e2] eqn:H2; cbn [bind] in H.
    + exact (IH _ _ _ H).
    + injection H as <-. now apply lookup_failure in H2.
  - injection H as <-. now apply lookup_failure in H1.
Qed.

(** X12: [runSimulation] stops with its alert for not enough data points
    exactly on the routes of fewer than two points, whatever the
    parameters. *)
Theorem runSimulation_not_enough_data (points : list TrackPoint.t)
        (p : Parameters) :
  runSimulation (Some points) p = Err NotEnoughData <->
  (length points < 2)%nat.
Proof.
  pose proof (calculateSegmentData_length points) as Hlen.
  unfold runSimulation.
  destruct (length (calculateSegmentData points) =? 0)%nat eqn:E.
  - apply Nat.eqb_eq in E. split; [lia | reflexivity].
  - apply Nat.eqb_neq in E. split; [| lia]. intros H. exfalso.
    destruct (lookup points 0) as [first | e] eqn:H0; cbn [bind] in H.
    + destruct (simulateSegments _ _ _) as [st | e] eqn:H1; cbn [bind] in H.
      * destruct (lookup (calculateSegmentData points) _) as [l | e] eqn:H2;
          cbn [bind] in H.
        -- destruct (powerLoop _ _ _ _) as [t | e] eqn:H3; cbn [bind] in H;
             [discriminate |].
           apply powerLoop_failure in H3. congruence.
        -- apply lookup_failure in H2 as [H2 _]. congruence.
      * apply simulateSegments_failure in H1. congruence.
    + apply lookup_failure in H0 as [H0 _]. congruence.
Qed.

Lemma calculateSpeed_at_0 (grade mass CdA Pmax : R) :
  0 <= Pmax -> calculateSpeed grade mass CdA Pmax 0 = 0.
Proof.
  intros HP. unfold calculateSpeed. rewrite calculatePowerNeeded_at_0.
  destruct (Rle_dec 0 Pmax); [reflexivity | contradiction].
Qed.

(** X13: with a maximal speed of 0 and a maximal power that is not negative,
    the solved speed is 0 and the time of the first segment is a division
    by zero: on every route of two points or more the simulation leaves
    the finite numbers. *)
Theorem runSimulation_zero_speed (points : list TrackPoint.t) (p : Parameters) :
  Vmax_kmh p = 0 -> 0 <= Pmax p -> (2 <= length points)%nat ->
  (forall s, segmentSpeed p s = 0) /\
  runSimulation (Some points) p = Err NonFinite.
Proof.
  intros HV HP Hlen.
  assert (Hspeed : forall s, segmentSpeed p s = 0).
  { intros s. unfold segmentSpeed, Vmax_ms. rewrite HV.
    replace (0 / 3.6) with 0 by (unfold Rdiv; ring).
    now apply calculateSpeed_at_0. }
  split; [exact Hspeed |].
  pose proof (calculateSegmentData_length points) as Hsegs.
  unfold runSimulation.
  destruct (length (calculateSegmentData points) =? 0)%nat eqn:E;
    [apply Nat.eqb_eq in E; lia |].
  destruct points as [| first rest]; [simpl in Hlen; lia |].
  change (lookup (first :: rest) 0) with (Ok first). cbn [bind].
  destruct (calculateSegmentData (first :: rest)) as [| s segs] eqn:Hs;
    [simpl in Hsegs; simpl in Hlen; lia |].
  cbn [simulateSegments]. unfold simulateSegment at 1.
  fold (segmentSpeed p s). rewrite (Hspeed s).
  unfold js_div. destruct (Req_dec_T 0 0) as [_ | Hn]; [| contradiction].
  reflexivity.
Qed.

Lemma runSimulation_zero_speed_witness :
  Vmax_kmh (mkParameters 80 0.3 250 0) = 0 /\
  0 <= Pmax (mkParameters 80 0.3 250 0) /\
  (2 <= length stackedRoute)%nat /\
  (forall s, segmentSpeed (mkParameters 80 0.3 250 0) s = 0) /\
  runSimulation (Some stackedRoute) (mkParameters 80 0.3 250 0)
  = Err NonFinite.
Proof.
  assert (H1 : Vmax_kmh (mkParameters 80 0.3 250 0) = 0) by reflexivity.
  assert (H2 : 0 <= Pmax (mkParameters 80 0.3 250 0)) by (simpl; lra).
  assert (H3 : (2 <= length stackedRoute)%nat) by (simpl; lia).
  repeat (split; [assumption |]).
  exact (runSimulation_zero_speed stackedRoute _ H1 H2 H3).
Defined.

(** ** Totals of a range: success and sign *)

Lemma adjacent_notEarlier (data : list SimulationPoint.t) :
  adjacent notEarlier data ->
  forall i j a b,
    (i <= j)%nat -> nth_error data i = Some a -> nth_error data j = Some b ->
    SimulationPoint.time a <= SimulationPoint.time b.
Proof.
  intros Hadj i j a b Hij. revert b.
  induction Hij as [| m Hm IH]; intros b Ha Hb.
  - rewrite Ha in Hb. injection Hb as <-. lra.
  - destruct (nth_error data m) as [c |] eqn:Hc.
    + pose proof (IH c Ha eq_refl) as H1.
      pose proof (Hadj m c b Hc Hb) as H2. unfold notEarlier in H2. lra.
    + apply nth_error_None in Hc.
      assert (Hn : nth_error data (S m) = None) by (apply nth_error_None; lia).
      congruence.
Qed.

Lemma notBefore_notEarlier (data : list SimulationPoint.t) :
  adjacent notBefore data -> adjacent notEarlier data.
Proof.
  intros H i a b Ha Hb. destruct (H i a b Ha Hb) as (_ & Ht & _). exact Ht.
Qed.

Lemma fieldAt_time_ordered (data : list SimulationPoint.t) (i j : nat) :
  adjacent notEarlier data ->
  (i <= j)%nat -> (j < length data)%nat ->
  fieldAt SimulationPoint.time data i <= fieldAt SimulationPoint.time data j.
Proof.
  intros Hadj Hij Hj.
  destruct (nth_error data i) as [a |] eqn:Ha;
    [| apply nth_error_None in Ha; lia].
  destruct (nth_error data j) as [b |] eqn:Hb;
    [| apply nth_error_None in Hb; lia].
  rewrite (fieldAt_nth _ _ _ _ Ha), (fieldAt_nth _ _ _ _ Hb).
  exact (adjacent_notEarlier data Hadj i j a b Hij Ha Hb).
Qed.

(** With both indices in the data [updateSummaryCards] returns totals. *)
Lemma updateSummaryCards_in_range (data : list SimulationPoint.t)
      (startIdx endIdx : nat) :
  (startIdx < length data)%nat -> (endIdx < length data)%nat ->
  exists s, updateSummaryCards data (Some startIdx) (Some endIdx) = Ok s.
Proof.
  intros L1 L2. unfold updateSummaryCards.
  set (e := match endIdx with O => (length data - 1)%nat | S _ => endIdx end).
  assert (L3 : (e < length data)%nat)
    by (unfold e; destruct endIdx; lia).
  destruct (nth_error data startIdx) as [first |] eqn:H1;
    [| apply nth_error_None in H1; lia].
  destruct (nth_error data e) as [last |] eqn:H2;
    [| apply nth_error_None in H2; lia].
  apply lookup_ok in H1, H2. rewrite H1, H2. cbn [bind].
  destruct (powerLoop_ok data (e - startIdx) (startIdx + 1) 0) as [t Ht];
    [lia |].
  rewrite Ht. cbn [bind]. eexists. reflexivity.
Qed.

(** X14: [updateSummaryCards] returns totals exactly when both indices are
    indices of the data; otherwise it reads a field of [undefined]. *)
Theorem updateSummaryCards_succeeds_iff (data : list SimulationPoint.t)
        (startIdx endIdx : nat) :
  (exists s, updateSummaryCards data (Some startIdx) (Some endIdx) = Ok s) <->
  (startIdx < length data)%nat /\ (endIdx < length data)%nat.
Proof.
  split; [| intros [L1 L2]; now apply updateSummaryCards_in_range].
  unfold updateSummaryCards.
  set (e := match endIdx with O => (length data - 1)%nat | S _ => endIdx end).
  intros [s Hs].
  destruct (lookup data startIdx) as [first |] eqn:H1; cbn [bind] in Hs;
    [| discriminate].
  destruct (lookup data e) as [last |] eqn:H2; cbn [bind] in Hs;
    [| discriminate].
  apply lookup_ok in H1, H2.
  assert (L1 : (startIdx < length data)%nat)
    by (apply nth_error_Some; congruence).
  assert (L2 : (e < length data)%nat) by (apply nth_error_Some; congruence).
  split; [exact L1 |]. unfold e in L2. destruct endIdx; lia.
Qed.

Lemma fold_right_Rplus_app (l1 l2 : list R) :
  fold_right Rplus 0 (l1 ++ l2) = fold_right Rplus 0 l1 + fold_right Rplus 0 l2.
Proof.
  induction l1 as [| x l1 IH]; simpl; [ring | rewrite IH; ring].
Qed.

(** The weighted sum over [(i, k]] splits at any [j] in between. *)
Lemma weightedPower_spec_split (data : list SimulationPoint.t) (i j k : nat) :
  (i <= j)%nat -> (j <= k)%nat ->
  weightedPower_spec data i k =
  weightedPower_spec data i j + weightedPower_spec data j k.
Proof.
  intros Hij Hjk. unfold weightedPower_spec.
  replace (k - i)%nat with ((j - i) + (k - j))%nat by lia.
  rewrite seq_app, map_app, fold_right_Rplus_app.
  now replace (S i + (j - i))%nat with (S j) by lia.
Qed.

Lemma weightedPower_spec_step (data : list SimulationPoint.t) (j : nat) :
  weightedPower_spec data j (S j) =
  fieldAt SimulationPoint.power data (S j) *
  (fieldAt SimulationPoint.time data (S j) - fieldAt SimulationPoint.time data j).
Proof.
  unfold weightedPower_spec. replace (S j - j)%nat with 1%nat by lia.
  cbn [seq map fold_right]. replace (S j - 1)%nat with j by lia. ring.
Qed.

(** Over data whose time does not decrease, with no negative power in the
    range, the weighted sum of the range is not negative. *)
Lemma weightedPower_spec_nonneg (data : list SimulationPoint.t) (i : nat) :
  adjacent notEarlier data ->
  forall n,
    (i + n < length data)%nat ->
    (forall m, (i < m <= i + n)%nat ->
               0 <= fieldAt SimulationPoint.power data m) ->
    0 <= weightedPower_spec data i (i + n).
Proof.
  intros Hadj. induction n as [| n IH]; intros Hlen Hpow.
  - unfold weightedPower_spec. rewrite Nat.add_0_r, Nat.sub_diag.
    cbn [seq map fold_right]. lra.
  - assert (Hlen' : (i + n < length data)%nat) by lia.
    assert (Hpow' : forall m, (i < m <= i + n)%nat ->
                      0 <= fieldAt SimulationPoint.power data m)
      by (intros m Hm; apply Hpow; lia).
    specialize (IH Hlen' Hpow').
    replace (i + S n)%nat with (S (i + n)) in * by lia.
    rewrite (weightedPower_spec_split data i (i + n) (S (i + n))) by lia.
    rewrite weightedPower_spec_step.
    pose proof (fieldAt_time_ordered data (i + n) (S (i + n)) Hadj
                  (Nat.le_succ_diag_r _) Hlen) as Hstep.
    assert (Hm : (i < S (i + n) <= S (i + n))%nat) by lia.
    pose proof (Hpow (S (i + n)) Hm) as Hp.
    assert (Hprod : 0 <= fieldAt SimulationPoint.power data (S (i + n)) *
                         (fieldAt SimulationPoint.time data (S (i + n)) -
                          fieldAt SimulationPoint.time data (i + n)))
      by (apply Rmult_le_pos; lra).
    lra.
Qed.

(** X10: with a positive maximal speed and a maximal power that is not
    negative, the average speed and the average power that
    [updateSummaryCards] shows for a range of the simulation data that ends
    after index 0 are not negative. *)
Theorem range_averages_nonneg (points : list TrackPoint.t) (p : Parameters)
        (sim : Simulation) (i j : nat) :
  0 < Vmax_kmh p ->
  0 <= Pmax p ->
  runSimulation (Some points) p = Ok sim ->
  (i <= j)%nat -> (1 <= j)%nat -> (j < length (sim_data sim))%nat ->
  exists s,
    updateSummaryCards (sim_data sim) (Some i) (Some j) = Ok s /\
    0 <= sum_avgSpeed s /\ 0 <= sum_avgPower s.
Proof.
  intros HV HP Hrun Hij Hj Hlen.
  pose proof (runSimulation_ordered points p sim HV Hrun) as Hadj.
  pose proof (notBefore_notEarlier _ Hadj) as Hadj'.
  destruct (nth_error (sim_data sim) i) as [a |] eqn:Ha;
    [| apply nth_error_None in Ha; lia].
  destruct (nth_error (sim_data sim) j) as [c |] eqn:Hc;
    [| apply nth_error_None in Hc; lia].
  destruct (adjacent_ordered _ Hadj i j a c Hij Ha Hc) as (HD & HT & _).
  assert (Hpow : forall m, (i < m <= j)%nat ->
                   0 <= fieldAt SimulationPoint.power (sim_data sim) m).
  { intros [| m] Hm; [lia |].
    destruct (nth_error (sim_data sim) (S m)) as [y |] eqn:Hy;
      [| apply nth_error_None in Hy; lia].
    destruct (nth_error (sim_data sim) m) as [x |] eqn:Hx;
      [| apply nth_error_None in Hx; lia].
    rewrite (fieldAt_nth _ _ _ _ Hy).
    destruct (runSimulation_neighbours points p sim m x y Hrun Hx Hy)
      as (s & _ & _ & _ & _ & _ & Hpw & _).
    rewrite Hpw. unfold actualPower.
    destruct (Rge_dec _ _); [apply Rmax_l | exact HP]. }
  pose proof (weightedPower_spec_nonneg (sim_data sim) i Hadj' (j - i)) as HW.
  replace (i + (j - i))%nat with j in HW by lia.
  specialize (HW Hlen Hpow).
  exists (aggregate_spec (sim_data sim) i j). split.
  - apply updateSummaryCards_range; try assumption; [now left |].
    now rewrite (fieldAt_nth _ _ _ _ Ha), (fieldAt_nth _ _ _ _ Hc).
  - unfold aggregate_spec. cbn [sum_avgSpeed sum_avgPower].
    rewrite !(fieldAt_nth _ _ _ _ Ha), !(fieldAt_nth _ _ _ _ Hc).
    destruct (Req_dec_T (SimulationPoint.time c - SimulationPoint.time a) 0)
      as [Hz | Hnz]; [split; lra |].
    assert (Hinv : 0 < / (SimulationPoint.time c - SimulationPoint.time a))
      by (apply Rinv_0_lt_compat; lra).
    split.
    + apply Rmult_le_pos; [| lra].
      apply Rmult_le_pos; [lra | left; exact Hinv].
    + apply Rmult_le_pos; [exact HW | left; exact Hinv].
Qed.

Lemma range_averages_nonneg_witness :
  exists sim s,
    0 < Vmax_kmh rider /\ 0 <= Pmax rider /\
    runSimulation (Some stackedRoute) rider = Ok sim /\
    (0 <= 1)%nat /\ (1 <= 1)%nat /\ (1 < length (sim_data sim))%nat /\
    updateSummaryCards (sim_data sim) (Some 0%nat) (Some 1%nat) = Ok s /\
    0 <= sum_avgSpeed s /\ 0 <= sum_avgPower s.
Proof.
  destruct stackedRoute_points as (sim & a & b & Hrun & Ha & Hb).
  assert (HV : 0 < Vmax_kmh rider) by (simpl; lra).
  assert (HP : 0 <= Pmax rider) by (simpl; lra).
  assert (Hlen : (1 < length (sim_data sim))%nat)
    by (apply nth_error_Some; congruence).
  destruct (range_averages_nonneg stackedRoute rider sim 0 1
              HV HP Hrun (Nat.le_0_1) (Nat.le_refl 1) Hlen) as (s & Hs & Hrest).
  exists sim, s. split; [exact HV |]. split; [exact HP |].
  split; [exact Hrun |]. split; [exact Nat.le_0_1 |].
  split; [exact (Nat.le_refl 1) |]. split; [exact Hlen |].
  split; [exact Hs | exact Hrest].
Defined.

(** X17: after a simulation of a route of two points or more with a positive
    maximal speed, the summary of the whole range shows the total time and
    the total distance of the simulation, and when the route takes time,
    the average speed and the average power the simulation computed. *)
Theorem summary_after_simulation (points : list TrackPoint.t) (p : Parameters) :
  (2 <= length points)%nat ->
  0 < Vmax_kmh p ->
  exists sim s,
    runSimulation (Some points) p = Ok sim /\
    updateSummaryCards (sim_data sim) None None = Ok s /\
    sum_totalTime s = sim_totalTime sim /\
    sum_totalDistance s = sim_totalDistance sim /\
    (0 < sum_totalTime s ->
     sim_avgSpeed sim = Some (sum_avgSpeed s) /\
     sim_avgPower sim = Some (sum_avgPower s)).
Proof.
  intros Hlen HV.
  destruct (whole_range_totals points p Hlen HV)
    as (sim & s & Hrun & Hsum & _ & Ht & Hd & Hpos & _).
  exists sim, s. split; [exact Hrun |]. split; [exact Hsum |].
  split; [exact Ht |]. split; [exact Hd |].
  intros H. apply Hpos. now rewrite <- Ht.
Qed.

Lemma summary_after_simulation_witness :
  (2 <= length stackedRoute)%nat /\ 0 < Vmax_kmh rider /\
  exists sim s,
    runSimulation (Some stackedRoute) rider = Ok sim /\
    updateSummaryCards (sim_data sim) None None = Ok s /\
    sum_totalTime s = sim_totalTime sim /\
    sum_totalDistance s = sim_totalDistance sim /\
    (0 < sum_totalTime s ->
     sim_avgSpeed sim = Some (sum_avgSpeed s) /\
     sim_avgPower sim = Some (sum_avgPower s)).
Proof.
  assert (H1 : (2 <= length stackedRoute)%nat) by (simpl; lia).
  assert (H2 : 0 < Vmax_kmh rider) by (simpl; lra).
  split; [exact H1 |]. split; [exact H2 |].
  exact (summary_after_simulation stackedRoute rider H1 H2).
Defined.

(** X18: on every range [start <= end <= length - 1] with [end >= 1], over data
    whose time at [end] is not before the time at [start],
    [updateSummaryCards] returns the totals as the specification words
    them. *)
Theorem range_summary_as_specified (data : list SimulationPoint.t)
        (startIdx endIdx : nat) :
  (startIdx <= endIdx)%nat ->
  (1 <= endIdx)%nat ->
  (endIdx < length data)%nat ->
  fieldAt SimulationPoint.time data startIdx <=
  fieldAt SimulationPoint.time data endIdx ->
  updateSummaryCards data (Some startIdx) (Some endIdx) =
  Ok (aggregate_spec data startIdx endIdx).
Proof.
  intros Hse He Hlen Htime.
  apply updateSummaryCards_range; try assumption. now left.
Qed.

Lemma range_summary_as_specified_witness :
  (0 <= 1)%nat /\ (1 <= 1)%nat /\ (1 < length shortData)%nat /\
  fieldAt SimulationPoint.time shortData 0 <=
  fieldAt SimulationPoint.time shortData 1 /\
  updateSummaryCards shortData (Some 0%nat) (Some 1%nat) =
  Ok (aggregate_spec shortData 0 1).
Proof.
  assert (H1 : (0 <= 1)%nat) by lia.
  assert (H2 : (1 <= 1)%nat) by lia.
  assert (H3 : (1 < length shortData)%nat) by (simpl; lia).
  assert (H4 : fieldAt SimulationPoint.time shortData 0 <=
               fieldAt SimulationPoint.time shortData 1)
    by (unfold fieldAt; simpl; lra).
  repeat (split; [assumption |]).
  exact (range_summary_as_specified shortData 0 1 H1 H2 H3 H4).
Defined.

(** ** Loops with an index *)

(** A property of the visited elements and the variables that the body
    keeps holds when the loop is over. *)
Lemma forIndexed_invariant {A V : Type} (body : nat -> A -> V -> V)
      (Inv : list A -> V -> Prop) :
  (forall pre x st, Inv pre st -> Inv (pre ++ [x]) (body (length pre) x st)) ->
  forall l pre st,
    Inv pre st -> Inv (pre ++ l) (forIndexed body (length pre) l st).
Proof.
  intros Hstep l. induction l as [| x rest IH]; intros pre st Hinv.
  - rewrite app_nil_r. exact Hinv.
  - cbn [forIndexed].
    replace (pre ++ x :: rest) with ((pre ++ [x]) ++ rest)
      by (rewrite <- app_assoc; reflexivity).
    replace (S (length pre)) with (length (pre ++ [x]))
      by (rewrite length_app; simpl; lia).
    apply IH. now apply Hstep.
Qed.

Lemma nth_error_snoc_cases {A : Type} (pre : list A) (x y : A) (k : nat) :
  nth_error (pre ++ [x]) k = Some y ->
  (k < length pre /\ nth_error pre k = Some y)%nat \/
  (k = length pre /\ y = x).
Proof.
  intros H.
  destruct (Nat.lt_ge_cases k (length pre)) as [Hlt | Hge].
  - left. split; [exact Hlt |]. now rewrite nth_error_app1 in H.
  - right. rewrite nth_error_app2 in H by exact Hge.
    destruct (k - length pre)%nat as [| n] eqn:E.
    + simpl in H. injection H as <-. split; [lia | reflexivity].
    + destruct n; discriminate.
Qed.

Lemma nth_error_snoc_old {A : Type} (pre : list A) (x y : A) (k : nat) :
  nth_error pre k = Some y -> nth_error (pre ++ [x]) k = Some y.
Proof.
  intros H. rewrite nth_error_app1; [exact H |].
  apply nth_error_Some. congruence.
Qed.

Lemma nth_error_snoc_new {A : Type} (pre : list A) (x : A) :
  nth_error (pre ++ [x]) (length pre) = Some x.
Proof.
  rewrite nth_error_app2 by lia. now rewrite Nat.sub_diag.
Qed.

(** ** Selection on the map *)

Lemma boundsBody_found (contains : R -> R -> bool)
      (pre : list SimulationPoint.t) (x : SimulationPoint.t)
      (st : option nat * option nat) :
  boundsFound contains pre st ->
  boundsFound contains (pre ++ [x]) (boundsBody contains (length pre) x st).
Proof.
  intros [Hlen Hst].
  assert (Hlen' : length (pre ++ [x]) = S (length pre))
    by (rewrite length_app; simpl; lia).
  split; [lia |].
  destruct st as [[s |] [e |]]; try contradiction; unfold boundsBody.
  - destruct Hst as (H1 & H2 & H3 & (ps & Hps & Bs) & (pe & Hpe & Be) & Hall).
    destruct (inBounds contains x) eqn:Hx.
    + split; [exact H1 |]. split; [lia |]. split; [lia |].
      split; [exists ps; split; [now apply nth_error_snoc_old | exact Bs] |].
      split; [exists x; split; [apply nth_error_snoc_new | exact Hx] |].
      intros k pt Hk Hpt Hb.
      apply nth_error_snoc_cases in Hpt as [[Hlt Hpt] | [-> ->]].
      * specialize (Hall k pt Hk Hpt Hb). lia.
      * lia.
    + split; [exact H1 |]. split; [exact H2 |]. split; [lia |].
      split; [exists ps; split; [now apply nth_error_snoc_old | exact Bs] |].
      split; [exists pe; split; [now apply nth_error_snoc_old | exact Be] |].
      intros k pt Hk Hpt Hb.
      apply nth_error_snoc_cases in Hpt as [[Hlt Hpt] | [-> ->]].
      * exact (Hall k pt Hk Hpt Hb).
      * congruence.
  - destruct (inBounds contains x) eqn:Hx.
    + split; [exact Hlen |]. split; [lia |]. split; [lia |].
      split; [exists x; split; [apply nth_error_snoc_new | exact Hx] |].
      split; [exists x; split; [apply nth_error_snoc_new | exact Hx] |].
      intros k pt Hk Hpt Hb.
      apply nth_error_snoc_cases in Hpt as [[Hlt Hpt] | [-> ->]].
      * specialize (Hst k pt Hk Hpt). congruence.
      * lia.
    + intros k pt Hk Hpt.
      apply nth_error_snoc_cases in Hpt as [[Hlt Hpt] | [-> ->]].
      * exact (Hst k pt Hk Hpt).
      * exact Hx.
Qed.

Lemma boundsLoop_found (contains : R -> R -> bool)
      (data : list SimulationPoint.t) :
  data <> [] ->
  boundsFound contains data
    (forIndexed (boundsBody contains) 1 (tl data) (None, None)).
Proof.
  intros Hne. destruct data as [| d0 rest]; [contradiction |].
  change (d0 :: rest) with ([d0] ++ rest) at 1. cbn [tl].
  change 1%nat with (length [d0]).
  apply forIndexed_invariant.
  - intros pre x st. apply boundsBody_found.
  - split; [simpl; lia |]. intros k pt Hk Hpt.
    destruct k as [| [| k]]; [lia | discriminate | discriminate].
Qed.

Lemma selectPointsInBounds_some (data : list SimulationPoint.t)
      (contains : R -> R -> bool) (s e : nat) (r : result Summary) :
  selectPointsInBounds (Some data) contains = Some (s, e, r) ->
  forIndexed (boundsBody contains) 1 (tl data) (None, None) = (Some s, Some e) /\
  r = updateSummaryCards data (Some s) (Some e) /\
  data <> [].
Proof.
  unfold selectPointsInBounds.
  destruct (forIndexed _ _ _ _) as [[s' |] [e' |]] eqn:Hloop;
    try discriminate.
  intros H. injection H as <- <- <-.
  split; [reflexivity |]. split; [reflexivity |].
  intros ->. discriminate.
Qed.

(** X19: a selection on the map runs from the first to the last point after
    index 0 that lies in the bounds: both are indices of the data, no
    point in the bounds lies outside the range, and [updateSummaryCards]
    returns totals for it, the totals the specification words when the
    time of the data does not decrease. *)
Theorem selectPointsInBounds_range (data : list SimulationPoint.t)
        (contains : R -> R -> bool) (s e : nat) (r : result Summary) :
  selectPointsInBounds (Some data) contains = Some (s, e, r) ->
  (1 <= s)%nat /\ (s <= e)%nat /\ (e < length data)%nat /\
  (exists pt, nth_error data s = Some pt /\ inBounds contains pt = true) /\
  (exists pt, nth_error data e = Some pt /\ inBounds contains pt = true) /\
  (forall k pt, (1 <= k)%nat -> nth_error data k = Some pt ->
                inBounds contains pt = true -> (s <= k <= e)%nat) /\
  (exists summary, r = Ok summary) /\
  (adjacent notEarlier data -> r = Ok (aggregate_spec data s e)).
Proof.
  intros H. apply selectPointsInBounds_some in H as (Hloop & -> & Hne).
  pose proof (boundsLoop_found contains data Hne) as [_ Hfound].
  rewrite Hloop in Hfound.
  destruct Hfound as (H1 & H2 & H3 & Hs & He & Hall).
  repeat (split; [assumption |]).
  split.
  - apply updateSummaryCards_in_range; lia.
  - intros Hadj. apply updateSummaryCards_range; try lia.
    now apply fieldAt_time_ordered.
Qed.

(** Nothing is selected on the map exactly when no point after index 0
    has coordinates that count as present and lie in the bounds. *)
Lemma selectPointsInBounds_none_iff (data : list SimulationPoint.t)
        (contains : R -> R -> bool) :
  selectPointsInBounds (Some data) contains = None <->
  (forall k pt, (1 <= k)%nat -> nth_error data k = Some pt ->
                inBounds contains pt = false).
Proof.
  destruct data as [| d0 rest].
  - split; [| reflexivity]. intros _ k pt _ Hpt. destruct k; discriminate.
  - assert (Hne : d0 :: rest <> []) by discriminate.
    pose proof (boundsLoop_found contains (d0 :: rest) Hne) as [_ Hfound].
    unfold selectPointsInBounds.
    destruct (forIndexed _ _ _ _) as [[s |] [e |]]; try contradiction.
    + split; [discriminate |]. intros Hnone.
      destruct Hfound as (H1 & _ & _ & (pt & Hpt & Hb) & _).
      specialize (Hnone s pt H1 Hpt). congruence.
    + split; [intros _; exact Hfound | reflexivity].
Qed.

(** X20: a latitude or a longitude of exactly 0 counts as missing: a route
    whose points all lie on the equator or on the prime meridian cannot be
    selected on the map, whatever the bounds. *)
Theorem selectPointsInBounds_zero_coordinate (data : list SimulationPoint.t)
        (contains : R -> R -> bool) :
  (forall k pt, (1 <= k)%nat -> nth_error data k = Some pt ->
                SimulationPoint.lat pt = Some 0 \/
                SimulationPoint.lon pt = Some 0) ->
  selectPointsInBounds (Some data) contains = None.
Proof.
  intros Hzero. apply selectPointsInBounds_none_iff.
  intros k pt Hk Hpt. unfold inBounds.
  destruct (Hzero k pt Hk Hpt) as [-> | Hlon].
  - destruct (SimulationPoint.lon pt); [| reflexivity].
    unfold truthy at 1. destruct (Req_dec_T 0 0); [reflexivity | contradiction].
  - rewrite Hlon. destruct (SimulationPoint.lat pt); [| reflexivity].
    unfold truthy at 2. destruct (Req_dec_T 0 0) as [_ | Hn];
      [| contradiction].
    now rewrite andb_false_r.
Qed.

Lemma shortData_selected :
  selectPointsInBounds (Some shortData) everywhere =
  Some (1%nat, 1%nat, updateSummaryCards shortData (Some 1%nat) (Some 1%nat)).
Proof.
  unfold selectPointsInBounds, shortData. cbn [tl forIndexed].
  unfold boundsBody at 1, inBounds, truthy, everywhere.
  cbn [SimulationPoint.lat SimulationPoint.lon].
  destruct (Req_dec_T 45 0) as [H | _]; [lra |].
  destruct (Req_dec_T 6 0) as [H | _]; [lra |].
  reflexivity.
Qed.

Lemma selectPointsInBounds_range_witness :
  selectPointsInBounds (Some shortData) everywhere =
  Some (1%nat, 1%nat, updateSummaryCards shortData (Some 1%nat) (Some 1%nat)) /\
  (1 <= 1)%nat /\ (1 <= 1)%nat /\ (1 < length shortData)%nat /\
  (exists pt, nth_error shortData 1 = Some pt /\
              inBounds everywhere pt = true) /\
  (exists pt, nth_error shortData 1 = Some pt /\
              inBounds everywhere pt = true) /\
  (forall k pt, (1 <= k)%nat -> nth_error shortData k = Some pt ->
                inBounds everywhere pt = true -> (1 <= k <= 1)%nat) /\
  (exists summary,
      updateSummaryCards shortData (Some 1%nat) (Some 1%nat) = Ok summary) /\
  (adjacent notEarlier shortData ->
   updateSummaryCards shortData (Some 1%nat) (Some 1%nat) =
   Ok (aggregate_spec shortData 1 1)).
Proof.
  split; [exact shortData_selected |].
  exact (selectPointsInBounds_range shortData everywhere 1 1 _
           shortData_selected).
Defined.

Lemma selectPointsInBounds_zero_coordinate_witness :
  (forall k pt, (1 <= k)%nat -> nth_error equatorData k = Some pt ->
                SimulationPoint.lat pt = Some 0 \/
                SimulationPoint.lon pt = Some 0) /\
  selectPointsInBounds (Some equatorData) everywhere = None.
Proof.
  assert (H : forall k pt, (1 <= k)%nat -> nth_error equatorData k = Some pt ->
                SimulationPoint.lat pt = Some 0 \/
                SimulationPoint.lon pt = Some 0).
  { intros k pt Hk Hpt. destruct k as [| [| k]]; simpl in Hpt.
    - lia.
    - injection Hpt as <-. left. reflexivity.
    - destruct k; discriminate. }
  split; [exact H |].
  exact (selectPointsInBounds_zero_coordinate equatorData everywhere H).
Defined.

(** ** Selection on a chart *)

Lemma chartBody_found (startDistM endDistM : R) (e0 : nat)
      (pre : list SimulationPoint.t) (x : SimulationPoint.t) (st : nat * nat) :
  chartFound startDistM endDistM e0 pre st ->
  chartFound startDistM endDistM e0 (pre ++ [x])
             (chartBody startDistM endDistM (length pre) x st).
Proof.
  destruct st as [s e]. intros [Hs He]. cbn [fst snd] in Hs, He.
  assert (Hlen : length (pre ++ [x]) = S (length pre))
    by (rewrite length_app; simpl; lia).
  unfold chartBody. split; cbn [fst snd].
  - destruct (Rge_dec (SimulationPoint.distance x) startDistM) as [Hge | Hnge];
      cbn [andb].
    + destruct (s =? 0)%nat eqn:E.
      * apply Nat.eqb_eq in E. subst s.
        destruct Hs as [[_ Hall] | [H1 _]]; [| lia].
        destruct (length pre) as [| n] eqn:Hn.
        -- left. split; [reflexivity |]. intros k pt Hk Hpt.
           apply nth_error_snoc_cases in Hpt as [[Hlt _] | [-> _]]; lia.
        -- right. split; [lia |]. split; [lia |]. split.
           ++ exists x. split; [rewrite <- Hn; apply nth_error_snoc_new | lra].
           ++ intros k pt Hk Hks Hpt.
              apply nth_error_snoc_cases in Hpt as [[Hlt Hpt] | [-> _]];
                [exact (Hall k pt Hk Hpt) | lia].
      * apply Nat.eqb_neq in E.
        destruct Hs as [[H0 _] | (H1 & H2 & (pt & Hpt & Hd) & Hall)]; [lia |].
        right. split; [exact H1 |]. split; [lia |]. split.
        -- exists pt. split; [now apply nth_error_snoc_old | exact Hd].
        -- intros k pt' Hk Hks Hpt'.
           apply nth_error_snoc_cases in Hpt' as [[Hlt Hpt'] | [-> _]];
             [exact (Hall k pt' Hk Hks Hpt') | lia].
    + assert (Hx : SimulationPoint.distance x < startDistM) by lra.
      clear Hnge.
      destruct Hs as [[H0 Hall] | (H1 & H2 & (pt & Hpt & Hd) & Hall)].
      * left. split; [exact H0 |]. intros k pt Hk Hpt.
        apply nth_error_snoc_cases in Hpt as [[Hlt Hpt] | [-> ->]];
          [exact (Hall k pt Hk Hpt) | exact Hx].
      * right. split; [exact H1 |]. split; [lia |]. split.
        -- exists pt. split; [now apply nth_error_snoc_old | exact Hd].
        -- intros k pt' Hk Hks Hpt'.
           apply nth_error_snoc_cases in Hpt' as [[Hlt Hpt'] | [-> _]];
             [exact (Hall k pt' Hk Hks Hpt') | lia].
  - destruct (Rle_dec (SimulationPoint.distance x) endDistM) as [Hle | Hgt].
    + right. split; [lia |]. split.
      * exists x. split; [apply nth_error_snoc_new | exact Hle].
      * intros k pt Hk Hpt.
        apply nth_error_snoc_cases in Hpt as [[Hlt _] | [-> _]]; lia.
    + assert (Hx : endDistM < SimulationPoint.distance x) by lra.
      destruct He as [[H0 Hall] | (H1 & (pt & Hpt & Hd) & Hall)].
      * left. split; [exact H0 |]. intros k pt Hpt.
        apply nth_error_snoc_cases in Hpt as [[Hlt Hpt] | [-> ->]];
          [exact (Hall k pt Hpt) | exact Hx].
      * right. split; [lia |]. split.
        -- exists pt. split; [now apply nth_error_snoc_old | exact Hd].
        -- intros k pt' Hk Hpt'.
           apply nth_error_snoc_cases in Hpt' as [[Hlt Hpt'] | [-> ->]];
             [exact (Hall k pt' Hk Hpt') | exact Hx].
Qed.

Lemma chartLoop_found (startDistM endDistM : R) (e0 : nat)
      (data : list SimulationPoint.t) :
  chartFound startDistM endDistM e0 data
    (forIndexed (chartBody startDistM endDistM) 0 data (O, e0)).
Proof.
  change data with ([] ++ data) at 1.
  change O with (length (@nil SimulationPoint.t)) at 1.
  apply forIndexed_invariant.
  - intros pre x st. apply chartBody_found.
  - split; left; cbn [fst snd]; (split; [reflexivity |]).
    + intros k pt _ Hpt. destruct k; discriminate.
    + intros k pt Hpt. destruct k; discriminate.
Qed.

Lemma selectChartRange_some (data : list SimulationPoint.t)
      (startDistKm endDistKm : R) (s e : nat) (r : result Summary) :
  selectChartRange (Some data) startDistKm endDistKm = Some (s, e, r) ->
  chartFound (startDistKm * 1000) (endDistKm * 1000) (length data - 1) data
             (s, e) /\
  (s < e)%nat /\
  r = updateSummaryCards data (Some s) (Some e).
Proof.
  unfold selectChartRange.
  pose proof (chartLoop_found (startDistKm * 1000) (endDistKm * 1000)
                (length data - 1) data) as Hfound.
  destruct (forIndexed _ _ _ _) as [s' e'].
  destruct (s' <? e')%nat eqn:E; [| discriminate].
  intros H. injection H as <- <- <-.
  apply Nat.ltb_lt in E. split; [exact Hfound |]. split; [exact E | reflexivity].
Qed.

(** X21: a selection on a chart is a range [start < end] of indices of the
    data, so that [updateSummaryCards] returns totals for it, the totals
    the specification words when the time of the data does not decrease. *)
Theorem selectChartRange_range (data : list SimulationPoint.t)
        (startDistKm endDistKm : R) (s e : nat) (r : result Summary) :
  selectChartRange (Some data) startDistKm endDistKm = Some (s, e, r) ->
  (s < e)%nat /\ (e < length data)%nat /\
  (exists summary, r = Ok summary) /\
  (adjacent notEarlier data -> r = Ok (aggregate_spec data s e)).
Proof.
  intros H. apply selectChartRange_some in H as ([_ He] & Hse & ->).
  cbn [fst snd] in He.
  assert (Hlen : (e < length data)%nat).
  { destruct He as [[-> _] | [H1 _]]; [lia | exact H1]. }
  split; [exact Hse |]. split; [exact Hlen |]. split.
  - apply updateSummaryCards_in_range; lia.
  - intros Hadj. apply updateSummaryCards_range; try lia.
    apply fieldAt_time_ordered; [assumption | lia | lia].
Qed.

(** Over data whose distance does not decrease between neighbours, it does
    not decrease between any two indices in order. *)
Lemma adjacent_notNearer (data : list SimulationPoint.t) :
  adjacent notNearer data ->
  forall i j a b,
    (i <= j)%nat -> nth_error data i = Some a -> nth_error data j = Some b ->
    SimulationPoint.distance a <= SimulationPoint.distance b.
Proof.
  intros Hadj i j a b Hij. revert b.
  induction Hij as [| m Hm IH]; intros b Ha Hb.
  - rewrite Ha in Hb. injection Hb as <-. lra.
  - destruct (nth_error data m) as [c |] eqn:Hc.
    + pose proof (IH c Ha eq_refl) as H1.
      pose proof (Hadj m c b Hc Hb) as H2. unfold notNearer in H2. lra.
    + apply nth_error_None in Hc.
      assert (Hn : nth_error data (S m) = None) by (apply nth_error_None; lia).
      congruence.
Qed.

Lemma longData_notNearer : adjacent notNearer longData.
Proof.
  intros i a b Ha Hb.
  destruct i as [| [| [| i]]]; simpl in Ha, Hb; try discriminate;
    injection Ha as <-; injection Hb as <-; unfold notNearer; simpl; lra.
Qed.

(** X22: over data whose distance does not decrease and starts no further than
    the end of the interval, a selection on a chart that starts after
    index 0 holds exactly the points after index 0 whose distance lies in
    the interval. *)
Theorem selectChartRange_within (data : list SimulationPoint.t)
        (startDistKm endDistKm : R) (s e : nat) (r : result Summary)
        (first : SimulationPoint.t) :
  adjacent notNearer data ->
  selectChartRange (Some data) startDistKm endDistKm = Some (s, e, r) ->
  (1 <= s)%nat ->
  nth_error data 0 = Some first ->
  SimulationPoint.distance first <= endDistKm * 1000 ->
  forall k pt,
    (1 <= k)%nat -> nth_error data k = Some pt ->
    ((s <= k <= e)%nat <->
     startDistKm * 1000 <= SimulationPoint.distance pt <= endDistKm * 1000).
Proof.
  intros Hadj H Hs1 Hfirst Hfd k pt Hk Hpt.
  apply selectChartRange_some in H as ([Hs He] & Hse & _).
  cbn [fst snd] in Hs, He.
  destruct Hs as [[H0 _] | (_ & _ & (ps & Hps & Hds) & Hbefore)]; [lia |].
  destruct He as [[_ Hall] | (_ & (pe & Hpe & Hde) & Hafter)].
  { specialize (Hall 0%nat first Hfirst). lra. }
  split.
  - intros [Hsk Hke].
    pose proof (adjacent_notNearer data Hadj s k ps pt Hsk Hps Hpt) as D1.
    pose proof (adjacent_notNearer data Hadj k e pt pe Hke Hpt Hpe) as D2.
    lra.
  - intros [Hlo Hhi].
    destruct (Nat.lt_ge_cases k s) as [Hlt | Hge].
    + specialize (Hbefore k pt Hk Hlt Hpt). lra.
    + destruct (Nat.lt_ge_cases e k) as [Hgt | Hle]; [| lia].
      specialize (Hafter k pt Hgt Hpt). lra.
Qed.

(** X23: a selection on a chart never starts at index 0 when point 1 has
    reached the start of the interval: it then starts at index 1, also when
    the interval starts at 0 km or before. *)
Theorem selectChartRange_skips_start (data : list SimulationPoint.t)
        (startDistKm endDistKm : R) (s e : nat) (r : result Summary)
        (second : SimulationPoint.t) :
  selectChartRange (Some data) startDistKm endDistKm = Some (s, e, r) ->
  nth_error data 1 = Some second ->
  startDistKm * 1000 <= SimulationPoint.distance second ->
  s = 1%nat.
Proof.
  intros H Hsecond Hd.
  apply selectChartRange_some in H as ([Hs _] & _ & _).
  cbn [fst snd] in Hs.
  destruct Hs as [[_ Hall] | (H1 & _ & _ & Hbefore)].
  - specialize (Hall 1%nat second (Nat.le_refl 1) Hsecond). lra.
  - destruct (Nat.eq_dec s 1) as [E | Hne]; [exact E |].
    assert (Hlt : (1 < s)%nat) by lia.
    specialize (Hbefore 1%nat second (Nat.le_refl 1) Hlt Hsecond). lra.
Qed.

(** X24: an interval that starts beyond every point after index 0 and ends at
    or beyond every point selects the whole data, from index 0 to the last
    index, although no point after index 0 lies in it. *)
Theorem selectChartRange_beyond_route (data : list SimulationPoint.t)
        (startDistKm endDistKm : R) :
  (2 <= length data)%nat ->
  (forall k pt, (1 <= k)%nat -> nth_error data k = Some pt ->
                SimulationPoint.distance pt < startDistKm * 1000) ->
  (forall k pt, nth_error data k = Some pt ->
                SimulationPoint.distance pt <= endDistKm * 1000) ->
  selectChartRange (Some data) startDistKm endDistKm =
  Some (O, (length data - 1)%nat,
        updateSummaryCards data (Some O) (Some (length data - 1)%nat)).
Proof.
  intros Hlen Hstart Hend. unfold selectChartRange.
  pose proof (chartLoop_found (startDistKm * 1000) (endDistKm * 1000)
                (length data - 1) data) as [Hs He].
  destruct (forIndexed _ _ _ _) as [s e]. cbn [fst snd] in Hs, He.
  assert (Es : s = O).
  { destruct Hs as [[H0 _] | (H1 & _ & (pt & Hpt & Hd) & _)]; [exact H0 |].
    specialize (Hstart s pt H1 Hpt). lra. }
  assert (Ee : e = (length data - 1)%nat).
  { destruct He as [[H0 _] | (H1 & _ & Hafter)]; [exact H0 |].
    destruct (Nat.eq_dec e (length data - 1)) as [E | Hne]; [exact E |].
    destruct (nth_error data (length data - 1)) as [pt |] eqn:Hpt;
      [| apply nth_error_None in Hpt; lia].
    assert (Hgt : (e < length data - 1)%nat) by lia.
    specialize (Hafter _ pt Hgt Hpt). specialize (Hend _ pt Hpt). lra. }
  subst s e.
  destruct (0 <? length data - 1)%nat eqn:E; [reflexivity |].
  apply Nat.ltb_ge in E. lia.
Qed.

Lemma longData_selected :
  selectChartRange (Some longData) 0 1 =
  Some (1%nat, 2%nat, updateSummaryCards longData (Some 1%nat) (Some 2%nat)).
Proof.
  unfold selectChartRange, longData. cbn [forIndexed length Nat.sub].
  unfold chartBody. cbn [SimulationPoint.distance].
  repeat match goal with
         | |- context [Rge_dec ?a ?b] => destruct (Rge_dec a b); try lra
         | |- context [Rle_dec ?a ?b] => destruct (Rle_dec a b); try lra
         end.
  reflexivity.
Qed.

Lemma selectChartRange_range_witness :
  selectChartRange (Some longData) 0 1 =
  Some (1%nat, 2%nat, updateSummaryCards longData (Some 1%nat) (Some 2%nat)) /\
  (1 < 2)%nat /\ (2 < length longData)%nat /\
  (exists summary,
      updateSummaryCards longData (Some 1%nat) (Some 2%nat) = Ok summary) /\
  (adjacent notEarlier longData ->
   updateSummaryCards longData (Some 1%nat) (Some 2%nat) =
   Ok (aggregate_spec longData 1 2)).
Proof.
  split; [exact longData_selected |].
  exact (selectChartRange_range longData 0 1 1 2 _ longData_selected).
Defined.

Lemma selectChartRange_within_witness :
  adjacent notNearer longData /\
  selectChartRange (Some longData) 0 1 =
  Some (1%nat, 2%nat, updateSummaryCards longData (Some 1%nat) (Some 2%nat)) /\
  (1 <= 1)%nat /\
  nth_error longData 0 = Some (SimulationPoint.mk 0 1000 0 0 0 0 None None 0) /\
  SimulationPoint.distance (SimulationPoint.mk 0 1000 0 0 0 0 None None 0)
  <= 1 * 1000 /\
  forall k pt,
    (1 <= k)%nat -> nth_error longData k = Some pt ->
    ((1 <= k <= 2)%nat <->
     0 * 1000 <= SimulationPoint.distance pt <= 1 * 1000).
Proof.
  assert (H1 : (1 <= 1)%nat) by lia.
  assert (H2 : SimulationPoint.distance
                 (SimulationPoint.mk 0 1000 0 0 0 0 None None 0) <= 1 * 1000)
    by (simpl; lra).
  split; [exact longData_notNearer |]. split; [exact longData_selected |].
  split; [exact H1 |]. split; [reflexivity |]. split; [exact H2 |].
  exact (selectChartRange_within longData 0 1 1 2 _ _
           longData_notNearer longData_selected H1 eq_refl H2).
Defined.

Lemma selectChartRange_skips_start_witness :
  selectChartRange (Some longData) 0 1 =
  Some (1%nat, 2%nat, updateSummaryCards longData (Some 1%nat) (Some 2%nat)) /\
  nth_error longData 1 =
  Some (SimulationPoint.mk 100 1000 36 200 10 0 (Some 45) (Some 6) 0) /\
  0 * 1000 <= SimulationPoint.distance
                (SimulationPoint.mk 100 1000 36 200 10 0 (Some 45) (Some 6) 0) /\
  1%nat = 1%nat.
Proof.
  assert (H : 0 * 1000 <= SimulationPoint.distance
                (SimulationPoint.mk 100 1000 36 200 10 0 (Some 45) (Some 6) 0))
    by (simpl; lra).
  split; [exact longData_selected |]. split; [reflexivity |].
  split; [exact H |].
  exact (selectChartRange_skips_start longData 0 1 1 2 _ _
           longData_selected eq_refl H).
Defined.

Lemma selectChartRange_beyond_route_witness :
  (2 <= length shortData)%nat /\
  (forall k pt, (1 <= k)%nat -> nth_error shortData k = Some pt ->
                SimulationPoint.distance pt < 5 * 1000) /\
  (forall k pt, nth_error shortData k = Some pt ->
                SimulationPoint.distance pt <= 10 * 1000) /\
  selectChartRange (Some shortData) 5 10 =
  Some (O, (length shortData - 1)%nat,
        updateSummaryCards shortData (Some O)
                           (Some (length shortData - 1)%nat)).
Proof.
  assert (H1 : (2 <= length shortData)%nat) by (simpl; lia).
  assert (H2 : forall k pt, (1 <= k)%nat -> nth_error shortData k = Some pt ->
                            SimulationPoint.distance pt < 5 * 1000).
  { intros k pt Hk Hpt. destruct k as [| [| k]]; simpl in Hpt.
    - lia.
    - injection Hpt as <-. simpl. lra.
    - destruct k; discriminate. }
  assert (H3 : forall k pt, nth_error shortData k = Some pt ->
                            SimulationPoint.distance pt <= 10 * 1000).
  { intros k pt Hpt. destruct k as [| [| k]]; simpl in Hpt.
    - injection Hpt as <-. simpl. lra.
    - injection Hpt as <-. simpl. lra.
    - destruct k; discriminate. }
  split; [exact H1 |]. split; [exact H2 |]. split; [exact H3 |].
  exact (selectChartRange_beyond_route shortData 5 10 H1 H2 H3).
Defined.

(** ** The closest point *)

Lemma closestBody_cases (lat lng : R) (i : nat) (x : SimulationPoint.t)
      (minDist : option R) (closestIdx : option nat) :
  closestBody lat lng i x (minDist, closestIdx) =
  if hasPosition x
  then
    if (match minDist with
        | None => true
        | Some m => if Rlt_dec (degreesTo lat lng x) m then true else false
        end)
    then (Some (degreesTo lat lng x), Some i)
    else (minDist, closestIdx)
  else (minDist, closestIdx).
Proof.
  unfold closestBody, hasPosition, degreesTo.
  destruct (SimulationPoint.lat x) as [plat |];
    destruct (SimulationPoint.lon x) as [plon |]; try reflexivity.
  now rewrite andb_false_r.
Qed.

Lemma closestBody_found (lat lng : R) (pre : list SimulationPoint.t)
      (x : SimulationPoint.t) (st : option R * option nat) :
  closestFound lat lng pre st ->
  closestFound lat lng (pre ++ [x]) (closestBody lat lng (length pre) x st).
Proof.
  intros [Hlen Hst].
  assert (Hlen' : length (pre ++ [x]) = S (length pre))
    by (rewrite length_app; simpl; lia).
  split; [lia |].
  destruct st as [[m |] [c |]]; try contradiction;
    rewrite closestBody_cases.
  - destruct Hst as (H1 & H2 & closest & Hc & Hp & Hm & Hmin & Hfirst).
    destruct (hasPosition x) eqn:Hx.
    + destruct (Rlt_dec (degreesTo lat lng x) m) as [Hlt | Hge].
      * split; [lia |]. split; [lia |]. exists x.
        split; [apply nth_error_snoc_new |]. split; [exact Hx |].
        split; [reflexivity |]. split.
        -- intros k pt Hk Hpt Hpos.
           apply nth_error_snoc_cases in Hpt as [[Hk' Hpt] | [-> ->]];
             [| lra].
           specialize (Hmin k pt Hk Hpt Hpos). lra.
        -- intros k pt Hk Hkc Hpt Hpos.
           apply nth_error_snoc_cases in Hpt as [[Hk' Hpt] | [-> ->]];
             [| lia].
           specialize (Hmin k pt Hk Hpt Hpos). lra.
      * split; [exact H1 |]. split; [lia |]. exists closest.
        split; [now apply nth_error_snoc_old |]. split; [exact Hp |].
        split; [exact Hm |]. split.
        -- intros k pt Hk Hpt Hpos.
           apply nth_error_snoc_cases in Hpt as [[Hk' Hpt] | [-> ->]];
             [exact (Hmin k pt Hk Hpt Hpos) | lra].
        -- intros k pt Hk Hkc Hpt Hpos.
           apply nth_error_snoc_cases in Hpt as [[Hk' Hpt] | [-> ->]];
             [exact (Hfirst k pt Hk Hkc Hpt Hpos) | lia].
    + split; [exact H1 |]. split; [lia |]. exists closest.
      split; [now apply nth_error_snoc_old |]. split; [exact Hp |].
      split; [exact Hm |]. split.
      * intros k pt Hk Hpt Hpos.
        apply nth_error_snoc_cases in Hpt as [[Hk' Hpt] | [-> ->]];
          [exact (Hmin k pt Hk Hpt Hpos) | congruence].
      * intros k pt Hk Hkc Hpt Hpos.
        apply nth_error_snoc_cases in Hpt as [[Hk' Hpt] | [-> ->]];
          [exact (Hfirst k pt Hk Hkc Hpt Hpos) | lia].
  - destruct (hasPosition x) eqn:Hx.
    + split; [exact Hlen |]. split; [lia |]. exists x.
      split; [apply nth_error_snoc_new |]. split; [exact Hx |].
      split; [reflexivity |]. split.
      * intros k pt Hk Hpt Hpos.
        apply nth_error_snoc_cases in Hpt as [[Hk' Hpt] | [-> ->]]; [| lra].
        specialize (Hst k pt Hk Hpt). congruence.
      * intros k pt Hk Hkc Hpt Hpos.
        apply nth_error_snoc_cases in Hpt as [[Hk' Hpt] | [-> ->]]; [| lia].
        specialize (Hst k pt Hk Hpt). congruence.
    + intros k pt Hk Hpt.
      apply nth_error_snoc_cases in Hpt as [[Hk' Hpt] | [-> ->]];
        [exact (Hst k pt Hk Hpt) | exact Hx].
Qed.

Lemma closestLoop_found (lat lng : R) (data : list SimulationPoint.t) :
  data <> [] ->
  closestFound lat lng data
    (forIndexed (closestBody lat lng) 1 (tl data) (None, None)).
Proof.
  intros Hne. destruct data as [| d0 rest]; [contradiction |].
  change (d0 :: rest) with ([d0] ++ rest) at 1. cbn [tl].
  change 1%nat with (length [d0]).
  apply forIndexed_invariant.
  - intros pre x st. apply closestBody_found.
  - split; [simpl; lia |]. intros k pt Hk Hpt.
    destruct k as [| [| k]]; [lia | discriminate | discriminate].
Qed.

(** X25: [findClosestPoint] returns a point of the data after index 0 that has
    a position: none with a position is nearer to the given position, and
    those before it are further away. *)
Theorem findClosestPoint_closest (data : list SimulationPoint.t)
        (lat lng : R) (idx : nat) (found : option SimulationPoint.t) :
  findClosestPoint data lat lng = Some (idx, found) ->
  (1 <= idx)%nat /\ (idx < length data)%nat /\
  exists closest,
    found = Some closest /\
    nth_error data idx = Some closest /\
    hasPosition closest = true /\
    (forall k pt, (1 <= k)%nat -> nth_error data k = Some pt ->
                  hasPosition pt = true ->
                  degreesTo lat lng closest <= degreesTo lat lng pt) /\
    (forall k pt, (1 <= k)%nat -> (k < idx)%nat ->
                  nth_error data k = Some pt ->
                  hasPosition pt = true ->
                  degreesTo lat lng closest < degreesTo lat lng pt).
Proof.
  unfold findClosestPoint. intros H.
  destruct data as [| d0 rest]; [discriminate |].
  assert (Hne : d0 :: rest <> []) by discriminate.
  pose proof (closestLoop_found lat lng (d0 :: rest) Hne) as [_ Hfound].
  destruct (forIndexed _ _ _ _) as [[m |] [c |]]; try contradiction;
    cbn [snd] in H; [| discriminate].
  injection H as <- <-.
  destruct Hfound as (H1 & H2 & closest & Hc & Hp & -> & Hmin & Hfirst).
  split; [exact H1 |]. split; [exact H2 |].
  exists closest. repeat (split; [assumption |]). exact Hfirst.
Qed.

(** [findClosestPoint] returns [null] exactly when no point after index 0
    has a position (a latitude and a longitude, neither of them 0). *)
Lemma findClosestPoint_none_iff (data : list SimulationPoint.t) (lat lng : R) :
  findClosestPoint data lat lng = None <->
  (forall k pt, (1 <= k)%nat -> nth_error data k = Some pt ->
                hasPosition pt = false).
Proof.
  unfold findClosestPoint.
  destruct data as [| d0 rest].
  - split; [| reflexivity]. intros _ k pt _ Hpt. destruct k; discriminate.
  - assert (Hne : d0 :: rest <> []) by discriminate.
    pose proof (closestLoop_found lat lng (d0 :: rest) Hne) as [_ Hfound].
    destruct (forIndexed _ _ _ _) as [[m |] [c |]]; try contradiction;
      cbn [snd].
    + split; [discriminate |]. intros Hnone.
      destruct Hfound as (H1 & _ & closest & Hc & Hp & _).
      specialize (Hnone c closest H1 Hc). congruence.
    + split; [intros _; exact Hfound | reflexivity].
Qed.

Lemma longData_closest :
  findClosestPoint longData 45 6 =
  Some (1%nat,
        Some (SimulationPoint.mk 100 1000 36 200 10 0 (Some 45) (Some 6) 0)).
Proof.
  set (p1 := SimulationPoint.mk 100 1000 36 200 10 0 (Some 45) (Some 6) 0).
  set (p2 := SimulationPoint.mk 250 1000 27 150 30 0 (Some 45.001) (Some 6) 0).
  assert (Hp1 : hasPosition p1 = true).
  { unfold hasPosition, truthy, p1. simpl.
    destruct (Req_dec_T 45 0); [lra |]. destruct (Req_dec_T 6 0); [lra |].
    reflexivity. }
  assert (Hp2 : hasPosition p2 = true).
  { unfold hasPosition, truthy, p2. simpl.
    destruct (Req_dec_T 45.001 0); [lra |]. destruct (Req_dec_T 6 0); [lra |].
    reflexivity. }
  assert (Hd1 : degreesTo 45 6 p1 = 0).
  { unfold degreesTo, p1. cbn [SimulationPoint.lat SimulationPoint.lon].
    replace ((45 - 45) ^ 2 + (6 - 6) ^ 2) with 0 by ring. apply sqrt_0. }
  assert (Hd2 : 0 <= degreesTo 45 6 p2).
  { unfold degreesTo, p2. cbn [SimulationPoint.lat SimulationPoint.lon].
    apply sqrt_pos. }
  unfold findClosestPoint, longData. fold p1 p2. cbn [tl forIndexed].
  rewrite (closestBody_cases 45 6 1 p1 None None), Hp1.
  rewrite closestBody_cases, Hp2, Hd1.
  destruct (Rlt_dec (degreesTo 45 6 p2) 0) as [H | _]; [lra |].
  reflexivity.
Qed.

Lemma findClosestPoint_closest_witness :
  findClosestPoint longData 45 6 =
  Some (1%nat,
        Some (SimulationPoint.mk 100 1000 36 200 10 0 (Some 45) (Some 6) 0)) /\
  (1 <= 1)%nat /\ (1 < length longData)%nat /\
  exists closest,
    Some (SimulationPoint.mk 100 1000 36 200 10 0 (Some 45) (Some 6) 0)
    = Some closest /\
    nth_error longData 1 = Some closest /\
    hasPosition closest = true /\
    (forall k pt, (1 <= k)%nat -> nth_error longData k = Some pt ->
                  hasPosition pt = true ->
                  degreesTo 45 6 closest <= degreesTo 45 6 pt) /\
    (forall k pt, (1 <= k)%nat -> (k < 1)%nat ->
                  nth_error longData k = Some pt ->
                  hasPosition pt = true ->
                  degreesTo 45 6 closest < degreesTo 45 6 pt).
Proof.
  split; [exact longData_closest |].
  exact (findClosestPoint_closest longData 45 6 1 _ longData_closest).
Defined.

(** ** Fewer points for the charts *)

Lemma ceilDiv_covers (a b : nat) : (1 <= b)%nat -> (a <= ceilDiv a b * b)%nat.
Proof.
  intros Hb. unfold ceilDiv.
  pose proof (Nat.div_mod_eq (a + b - 1) b) as Hdiv.
  pose proof (Nat.mod_upper_bound (a + b - 1) b ltac:(lia)) as Hmod.
  nia.
Qed.

Lemma ceilDiv_pos (a b : nat) :
  (1 <= b)%nat -> (1 <= a)%nat -> (1 <= ceilDiv a b)%nat.
Proof.
  intros Hb Ha. pose proof (ceilDiv_covers a b Hb) as H.
  destruct (ceilDiv a b); lia.
Qed.

(** Enough windows of [step] elements to cover what is left of the data
    bound the number of averages. *)
Lemma downsampleLoop_length (data : list SimulationPoint.t) (step : nat) :
  (1 <= step)%nat ->
  forall fuel i count,
    (length data - i <= count * step)%nat ->
    (length (downsampleLoop fuel data step i) <= count)%nat.
Proof.
  intros Hstep. induction fuel as [| fuel IH]; intros i count Hcover.
  - simpl. lia.
  - cbn [downsampleLoop]. destruct (i <? length data)%nat eqn:E.
    + apply Nat.ltb_lt in E. cbv zeta. cbn [length].
      destruct count as [| count]; [simpl in Hcover; lia |].
      apply le_n_S. apply IH. simpl in Hcover. lia.
    + simpl. lia.
Qed.

(** Fuel beyond the length of the data is not used. *)
Lemma downsampleLoop_fuel (data : list SimulationPoint.t) (step : nat) :
  (1 <= step)%nat ->
  forall fuel i extra,
    (length data - i <= fuel)%nat ->
    downsampleLoop (fuel + extra) data step i = downsampleLoop fuel data step i.
Proof.
  intros Hstep. induction fuel as [| fuel IH]; intros i extra Hfuel.
  - cbn [Nat.add downsampleLoop]. destruct extra as [| extra]; [reflexivity |].
    cbn [downsampleLoop].
    destruct (i <? length data)%nat eqn:E; [| reflexivity].
    apply Nat.ltb_lt in E. lia.
  - cbn [Nat.add downsampleLoop].
    destruct (i <? length data)%nat eqn:E; [| reflexivity].
    apply Nat.ltb_lt in E. cbv zeta. f_equal. apply IH. lia.
Qed.

Lemma slice_In {A : Type} (data : list A) (from to : nat) (x : A) :
  In x (slice data from to) ->
  exists k, (from <= k < to)%nat /\ nth_error data k = Some x.
Proof.
  intros Hin. apply In_nth_error in Hin as [n Hn]. unfold slice in Hn.
  rewrite nth_error_firstn in Hn.
  destruct (n <? to - from)%nat eqn:E; [| discriminate].
  apply Nat.ltb_lt in E. rewrite nth_error_skipn in Hn.
  exists (from + n)%nat. split; [lia | exact Hn].
Qed.

Lemma slice_nonempty {A : Type} (data : list A) (from to : nat) :
  (from < length data)%nat -> (from < to)%nat -> slice data from to <> [].
Proof.
  intros Hlen Hlt Hnil. apply (f_equal (@length A)) in Hnil.
  unfold slice in Hnil. rewrite length_firstn, length_skipn in Hnil.
  simpl in Hnil. lia.
Qed.

Lemma orZero_id (x : R) : orZero x = x.
Proof. unfold orZero. destruct (Req_dec_T x 0); lra. Qed.

Lemma windowMean_ext (f h : SimulationPoint.t -> R)
      (window : list SimulationPoint.t) :
  (forall p, f p = h p) -> windowMean f window = windowMean h window.
Proof.
  intros Hext. unfold windowMean. f_equal.
  generalize 0. induction window as [| x l IH]; intros acc; [reflexivity |].
  cbn [fold_left]. rewrite Hext. apply IH.
Qed.

(** Every average the loop produces is the average of a non-empty window
    of neighbours in the data. *)
Lemma downsampleLoop_In (data : list SimulationPoint.t) (step : nat) :
  (1 <= step)%nat ->
  forall fuel i q,
    In q (downsampleLoop fuel data step i) ->
    exists from to,
      (i <= from)%nat /\ (from < to)%nat /\ (from < length data)%nat /\
      q = windowAverage (slice data from to).
Proof.
  intros Hstep. induction fuel as [| fuel IH]; intros i q Hin.
  - contradiction.
  - cbn [downsampleLoop] in Hin.
    destruct (i <? length data)%nat eqn:E; [| contradiction].
    apply Nat.ltb_lt in E. cbv zeta in Hin. destruct Hin as [<- | Hin].
    + exists i, (Nat.min (i + step) (length data)).
      repeat split; try lia.
    + destruct (IH (i + step)%nat q Hin) as (from & to & H1 & H2 & H3 & ->).
      exists from, to. repeat split; try lia.
Qed.

Lemma downsampleData_short (data : list SimulationPoint.t) (maxPoints : nat) :
  (length data <= maxPoints)%nat -> downsampleData data maxPoints = data.
Proof.
  intros Hle. unfold downsampleData. apply Nat.leb_le in Hle. now rewrite Hle.
Qed.

(** X26: [downsampleData] returns the data itself when it has no more than
    [maxPoints] points, and otherwise at least one and at most [maxPoints]
    averages. *)
Theorem downsampleData_length (data : list SimulationPoint.t) (maxPoints : nat) :
  (1 <= maxPoints)%nat ->
  ((length data <= maxPoints)%nat -> downsampleData data maxPoints = data) /\
  ((maxPoints < length data)%nat ->
   (1 <= length (downsampleData data maxPoints) <= maxPoints)%nat).
Proof.
  intros Hmax. split; [apply downsampleData_short |].
  unfold downsampleData.
  - intros Hgt.
    destruct (length data <=? maxPoints)%nat eqn:E;
      [apply Nat.leb_le in E; lia |].
    destruct maxPoints as [| m]; [lia |]. cbv zeta.
    pose proof (ceilDiv_covers (length data) (S m) Hmax) as Hcover.
    pose proof (ceilDiv_pos (length data) (S m) Hmax ltac:(lia)) as Hpos.
    split.
    + destruct (length data) as [| n] eqn:Hn; [lia |].
      cbn [downsampleLoop]. rewrite Hn. cbn [Nat.ltb Nat.leb length]. lia.
    + apply downsampleLoop_length; [exact Hpos |]. lia.
Qed.

Lemma downsampleData_length_witness :
  (1 <= 2)%nat /\
  ((length longData <= 2)%nat -> downsampleData longData 2 = longData) /\
  ((2 < length longData)%nat ->
   (1 <= length (downsampleData longData 2) <= 2)%nat).
Proof.
  assert (H : (1 <= 2)%nat) by lia.
  split; [exact H |]. exact (downsampleData_length longData 2 H).
Defined.

Lemma windowAverage_field (f : SimulationPoint.t -> R)
      (window : list SimulationPoint.t) :
  chartField f -> f (windowAverage window) = windowMean f window.
Proof.
  intros [-> | [-> | [-> | [-> | [-> | [-> | ->]]]]]]; cbn;
    try reflexivity; apply windowMean_ext; intros p; apply orZero_id.
Qed.

Lemma fold_left_sum_lower (f : SimulationPoint.t -> R) (lo : R)
      (l : list SimulationPoint.t) :
  (forall p, In p l -> lo <= f p) ->
  forall acc,
    acc + lo * INR (length l) <= fold_left (fun sum p => sum + f p) l acc.
Proof.
  induction l as [| x l IH]; intros Hall acc.
  - simpl. lra.
  - cbn [fold_left length]. rewrite S_INR.
    assert (Hx : lo <= f x) by (apply Hall; now left).
    assert (Hl : forall p, In p l -> lo <= f p)
      by (intros p Hp; apply Hall; now right).
    specialize (IH Hl (acc + f x)). lra.
Qed.

Lemma fold_left_sum_upper (f : SimulationPoint.t -> R) (hi : R)
      (l : list SimulationPoint.t) :
  (forall p, In p l -> f p <= hi) ->
  forall acc,
    fold_left (fun sum p => sum + f p) l acc <= acc + hi * INR (length l).
Proof.
  induction l as [| x l IH]; intros Hall acc.
  - simpl. lra.
  - cbn [fold_left length]. rewrite S_INR.
    assert (Hx : f x <= hi) by (apply Hall; now left).
    assert (Hl : forall p, In p l -> f p <= hi)
      by (intros p Hp; apply Hall; now right).
    specialize (IH Hl (acc + f x)). lra.
Qed.

Lemma windowMean_lower (f : SimulationPoint.t -> R) (lo : R)
      (window : list SimulationPoint.t) :
  window <> [] -> (forall p, In p window -> lo <= f p) ->
  lo <= windowMean f window.
Proof.
  intros Hne Hall. unfold windowMean.
  pose proof (fold_left_sum_lower f lo window Hall 0) as Hsum.
  assert (Hn : 0 < INR (length window)).
  { apply lt_0_INR. destruct window; [contradiction | simpl; lia]. }
  set (n := INR (length window)) in *.
  set (total := fold_left (fun sum p => sum + f p) window 0) in *.
  assert (Hq : total / n * n = total) by (field; lra).
  set (q := total / n) in *. nra.
Qed.

Lemma windowMean_upper (f : SimulationPoint.t -> R) (hi : R)
      (window : list SimulationPoint.t) :
  window <> [] -> (forall p, In p window -> f p <= hi) ->
  windowMean f window <= hi.
Proof.
  intros Hne Hall. unfold windowMean.
  pose proof (fold_left_sum_upper f hi window Hall 0) as Hsum.
  assert (Hn : 0 < INR (length window)).
  { apply lt_0_INR. destruct window; [contradiction | simpl; lia]. }
  set (n := INR (length window)) in *.
  set (total := fold_left (fun sum p => sum + f p) window 0) in *.
  assert (Hq : total / n * n = total) by (field; lra).
  set (q := total / n) in *. nra.
Qed.

(** X27: downsampling keeps the sign of a field: where no point of the data
    has a negative value, no average has one, and where no point has a
    positive value, no average has one. *)
Theorem downsampleData_keeps_sign (data : list SimulationPoint.t)
        (maxPoints : nat) (f : SimulationPoint.t -> R) :
  (1 <= maxPoints)%nat ->
  chartField f ->
  ((forall p, In p data -> 0 <= f p) ->
   forall q, In q (downsampleData data maxPoints) -> 0 <= f q) /\
  ((forall p, In p data -> f p <= 0) ->
   forall q, In q (downsampleData data maxPoints) -> f q <= 0).
Proof.
  intros Hmax Hf.
  assert (Hwin : forall q, In q (downsampleData data maxPoints) ->
                   In q data \/
                   exists window,
                     window <> [] /\ (forall p, In p window -> In p data) /\
                     f q = windowMean f window).
  { intros q Hq. unfold downsampleData in Hq.
    destruct (length data <=? maxPoints)%nat eqn:E; [now left |].
    apply Nat.leb_gt in E. right.
    destruct maxPoints as [| m]; [lia |]. cbv zeta in Hq.
    pose proof (ceilDiv_pos (length data) (S m) Hmax ltac:(lia)) as Hpos.
    destruct (downsampleLoop_In data _ Hpos _ _ q Hq)
      as (from & to & _ & Hlt & Hlen & ->).
    exists (slice data from to). split; [now apply slice_nonempty |].
    split; [| exact (windowAverage_field f _ Hf)].
    intros p Hp. apply slice_In in Hp as (k & _ & Hk).
    exact (nth_error_In _ _ Hk). }
  split; intros Hall q Hq;
    destruct (Hwin q Hq) as [Hin | (window & Hne & Hsub & ->)];
    try (now apply Hall).
  - apply windowMean_lower; [exact Hne |]. intros p Hp. apply Hall, Hsub, Hp.
  - apply windowMean_upper; [exact Hne |]. intros p Hp. apply Hall, Hsub, Hp.
Qed.

Lemma downsampleData_keeps_sign_witness :
  (1 <= 2)%nat /\ chartField SimulationPoint.power /\
  ((forall p, In p longData -> 0 <= SimulationPoint.power p) ->
   forall q, In q (downsampleData longData 2) ->
             0 <= SimulationPoint.power q) /\
  ((forall p, In p longData -> SimulationPoint.power p <= 0) ->
   forall q, In q (downsampleData longData 2) ->
             SimulationPoint.power q <= 0).
Proof.
  assert (H1 : (1 <= 2)%nat) by lia.
  assert (H2 : chartField SimulationPoint.power)
    by (right; right; right; left; reflexivity).
  split; [exact H1 |]. split; [exact H2 |].
  exact (downsampleData_keeps_sign longData 2 _ H1 H2).
Defined.

(** ** Hovering *)

Lemma nearestBody_found (target : R) (pre : list SimulationPoint.t)
      (x : SimulationPoint.t) (st : option R * nat) :
  nearestFound target pre st ->
  nearestFound target (pre ++ [x]) (nearestBody target (length pre) x st).
Proof.
  destruct st as [[m |] idx]; unfold nearestFound; cbn [fst snd];
    unfold nearestBody.
  - intros (Hidx & nearest & Hn & Hm & Hmin & Hfirst).
    assert (Hlen : length (pre ++ [x]) = S (length pre))
      by (rewrite length_app; simpl; lia).
    destruct (Rlt_dec (Rabs (SimulationPoint.distance x - target)) m)
      as [Hlt | Hge]; cbn [fst snd].
    + split; [lia |]. exists x. split; [apply nth_error_snoc_new |].
      split; [reflexivity |]. split.
      * intros k pt Hpt.
        apply nth_error_snoc_cases in Hpt as [[Hk Hpt] | [-> ->]]; [| lra].
        specialize (Hmin k pt Hpt). lra.
      * intros k pt Hk Hpt.
        apply nth_error_snoc_cases in Hpt as [[Hk' Hpt] | [-> ->]]; [| lia].
        specialize (Hmin k pt Hpt). lra.
    + split; [lia |]. exists nearest.
      split; [now apply nth_error_snoc_old |]. split; [exact Hm |]. split.
      * intros k pt Hpt.
        apply nth_error_snoc_cases in Hpt as [[Hk Hpt] | [-> ->]];
          [exact (Hmin k pt Hpt) | lra].
      * intros k pt Hk Hpt.
        apply nth_error_snoc_cases in Hpt as [[Hk' Hpt] | [-> ->]];
          [exact (Hfirst k pt Hk Hpt) | lia].
  - intros [-> ->]. cbn [fst snd app length].
    split; [lia |]. exists x. split; [reflexivity |]. split; [reflexivity |].
    split.
    + intros k pt Hpt. destruct k as [| k]; [| destruct k; discriminate].
      simpl in Hpt. injection Hpt as <-. lra.
    + intros k pt Hk. lia.
Qed.

(** In non-empty data [nearestIndex] is the first index at which the
    distance differs least from the target. *)
Lemma nearestIndex_nearest (data : list SimulationPoint.t) (target : R) :
  data <> [] ->
  (nearestIndex data target < length data)%nat /\
  exists nearest,
    nth_error data (nearestIndex data target) = Some nearest /\
    (forall k pt, nth_error data k = Some pt ->
                  Rabs (SimulationPoint.distance nearest - target)
                  <= Rabs (SimulationPoint.distance pt - target)) /\
    (forall k pt, (k < nearestIndex data target)%nat ->
                  nth_error data k = Some pt ->
                  Rabs (SimulationPoint.distance nearest - target)
                  < Rabs (SimulationPoint.distance pt - target)).
Proof.
  intros Hne. unfold nearestIndex.
  assert (Hfound : nearestFound target data
                     (forIndexed (nearestBody target) 0 data (None, O))).
  { change data with ([] ++ data) at 1.
    change O with (length (@nil SimulationPoint.t)) at 1.
    apply forIndexed_invariant.
    - intros pre x st. apply nearestBody_found.
    - unfold nearestFound. cbn [fst snd]. split; reflexivity. }
  unfold nearestFound in Hfound.
  destruct (forIndexed _ _ _ _) as [[m |] idx]; cbn [fst snd] in *.
  - destruct Hfound as (Hidx & nearest & Hn & -> & Hmin & Hfirst).
    split; [exact Hidx |]. exists nearest. repeat split; assumption.
  - destruct Hfound as [-> _]. contradiction.
Qed.



(** X30: when [handleChartHover] moves the marker, it moves it to the position
    of a point of the data, the first among those whose distance is
    nearest to the distance of the hovered chart point. *)
Theorem handleChartHover_nearest (data : list SimulationPoint.t)
        (hoverMarker : bool) (downsampledIndex : nat) (lat lon : R) :
  handleChartHover (Some data) hoverMarker downsampledIndex = Some (lat, lon) ->
  exists hovered idx point,
    nth_error (downsampleData data defaultMaxPoints) downsampledIndex
    = Some hovered /\
    nth_error data idx = Some point /\
    SimulationPoint.lat point = Some lat /\
    SimulationPoint.lon point = Some lon /\
    lat <> 0 /\ lon <> 0 /\
    (forall k pt, nth_error data k = Some pt ->
                  Rabs (SimulationPoint.distance point -
                        SimulationPoint.distance hovered)
                  <= Rabs (SimulationPoint.distance pt -
                           SimulationPoint.distance hovered)) /\
    (forall k pt, (k < idx)%nat -> nth_error data k = Some pt ->
                  Rabs (SimulationPoint.distance point -
                        SimulationPoint.distance hovered)
                  < Rabs (SimulationPoint.distance pt -
                          SimulationPoint.distance hovered)).
Proof.
  unfold handleChartHover. cbv zeta.
  destruct (length (downsampleData data defaultMaxPoints) <=? downsampledIndex)%nat;
    [discriminate |].
  destruct (nth_error (downsampleData data defaultMaxPoints) downsampledIndex)
    as [hovered |] eqn:Hh; [| discriminate].
  destruct (nth_error data (nearestIndex data (SimulationPoint.distance hovered)))
    as [point |] eqn:Hp; [| discriminate].
  destruct (SimulationPoint.lat point) as [plat |] eqn:Hlat; [| discriminate].
  destruct (SimulationPoint.lon point) as [plon |] eqn:Hlon; [| discriminate].
  unfold truthy.
  destruct (Req_dec_T plat 0) as [| Hnlat]; [discriminate |].
  destruct (Req_dec_T plon 0) as [| Hnlon]; [discriminate |].
  destruct hoverMarker; [| discriminate]. cbn [andb].
  intros H. injection H as <- <-.
  assert (Hne : data <> []).
  { intros ->. destruct (nearestIndex [] _); discriminate. }
  destruct (nearestIndex_nearest data (SimulationPoint.distance hovered) Hne)
    as (_ & nearest & Hn & Hmin & Hfirst).
  rewrite Hp in Hn. injection Hn as <-.
  exists hovered, (nearestIndex data (SimulationPoint.distance hovered)), point.
  split; [reflexivity |].
  repeat (split; [assumption |]). exact Hfirst.
Qed.

Lemma longData_nearest : nearestIndex longData 100 = 1%nat.
Proof.
  unfold nearestIndex, longData. cbn [forIndexed]. unfold nearestBody.
  cbn [SimulationPoint.distance]. cbv zeta.
  replace (Rabs (0 - 100)) with 100 by (rewrite Rabs_left; lra).
  replace (Rabs (100 - 100)) with 0
    by (replace (100 - 100) with 0 by ring; now rewrite Rabs_R0).
  replace (Rabs (250 - 100)) with 150 by (rewrite Rabs_right; lra).
  destruct (Rlt_dec 0 100) as [_ | H]; [| lra].
  destruct (Rlt_dec 150 0) as [H | _]; [lra |].
  reflexivity.
Qed.

Lemma longData_hover : handleChartHover (Some longData) true 1 = Some (45, 6).
Proof.
  unfold handleChartHover. cbv zeta.
  rewrite downsampleData_short by (unfold defaultMaxPoints; simpl; lia).
  change (length longData <=? 1)%nat with false. cbv iota.
  change (nth_error longData 1)
    with (Some (SimulationPoint.mk 100 1000 36 200 10 0 (Some 45) (Some 6) 0)).
  cbv iota. cbn [SimulationPoint.distance]. rewrite longData_nearest.
  change (nth_error longData 1)
    with (Some (SimulationPoint.mk 100 1000 36 200 10 0 (Some 45) (Some 6) 0)).
  cbv iota. cbn [SimulationPoint.lat SimulationPoint.lon]. unfold truthy.
  destruct (Req_dec_T 45 0) as [H | _]; [lra |].
  destruct (Req_dec_T 6 0) as [H | _]; [lra |].
  reflexivity.
Qed.

Lemma handleChartHover_nearest_witness :
  handleChartHover (Some longData) true 1 = Some (45, 6) /\
  exists hovered idx point,
    nth_error (downsampleData longData defaultMaxPoints) 1 = Some hovered /\
    nth_error longData idx = Some point /\
    SimulationPoint.lat point = Some 45 /\
    SimulationPoint.lon point = Some 6 /\
    45 <> 0 /\ 6 <> 0 /\
    (forall k pt, nth_error longData k = Some pt ->
                  Rabs (SimulationPoint.distance point -
                        SimulationPoint.distance hovered)
                  <= Rabs (SimulationPoint.distance pt -
                           SimulationPoint.distance hovered)) /\
    (forall k pt, (k < idx)%nat -> nth_error longData k = Some pt ->
                  Rabs (SimulationPoint.distance point -
                        SimulationPoint.distance hovered)
                  < Rabs (SimulationPoint.distance pt -
                          SimulationPoint.distance hovered)).
Proof.
  split; [exact longData_hover |].
  exact (handleChartHover_nearest longData true 1 45 6 longData_hover).
Defined.
